(** * Noto animated-emoji downloader: a model of [scripts/download_noto_emoji.py]

    The script fetches a catalog of emoji, stores one Lottie file per emoji
    (with a second attempt on an underscore form of the codepoint), counts
    the outcomes and writes two index files.

    Conventions of the model.
    - Python [str] values are [string]s (UTF-8 bytes).  The only characters
      the script inspects are the ASCII [':'], ['-'], ['_'], [' '] and ['/'],
      whose bytes never occur inside a multi-byte sequence, so the byte-wise
      operations below agree with the code-point-wise ones of Python.
    - A catalog entry is a JSON object; a key that [emoji.get] reads may be
      absent, which the record shows as [None].  Values have the types of the
      catalog schema.
    - Python [float] sizes are rationals: [len / 1024] is a dyadic rational,
      exact in binary floating point below 2^53 bytes.
    - The transport, the file system and the JSON codec are collaborators:
      the first two are oracles of a [world], the files hold abstract JSON
      documents.
    - Uncaught exceptions are values ([Raise]); every effect is recorded in a
      chronological trace.
    - The calls that the thread pool runs are serialised: each call of
      [download_one] is one step, and a schedule gives the order of the
      calls, which is also the order of completion.  The main thread does
      everything else, in program order.
    - Strings are ordered as Python orders them: by code point, which for
      UTF-8 is the lexicographic order of the bytes. *)

From Stdlib Require Import ZArith QArith Ascii String List Permutation Sorted.
From Stdlib.Strings Require Import Byte.
From stdpp Require Import gmap strings list fin_maps.


(** ** Python string methods used by the script *)

Module Py.

(** [s.lstrip(c)] for a one-character argument. *)
Fixpoint lstrip (c : ascii) (s : string) : string :=
  match s with
  | EmptyString => EmptyString
  | String a s' => if Ascii.eqb a c then lstrip c s' else s
  end.

(** [s.rstrip(c)] for a one-character argument. *)
Fixpoint rstrip (c : ascii) (s : string) : string :=
  match s with
  | EmptyString => EmptyString
  | String a s' =>
      match rstrip c s' with
      | EmptyString => if Ascii.eqb a c then EmptyString else String a EmptyString
      | r => String a r
      end
  end.

(** [s.strip(c)]: every leading and every trailing [c] is removed. *)
Definition strip (c : ascii) (s : string) : string := rstrip c (lstrip c s).

(** [s.replace(old, new)] for one-character [old] and [new]. *)
Fixpoint replace (old new : ascii) (s : string) : string :=
  match s with
  | EmptyString => EmptyString
  | String a s' => String (if Ascii.eqb a old then new else a) (replace old new s')
  end.

(** [s.startswith(c)]. *)
Definition startswith (c : ascii) (s : string) : bool :=
  match s with
  | String a _ => Ascii.eqb a c
  | EmptyString => false
  end.

(** [s.endswith(c)]. *)
Fixpoint endswith (c : ascii) (s : string) : bool :=
  match s with
  | EmptyString => false
  | String a EmptyString => Ascii.eqb a c
  | String _ s' => endswith c s'
  end.

(** [posixpath.join(a, b)]: an absolute [b] discards [a]. *)
Definition path_join (a b : string) : string :=
  if startswith "/" b then b
  else if (String.eqb a "" || endswith "/" a)%bool then a +:+ b
  else a +:+ "/" +:+ b.

(** A string made of the character [c] only. *)
Fixpoint all_char (c : ascii) (s : string) : bool :=
  match s with
  | EmptyString => true
  | String a s' => (Ascii.eqb a c && all_char c s')%bool
  end.

End Py.

(** ** Catalog entries *)

(** One element of [data["icons"]].  [codepoint] and [name] are read with
    [emoji[...]], the other keys with [emoji.get]. *)
Record emoji := Emoji {
  codepoint : option string;
  name : option string;
  tags : option (list string);
  categories : option (list string);
  popularity : option Z
}.

Inductive exn :=
| KeyError (key : string)
| RequestException (what : string)
| OSError (path : string)
| JSONDecodeError.

(** The result of evaluating Python code: a value, or a raised exception. *)
Inductive result (A : Type) :=
| Return (a : A)
| Raise (e : exn).
Arguments Return {A} a.
Arguments Raise {A} e.

(** [emoji[key]] *)
Definition getitem (key : string) (field : option string) : result string :=
  match field with
  | Some v => Return v
  | None => Raise (KeyError key)
  end.

(** [tags[0] if tags else name], with [tags = emoji.get("tags", [])]. *)
Definition first_tag (e : emoji) (nm : string) : string :=
  match tags e with
  | Some (t :: _) => t
  | _ => nm
  end.

(** [tag.strip(':').replace('-', '_')] *)
Definition normalized_tag (tag : string) : string :=
  Py.replace "-" "_" (Py.strip ":" tag).

(** The destination key [{codepoint}_{tag...}] inside the f-string of
    line 32. *)
Definition key_of (cp tag : string) : string :=
  cp +:+ "_" +:+ normalized_tag tag.

(** The file name of line 32. *)
Definition filename_of (cp tag : string) : string :=
  key_of cp tag +:+ ".json".

(** Lines 26-32 as a function of the entry alone. *)
Definition destination_key (e : emoji) : result string :=
  match getitem "codepoint" (codepoint e) with
  | Raise x => Raise x
  | Return cp =>
      match getitem "name" (name e) with
      | Raise x => Raise x
      | Return nm => Return (key_of cp (first_tag e nm))
      end
  end.

(** The key in the words of the specification: the first tag (or the name)
    with the prefix character stripped and hyphens replaced.  Read as one
    leading character, or as every leading character. *)
Definition strip_prefix_char (c : ascii) (s : string) : string :=
  match s with
  | String a s' => if Ascii.eqb a c then s' else s
  | EmptyString => EmptyString
  end.

Definition spec_key_one (cp tag : string) : string :=
  cp +:+ "_" +:+ Py.replace "-" "_" (strip_prefix_char ":" tag).

Definition spec_key_all (cp tag : string) : string :=
  cp +:+ "_" +:+ Py.replace "-" "_" (Py.lstrip ":" tag).

(** ** Effects: files, requests, console *)

(** The item summary stored in the category index (lines 124-129). *)
Record summary := Summary {
  s_codepoint : string;
  s_name : string;
  s_tags : list string;
  s_popularity : Z
}.

(** What a file holds: raw bytes, or the JSON encoding of a value. *)
Inductive file_content :=
| FBytes (bytes : list byte)
| FMetadata (emojis : list emoji)
| FCategories (index : list (string * list summary)).

(** The second component of the tuple that [download_one] returns. *)
Inductive message :=
| MName (nm : string)
| MSize (tag : string) (size_kb : Q)
| MHttp (nm : string) (status : Z)
| MExn (nm : string) (e : exn).

(** The lines the script prints. *)
Inductive line :=
| LFetching
| LCatalogFailed (status : Z)
| LFound (total : nat)
| LOutput (dir : string)
| LSavedMetadata
| LProgress (downloaded : Z) (total : nat) (msg : message)
| LFail (msg : message)
| LRule
| LDownloaded (n : Z)
| LSkipped (n : Z)
| LFailed (n : Z)
| LTotalSize (mb : Q)
| LLocation (dir : string)
| LSavedIndex (n : nat)
| LCategory (cat : string) (n : nat).

Inductive event :=
| EvMakedirs (path : string)
| EvGet (url : string) (timeout : option Z)
| EvWrite (path : string) (content : file_content)
| EvPrint (l : line).

(** What [requests.get] yields: a response with a status, or an exception
    (connection failure, timeout). *)
Record response := Response { status_code : Z; content : list byte }.

Inductive reply :=
| Replied (r : response)
| Fault (what : string).

(** The collaborators.  The oracles see the history of the run, so the same
    URL may answer differently on a second request. *)
Record world := World {
  script_root : string;
  http_get : list event -> string -> reply;
  json_icons : list byte -> result (list emoji);
  fs_allows : list event -> string -> bool
}.

Record state := State {
  files : gmap string file_content;
  trace : list event
}.

Definition log (ev : event) (st : state) : state :=
  State (files st) (trace st ++ [ev]).

(** ** The monad of effectful Python code *)

Definition M (A : Type) : Type := state -> result A * state.

Definition ret {A} (a : A) : M A := fun st => (Return a, st).

Definition bind {A B} (m : M A) (k : A -> M B) : M B := fun st =>
  match m st with
  | (Return a, st') => k a st'
  | (Raise e, st') => (Raise e, st')
  end.

Definition lift {A} (r : result A) : M A := fun st => (r, st).

(** [try: body except Exception as e: handler] *)
Definition try_except {A} (body : M A) (handler : exn -> M A) : M A := fun st =>
  match body st with
  | (Return a, st') => (Return a, st')
  | (Raise e, st') => handler e st'
  end.

(** The exception of a call is kept as a value, as a future does. *)
Definition capture {A} (m : M A) : M (result A) := fun st =>
  let (r, st') := m st in (Return r, st').

Declare Scope py_scope.
Delimit Scope py_scope with py.
Notation "x <- c ;; k" := (bind c (fun x => k))
  (at level 100, c at next level, right associativity) : py_scope.
Notation "c ;; k" := (bind c (fun _ => k))
  (at level 100, right associativity) : py_scope.
Open Scope py_scope.

Section Script.

Variable W : world.

Definition print (l : line) : M unit := fun st => (Return tt, log (EvPrint l) st).

(** [requests.get(url, timeout=...)]: the request is issued, then the
    transport answers or raises. *)
Definition requests_get (url : string) (timeout : option Z) : M response := fun st =>
  match http_get W (trace st) url with
  | Replied r => (Return r, log (EvGet url timeout) st)
  | Fault what => (Raise (RequestException what), log (EvGet url timeout) st)
  end.

(** [os.path.exists(path)] *)
Definition path_exists (path : string) : M bool := fun st =>
  (Return (bool_decide (is_Some (files st !! path))), st).

(** [with open(path, mode) as f: f.write(...)] or [json.dump(..., f)]; a
    refused write raises and leaves the files as they were (a file that is
    created and then only partly written is outside the model). *)
Definition write_file (path : string) (c : file_content) : M unit := fun st =>
  if fs_allows W (trace st) path
  then (Return tt, State (<[path := c]> (files st)) (trace st ++ [EvWrite path c]))
  else (Raise (OSError path), st).

(** [os.makedirs(path, exist_ok=True)] *)
Definition makedirs (path : string) : M unit := fun st =>
  if fs_allows W (trace st) path
  then (Return tt, log (EvMakedirs path) st)
  else (Raise (OSError path), st).

(** ** Constants (lines 14-21) *)

Definition OUTPUT_DIR : string :=
  Py.path_join (Py.path_join (Py.path_join (script_root W) "assets") "reactions") "noto".

Definition DATA_URL : string :=
  "https://googlefonts.github.io/noto-emoji-animation/data/api.json".

Definition BASE_URL : string := "https://fonts.gstatic.com/s/e/notoemoji/latest".

(** ** [download_one] (lines 24-60) *)

Definition outcome : Type := string * message * Q.

(** [len(content) / 1024] *)
Definition size_kb_of (c : list byte) : Q :=
  (inject_Z (Z.of_nat (length c)) / 1024)%Q.

Definition primary_url (cp : string) : string :=
  BASE_URL +:+ "/" +:+ cp +:+ "/lottie.json".

Definition fallback_url (cp : string) : string :=
  BASE_URL +:+ "/" +:+ Py.replace " " "_" cp +:+ "/lottie.json".

Definition filepath_of (cp tag : string) : string :=
  Py.path_join OUTPUT_DIR (filename_of cp tag).

Definition download_one (e : emoji) (index total : nat) : M outcome :=
  cp <- lift (getitem "codepoint" (codepoint e)) ;;
  nm <- lift (getitem "name" (name e)) ;;
  let tag := first_tag e nm in
  let filepath := filepath_of cp tag in
  present <- path_exists filepath ;;
  if present then ret ("skipped", MName nm, 0%Q)
  else
    try_except
      (r <- requests_get (primary_url cp) (Some 20%Z) ;;
       if (status_code r =? 200)%Z then
         write_file filepath (FBytes (content r)) ;;
         let size_kb := size_kb_of (content r) in
         ret ("ok", MSize tag size_kb, size_kb)
       else
         r2 <- requests_get (fallback_url cp) (Some 20%Z) ;;
         if (status_code r2 =? 200)%Z then
           write_file filepath (FBytes (content r2)) ;;
           let size_kb := size_kb_of (content r2) in
           ret ("ok", MSize tag size_kb, size_kb)
         else ret ("failed", MHttp nm (status_code r), 0%Q))
      (fun ex => ret ("error", MExn nm ex, 0%Q)).

(** ** The category index (lines 119-129) *)

(** A Python [dict] keeps its keys in insertion order, and [json.dump]
    writes them in that order: an association list with unique keys. *)
Definition dict : Type := list (string * list summary).

(** [if cat not in categories: categories[cat] = []] followed by
    [categories[cat].append(s)]. *)
Fixpoint dict_append (cat : string) (s : summary) (d : dict) : dict :=
  match d with
  | [] => [(cat, [s])]
  | (k, v) :: d' =>
      if String.eqb k cat then (k, v ++ [s]) :: d'
      else (k, v) :: dict_append cat s d'
  end.

(** [categories[cat]] when the key is present. *)
Fixpoint dict_get (cat : string) (d : dict) : option (list summary) :=
  match d with
  | [] => None
  | (k, v) :: d' => if String.eqb k cat then Some v else dict_get cat d'
  end.

(** [emoji.get("categories", ["Other"])] *)
Definition categories_of (e : emoji) : list string :=
  match categories e with
  | Some cs => cs
  | None => ["Other"]
  end.

(** The dict literal of lines 124-129. *)
Definition summary_of (e : emoji) : result summary :=
  match getitem "codepoint" (codepoint e) with
  | Raise x => Raise x
  | Return cp =>
      match getitem "name" (name e) with
      | Raise x => Raise x
      | Return nm =>
          Return (Summary cp nm
                    (match tags e with Some ts => ts | None => [] end)
                    (match popularity e with Some p => p | None => 0%Z end))
      end
  end.

(** The inner loop, over the categories of one entry. *)
Fixpoint add_to_categories (e : emoji) (cats : list string) (d : dict) : result dict :=
  match cats with
  | [] => Return d
  | cat :: rest =>
      match summary_of e with
      | Raise x => Raise x
      | Return s => add_to_categories e rest (dict_append cat s d)
      end
  end.

(** The outer loop, over the catalog. *)
Fixpoint build_categories (emojis : list emoji) (d : dict) : result dict :=
  match emojis with
  | [] => Return d
  | e :: rest =>
      match add_to_categories e (categories_of e) d with
      | Raise x => Raise x
      | Return d' => build_categories rest d'
      end
  end.

(** [sorted(categories.items())]: keys are unique, so the order of the
    pairs is the order of their keys; strings compare by code point. *)
Fixpoint insert_sorted (p : string * list summary) (l : dict) : dict :=
  match l with
  | [] => [p]
  | q :: l' => if String.leb (fst p) (fst q) then p :: l else q :: insert_sorted p l'
  end.

Fixpoint sorted_items (d : dict) : dict :=
  match d with
  | [] => []
  | p :: d' => insert_sorted p (sorted_items d')
  end.

(** ** [download_all] (lines 63-136) *)

Record counters := Counters {
  downloaded : Z;
  skipped : Z;
  failed : Z;
  total_size : Q
}.

(** The worker pool: the calls of [download_one] run one after the other in
    the order of [schedule] (indices into the catalog), which is also the
    order in which [as_completed] yields them.  An exception of a call stays
    in its future. *)
Fixpoint run_pool (schedule : list nat) (emojis : list emoji) (total : nat)
  : M (list (result outcome)) :=
  match schedule with
  | [] => ret []
  | i :: rest =>
      match emojis !! i with
      | None => run_pool rest emojis total
      | Some e =>
          r <- capture (download_one e i total) ;;
          rs <- run_pool rest emojis total ;;
          ret (r :: rs)
      end
  end.

(** The body of the [as_completed] loop (lines 98-109). *)
Definition account (total : nat) (c : counters) (o : outcome) : M counters :=
  let '(status, msg, size) := o in
  if String.eqb status "ok" then
    let d := (downloaded c + 1)%Z in
    let ts := (total_size c + size)%Q in
    (if ((d mod 25 =? 0) || (d <=? 5))%Z then print (LProgress d total msg) else ret tt) ;;
    ret (Counters d (skipped c) (failed c) ts)
  else if String.eqb status "skipped" then
    ret (Counters (downloaded c) (skipped c + 1)%Z (failed c) (total_size c))
  else
    let f := (failed c + 1)%Z in
    (if (f <=? 10)%Z then print (LFail msg) else ret tt) ;;
    ret (Counters (downloaded c) (skipped c) f (total_size c)).

(** The [as_completed] loop: [future.result()] re-raises. *)
Fixpoint collect (total : nat) (c : counters) (rs : list (result outcome)) : M counters :=
  match rs with
  | [] => ret c
  | r :: rest =>
      o <- lift r ;;
      c' <- account total c o ;;
      collect total c' rest
  end.

Fixpoint print_categories (items : dict) : M unit :=
  match items with
  | [] => ret tt
  | (cat, its) :: rest => print (LCategory cat (length its)) ;; print_categories rest
  end.

Definition meta_path : string := Py.path_join OUTPUT_DIR "_metadata.json".

Definition cat_path : string := Py.path_join OUTPUT_DIR "_categories.json".

Definition download_all (schedule : list nat) : M unit :=
  makedirs OUTPUT_DIR ;;
  print LFetching ;;
  response <- requests_get DATA_URL None ;;
  if negb (status_code response =? 200)%Z then
    print (LCatalogFailed (status_code response))
  else
    emojis <- lift (json_icons W (content response)) ;;
    let total := length emojis in
    print (LFound total) ;;
    print (LOutput OUTPUT_DIR) ;;
    write_file meta_path (FMetadata emojis) ;;
    print LSavedMetadata ;;
    results <- run_pool schedule emojis total ;;
    c <- collect total (Counters 0 0 0 0) results ;;
    print LRule ;;
    print (LDownloaded (downloaded c)) ;;
    print (LSkipped (skipped c)) ;;
    print (LFailed (failed c)) ;;
    print (LTotalSize (total_size c / 1024)%Q) ;;
    print (LLocation OUTPUT_DIR) ;;
    cats <- lift (build_categories emojis []) ;;
    write_file cat_path (FCategories cats) ;;
    print (LSavedIndex (length cats)) ;;
    print_categories (sorted_items cats).

(** The initial state of a run: the files on disk and an empty history. *)
Definition start (fs : gmap string file_content) : state := State fs [].

End Script.

(** The exit status of [python download_noto_emoji.py]: 0 when
    [download_all()] returns, 1 when an exception escapes it. *)
Definition exit_status {A} (r : result A) : Z :=
  match r with
  | Return _ => 0
  | Raise _ => 1
  end.

(** * Vocabulary of the statements *)

(** The states [download_one] passes through. *)
Definition requested (url : string) (st : state) : state :=
  log (EvGet url (Some 20%Z)) st.

Definition written (path : string) (c : file_content) (st : state) : state :=
  State (<[path := c]> (files st)) (trace st ++ [EvWrite path c]).

(** What an attempt does with a successful response [r], from state [st]. *)
Definition stored (W : world) (nm tag path : string) (r : response) (st : state)
  : result outcome * state :=
  if fs_allows W (trace st) path
  then (Return ("ok", MSize tag (size_kb_of (content r)), size_kb_of (content r)),
        written path (FBytes (content r)) st)
  else (Return ("error", MExn nm (OSError path), 0%Q), st).

(** The URLs requested by a list of events, in order. *)
Definition requests_of (evs : list event) : list string :=
  omap (fun ev => match ev with EvGet url _ => Some url | _ => None end) evs.

(** A request of [download_one]: the only requests with a timeout. *)
Definition is_download_request (ev : event) : bool :=
  match ev with
  | EvGet _ (Some _) => true
  | _ => false
  end.

(** An entry with the two keys that the script reads with [emoji[...]]. *)
Definition has_required_keys (e : emoji) : Prop :=
  is_Some (codepoint e) /\ is_Some (name e).

(** The entries of the catalog in the order in which the pool runs them. *)
Definition scheduled (schedule : list nat) (emojis : list emoji) : list emoji :=
  omap (fun i => emojis !! i) schedule.

(** Counting outcomes the way the loop of lines 96-109 tells them apart. *)
Fixpoint count_ok (outs : list outcome) : Z :=
  match outs with
  | [] => 0
  | (status, _, _) :: rest =>
      if String.eqb status "ok" then 1 + count_ok rest else count_ok rest
  end.

Fixpoint count_skipped (outs : list outcome) : Z :=
  match outs with
  | [] => 0
  | (status, _, _) :: rest =>
      if String.eqb status "ok" then count_skipped rest
      else if String.eqb status "skipped" then 1 + count_skipped rest
      else count_skipped rest
  end.

Fixpoint count_failed (outs : list outcome) : Z :=
  match outs with
  | [] => 0
  | (status, _, _) :: rest =>
      if String.eqb status "ok" then count_failed rest
      else if String.eqb status "skipped" then count_failed rest
      else 1 + count_failed rest
  end.

(** The sum of the sizes of the [ok] outcomes. *)
Fixpoint sum_ok_sizes (outs : list outcome) : Q :=
  match outs with
  | [] => 0
  | (status, _, size) :: rest =>
      if String.eqb status "ok" then size + sum_ok_sizes rest else sum_ok_sizes rest
  end.

(** The counters agree with a list of outcomes. *)
Definition tallies (c : counters) (outs : list outcome) : Prop :=
  downloaded c = count_ok outs /\
  skipped c = count_skipped outs /\
  failed c = count_failed outs /\
  (total_size c == sum_ok_sizes outs)%Q.

(** The sequence stored under a category, empty when the key is absent. *)
Definition entries (cat : string) (d : dict) : list summary :=
  match dict_get cat d with
  | Some v => v
  | None => []
  end.

(** The keys of a dict, in its order. *)
Definition keys (d : dict) : list string := map fst d.

(** The elements of [l] that are not in [seen], each at its first place. *)
Fixpoint first_occurrences (seen l : list string) : list string :=
  match l with
  | [] => []
  | x :: l' =>
      if bool_decide (x ∈ seen) then first_occurrences seen l'
      else x :: first_occurrences (seen ++ [x]) l'
  end.

(** What one entry adds under [cat]: its summary, once for each time [cat]
    is listed in its categories. *)
Fixpoint placed (cat : string) (s : summary) (cats : list string) : list summary :=
  match cats with
  | [] => []
  | c :: rest => if String.eqb c cat then s :: placed cat s rest else placed cat s rest
  end.

Definition entries_of_item (cat : string) (e : emoji) : list summary :=
  match summary_of e with
  | Return s => placed cat s (categories_of e)
  | Raise _ => []
  end.

Definition index_entries (cat : string) (emojis : list emoji) : list summary :=
  flat_map (entries_of_item cat) emojis.

(** A sequence under a key after [items] were appended to it. *)
Definition extended (o : option (list summary)) (items : list summary)
  : option (list summary) :=
  match items with
  | [] => o
  | _ => Some (match o with Some v => v | None => [] end ++ items)
  end.

(** Sorted by name: of two names, the smaller one comes first. *)
Definition name_sorted (names : list string) : Prop :=
  forall i j a b, names !! i = Some a -> names !! j = Some b ->
                  String.ltb a b = true -> i < j.

(** The order of [sorted] on the pairs of a dict. *)
Definition key_le (p q : string * list summary) : Prop :=
  String.leb (fst p) (fst q) = true.

(** The history of a run when the catalog request is made. *)
Definition catalog_history (W : world) : list event :=
  [EvMakedirs (OUTPUT_DIR W); EvPrint LFetching].

(** The catalog fetch succeeds: status 200, and a body whose ["icons"] are
    [emojis]. *)
Definition catalog_served (W : world) (emojis : list emoji) : Prop :=
  exists r, http_get W (catalog_history W) DATA_URL = Replied r /\
            status_code r = 200%Z /\
            json_icons W (content r) = Return emojis.

(** The output directory can be made and the two index files written. *)
Definition index_files_writable (W : world) : Prop :=
  fs_allows W [] (OUTPUT_DIR W) = true /\
  (forall h, fs_allows W h (meta_path W) = true) /\
  (forall h, fs_allows W h (cat_path W) = true).

(** The summary block of lines 111-116. *)
Definition summary_events (W : world) (c : counters) : list event :=
  [EvPrint LRule; EvPrint (LDownloaded (downloaded c)); EvPrint (LSkipped (skipped c));
   EvPrint (LFailed (failed c)); EvPrint (LTotalSize (total_size c / 1024)%Q);
   EvPrint (LLocation (OUTPUT_DIR W))].

(** The per-category lines of lines 135-136. *)
Definition category_events (items : dict) : list event :=
  map (fun p => EvPrint (LCategory (fst p) (length (snd p)))) items.

(** A computation only ever appends to the history. *)
Definition appends {A} (m : M A) : Prop :=
  forall st, exists evs, trace (snd (m st)) = trace st ++ evs.

(** [download_all] from line 82 on, once the snapshot is written. *)
Definition after_snapshot (W : world) (schedule : list nat) (emojis : list emoji)
  : M unit :=
  let total := length emojis in
  print LSavedMetadata ;;
  results <- run_pool W schedule emojis total ;;
  c <- collect total (Counters 0 0 0 0) results ;;
  print LRule ;;
  print (LDownloaded (downloaded c)) ;;
  print (LSkipped (skipped c)) ;;
  print (LFailed (failed c)) ;;
  print (LTotalSize (total_size c / 1024)%Q) ;;
  print (LLocation (OUTPUT_DIR W)) ;;
  cats <- lift (build_categories emojis []) ;;
  write_file W (cat_path W) (FCategories cats) ;;
  print (LSavedIndex (length cats)) ;;
  print_categories (sorted_items cats).

(** The events of a run before the metadata snapshot. *)
Definition catalog_events (W : world) (emojis : list emoji) : list event :=
  [EvMakedirs (OUTPUT_DIR W); EvPrint LFetching; EvGet DATA_URL None;
   EvPrint (LFound (length emojis)); EvPrint (LOutput (OUTPUT_DIR W))].

(** ** Sample data for the examples *)

Definition demo_artist : emoji :=
  Emoji (Some "1f9d1 200d 1f3a8") (Some "artist") (Some [":artist:"])
        (Some ["People"]) (Some 5%Z).

Definition demo_smile : emoji :=
  Emoji (Some "1f600") (Some "grinning face") (Some [":smile:"; ":grinning-face:"])
        (Some ["Faces"; "People"]) None.

Definition demo_clock : emoji :=
  Emoji (Some "23f0") (Some "alarm-clock") None None None.

Definition demo_blank : emoji :=
  Emoji (Some "2b1c") (Some "white square") (Some []) (Some []) None.

Definition demo_catalog : list emoji :=
  [demo_artist; demo_smile; demo_clock; demo_blank].

Definition PAYLOAD : list byte := list_byte_of_string "PAYLOAD".

(** A transport that serves the catalog, answers 404 to the primary URL of
    the artist, times out on the clock, answers 500 for the square and
    serves [PAYLOAD] everywhere else; every write is accepted. *)
Definition demo_world : world :=
  World "/repo"
    (fun _ url =>
       if String.eqb url DATA_URL then Replied (Response 200 [])
       else if String.eqb url (primary_url "1f9d1 200d 1f3a8") then Replied (Response 404 [])
       else if String.eqb url (primary_url "23f0") then Fault "timed out"
       else if String.eqb url (primary_url "2b1c") then Replied (Response 500 [])
       else Replied (Response 200 PAYLOAD))
    (fun _ => Return demo_catalog)
    (fun _ _ => true).

(** A transport whose every answer is 503. *)
Definition down_world : world :=
  World "/repo"
    (fun _ _ => Replied (Response 503 []))
    (fun _ => Raise JSONDecodeError)
    (fun _ _ => true).

(** A transport that cannot be reached. *)
Definition offline_world : world :=
  World "/repo"
    (fun _ _ => Fault "connection refused")
    (fun _ => Raise JSONDecodeError)
    (fun _ _ => true).

(** A catalog with an entry that has no name. *)
Definition nameless_world : world :=
  World "/repo"
    (fun _ _ => Replied (Response 200 []))
    (fun _ => Return [Emoji (Some "1f600") None None None None])
    (fun _ _ => true).

(** A file system that accepts the output directory and nothing else. *)
Definition readonly_world : world :=
  World "/repo"
    (fun _ _ => Replied (Response 200 []))
    (fun _ => Return demo_catalog)
    (fun _ path => String.eqb path "/repo/assets/reactions/noto").

(** The output directory as a first run over the sample catalog leaves it. *)
Definition demo_files_after_run : gmap string file_content :=
  files (snd (download_all demo_world [0; 1; 2; 3] (start ∅))).

(** ** Vocabulary of the further properties *)

(** [c in s] for a one-character [c]. *)
Fixpoint contains (c : ascii) (s : string) : bool :=
  match s with
  | EmptyString => false
  | String a s' => (Ascii.eqb a c || contains c s')%bool
  end.

(** The state after the requests [urls] of [download_one], in order. *)
Fixpoint request_all (urls : list string) (st : state) : state :=
  match urls with
  | [] => st
  | u :: rest => request_all rest (requested u st)
  end.

(** The state after the write of a body, when there is one. *)
Definition finish (path : string) (body : option (list byte)) (st : state) : state :=
  match body with
  | Some b => written path (FBytes b) st
  | None => st
  end.

Definition status_of (o : outcome) : string := fst (fst o).

Definition size_of (o : outcome) : Q := snd o.

(** The events a call of [download_one] can add: a request with the timeout
    of 20, or the write of a body. *)
Definition is_pool_event (ev : event) : bool :=
  match ev with
  | EvGet _ (Some t) => (t =? 20)%Z
  | EvWrite _ (FBytes _) => true
  | _ => false
  end.

(** The number of bytes of the bodies written by a list of events. *)
Fixpoint bytes_written (evs : list event) : Z :=
  match evs with
  | [] => 0
  | EvWrite _ (FBytes b) :: rest => Z.of_nat (length b) + bytes_written rest
  | _ :: rest => bytes_written rest
  end.

(** The outcomes held by the futures that did not raise. *)
Definition returned (rs : list (result outcome)) : list outcome :=
  omap (fun r => match r with Return o => Some o | Raise _ => None end) rs.

(** The first exception held by a list of futures. *)
Fixpoint first_raised (rs : list (result outcome)) : option exn :=
  match rs with
  | [] => None
  | Return _ :: rest => first_raised rest
  | Raise x :: _ => Some x
  end.

(** The size that an outcome adds to the total: its size when it is [ok]. *)
Definition ok_size (o : outcome) : Q :=
  if String.eqb (status_of o) "ok" then size_of o else 0%Q.

(** The events a run can add. *)
Definition is_run_event (W : world) (ev : event) : bool :=
  match ev with
  | EvMakedirs p => String.eqb p (OUTPUT_DIR W)
  | EvGet u None => String.eqb u DATA_URL
  | EvGet _ (Some t) => (t =? 20)%Z
  | EvWrite _ (FBytes _) => true
  | EvWrite p (FMetadata _) => String.eqb p (meta_path W)
  | EvWrite p (FCategories _) => String.eqb p (cat_path W)
  | EvPrint _ => true
  end.

(** A computation that adds only events of a run, at most [n] requests among
    them, and keeps every existing file whose path is not in [S]. *)
Definition behaves (W : world) (n : nat) (S : list string) {A} (m : M A) : Prop :=
  forall st, exists evs,
    trace (snd (m st)) = trace st ++ evs /\
    Forall (fun ev => is_run_event W ev = true) evs /\
    length (requests_of evs) <= n /\
    forall p c, p ∉ S -> files st !! p = Some c -> files (snd (m st)) !! p = Some c.

(** The [FAIL] lines and the progress lines among a list of events. *)
Fixpoint count_fail_lines (evs : list event) : Z :=
  match evs with
  | [] => 0
  | EvPrint (LFail _) :: rest => 1 + count_fail_lines rest
  | _ :: rest => count_fail_lines rest
  end.

Fixpoint count_progress_lines (evs : list event) : Z :=
  match evs with
  | [] => 0
  | EvPrint (LProgress _ _ _) :: rest => 1 + count_progress_lines rest
  | _ :: rest => count_progress_lines rest
  end.

(** The lines of the loop of lines 96-109. *)
Definition is_report_line (ev : event) : bool :=
  match ev with
  | EvPrint (LProgress _ _ _) => true
  | EvPrint (LFail _) => true
  | _ => false
  end.

(** The number of progress lines after [d] downloads: the first five, then
    every 25th. *)
Definition progress_lines_after (d : Z) : Z := (Z.min 5 d + d / 25)%Z.

(** A write to the file system. *)
Definition is_write (ev : event) : bool :=
  match ev with
  | EvWrite _ _ => true
  | _ => false
  end.

(** The destination file of an entry is in [fs]. *)
Definition stored_in (W : world) (fs : gmap string file_content) (e : emoji) : Prop :=
  exists cp nm,
    codepoint e = Some cp /\ name e = Some nm /\
    is_Some (fs !! filepath_of W cp (first_tag e nm)).

(** The outcome of a call on an entry whose file is there. *)
Definition skipped_outcome (e : emoji) : outcome :=
  ("skipped", MName (match name e with Some nm => nm | None => "" end), 0%Q).

(** The number of summaries in an index, over all its categories. *)
Fixpoint total_entries (d : dict) : nat :=
  match d with
  | [] => 0
  | (_, v) :: d' => length v + total_entries d'
  end.

(** ** Further sample data *)

(** A directory that holds a file of the user. *)
Definition demo_notes : gmap string file_content :=
  {[ "/repo/assets/reactions/noto/notes.txt" := FBytes [] ]}.

(** A catalog of the two entries that the sample run stored, behind a
    transport that serves the catalog and nothing else. *)
Definition demo_pair : list emoji := [demo_artist; demo_smile].

Definition rerun_world : world :=
  World "/repo"
    (fun _ url =>
       if String.eqb url DATA_URL then Replied (Response 200 [])
       else Fault "connection refused")
    (fun _ => Return demo_pair)
    (fun _ _ => true).

(** A transport that serves the sample catalog and refuses every download
    with 404. *)
Definition refusing_world : world :=
  World "/srv"
    (fun _ url =>
       if String.eqb url DATA_URL then Replied (Response 200 [])
       else Replied (Response 404 []))
    (fun _ => Return demo_catalog)
    (fun _ _ => true).

(** The index of the sample catalog. *)
Definition demo_index : dict :=
  match build_categories demo_catalog [] with
  | Return d => d
  | Raise _ => []
  end.

(** ** Sample transports and disks that fail *)

(** A transport that answers the first request with 404 and times out on
    every later one. *)
Definition flaky_world : world :=
  World "/repo"
    (fun h _ =>
       match h with
       | [] => Replied (Response 404 [])
       | _ => Fault "timed out"
       end)
    (fun _ => Return demo_catalog)
    (fun _ _ => true).

(** A full disk: the transport answers 404 to the primary URL of the artist
    and serves [PAYLOAD] everywhere else, and every write is refused. *)
Definition full_disk_world : world :=
  World "/repo"
    (fun _ url =>
       if String.eqb url (primary_url "1f9d1 200d 1f3a8") then Replied (Response 404 [])
       else Replied (Response 200 PAYLOAD))
    (fun _ => Return demo_catalog)
    (fun _ _ => false).

(** ** The summary of a run *)

(** The state in which the pool starts: the catalog is fetched, the snapshot
    written and its line printed (line 82). *)
Definition pool_start (W : world) (fs : gmap string file_content) (emojis : list emoji)
  : state :=
  log (EvPrint LSavedMetadata)
    (written (meta_path W) (FMetadata emojis) (State fs (catalog_events W emojis))).

(** The four figures of the summary (lines 112-115). *)
Definition is_summary_line (ev : event) : bool :=
  match ev with
  | EvPrint (LDownloaded _) => true
  | EvPrint (LSkipped _) => true
  | EvPrint (LFailed _) => true
  | EvPrint (LTotalSize _) => true
  | _ => false
  end.

(** What a history reports: its summary figures, in the order printed. *)
Definition reported (tr : list event) : list event := List.filter is_summary_line tr.

(** [download_all] from line 96 on, once the pool has run: the counting
    loop, the summary and the category index. *)
Definition after_pool (W : world) (emojis : list emoji)
    (results : list (result outcome)) : M unit :=
  c <- collect (length emojis) (Counters 0 0 0 0) results ;;
  print LRule ;;
  print (LDownloaded (downloaded c)) ;;
  print (LSkipped (skipped c)) ;;
  print (LFailed (failed c)) ;;
  print (LTotalSize (total_size c / 1024)%Q) ;;
  print (LLocation (OUTPUT_DIR W)) ;;
  cats <- lift (build_categories emojis []) ;;
  write_file W (cat_path W) (FCategories cats) ;;
  print (LSavedIndex (length cats)) ;;
  print_categories (sorted_items cats).

(** A disk on which nothing can be created, not even the output directory,
    behind a transport that would serve the catalog. *)
Definition locked_world : world :=
  World "/repo"
    (fun _ _ => Replied (Response 200 PAYLOAD))
    (fun _ => Return demo_catalog)
    (fun _ _ => false).

(** A transport that answers 200 with a body that is not JSON. *)
Definition garbled_world : world :=
  World "/repo"
    (fun _ _ => Replied (Response 200 PAYLOAD))
    (fun _ => Raise JSONDecodeError)
    (fun _ _ => true).

(** The key whose lookup raises in [download_one] (lines 26-27): the
    codepoint is read first. *)
Definition missing_key (e : emoji) : string :=
  match codepoint e with
  | None => "codepoint"
  | Some _ => "name"
  end.

(** A catalog with an entry without a name between two sound entries,
    served by the transport of the sample world. *)
Definition demo_nameless : emoji := Emoji (Some "1f4a9") None None None None.

Definition demo_broken : list emoji := [demo_smile; demo_nameless; demo_artist].

Definition broken_world : world :=
  World "/repo" (http_get demo_world) (fun _ => Return demo_broken) (fun _ _ => true).

(** * Properties *)

(** ** Strings *)

Module PyFacts.
Import Py.

Lemma all_char_app c s t :
  all_char c (s +:+ t) = (all_char c s && all_char c t)%bool.
Proof.
  induction s as [|a s IH]; simpl; [reflexivity|].
  rewrite IH. now rewrite andb_assoc.
Qed.

Lemma lstrip_all c s : all_char c s = true -> lstrip c s = "".
Proof.
  induction s as [|a s IH]; simpl; [reflexivity|].
  intros [Ha Hs]%andb_true_iff. rewrite Ha. auto.
Qed.

Lemma rstrip_all c s : all_char c s = true -> rstrip c s = "".
Proof.
  induction s as [|a s IH]; simpl; [reflexivity|].
  intros [Ha Hs]%andb_true_iff. rewrite (IH Hs). now rewrite Ha.
Qed.

Lemma lstrip_app c l m :
  all_char c l = true -> lstrip c (l +:+ m) = lstrip c m.
Proof.
  induction l as [|a l IH]; simpl; [reflexivity|].
  intros [Ha Hl]%andb_true_iff. rewrite Ha. auto.
Qed.

Lemma lstrip_fixed c m : startswith c m = false -> lstrip c m = m.
Proof. destruct m as [|a m]; simpl; [reflexivity|]. now intros ->. Qed.

Lemma rstrip_cons c a s :
  rstrip c (String a s) =
  match rstrip c s with
  | EmptyString => if Ascii.eqb a c then EmptyString else String a EmptyString
  | u => String a u
  end.
Proof. reflexivity. Qed.

Lemma append_cons a s r : String a s +:+ r = String a (s +:+ r).
Proof. reflexivity. Qed.

Lemma rstrip_app c m r :
  all_char c r = true -> endswith c m = false -> rstrip c (m +:+ r) = m.
Proof.
  intros Hr. induction m as [|a m IH].
  - intros _. now apply rstrip_all.
  - rewrite append_cons, rstrip_cons. destruct m as [|b m].
    + intros Ha. change ("" +:+ r) with r. rewrite (rstrip_all c r Hr).
      cbn in Ha. now rewrite Ha.
    + intros Hm. change (endswith c (String b m) = false) in Hm.
      rewrite (IH Hm). reflexivity.
Qed.

(** What [strip] computes: the middle of the string, between the leading
    and the trailing run of [c]. *)
Lemma strip_middle c l m r :
  all_char c l = true -> all_char c r = true ->
  startswith c m = false -> endswith c m = false ->
  strip c (l +:+ m +:+ r) = m.
Proof.
  intros Hl Hr Hs He. unfold strip. rewrite (lstrip_app c l _ Hl).
  destruct m as [|a m].
  - change ("" +:+ r) with r. rewrite (lstrip_all c r Hr). reflexivity.
  - rewrite lstrip_fixed by exact Hs. now apply rstrip_app.
Qed.

Lemma lstrip_suffix c s : exists l, all_char c l = true /\ s = l +:+ lstrip c s.
Proof.
  induction s as [|a s [l [Hl Hs]]]; simpl.
  - now exists "".
  - destruct (Ascii.eqb a c) eqn:E.
    + exists (String a l). simpl. rewrite E, Hl. split; [reflexivity|].
      rewrite append_cons. congruence.
    + now exists "".
Qed.

Lemma rstrip_prefix c s : exists r, all_char c r = true /\ s = rstrip c s +:+ r.
Proof.
  induction s as [|a s [r [Hr Hs]]]; simpl.
  - now exists "".
  - destruct (rstrip c s) as [|b u] eqn:E.
    + change ("" +:+ r) with r in Hs. destruct (Ascii.eqb a c) eqn:Ea.
      * exists (String a r). simpl. rewrite Ea, Hr. split; [reflexivity|].
        change ("" +:+ String a r) with (String a r). congruence.
      * exists r. split; [exact Hr|]. rewrite append_cons.
        change ("" +:+ r) with r. congruence.
    + exists r. split; [exact Hr|]. rewrite append_cons. congruence.
Qed.

Lemma lstrip_startswith c s : startswith c (lstrip c s) = false.
Proof.
  induction s as [|a s IH]; simpl; [reflexivity|].
  destruct (Ascii.eqb a c) eqn:E; [exact IH|]. simpl. exact E.
Qed.

Lemma rstrip_endswith c s : endswith c (rstrip c s) = false.
Proof.
  induction s as [|a s IH]; simpl; [reflexivity|].
  destruct (rstrip c s) as [|b u] eqn:E.
  - destruct (Ascii.eqb a c) eqn:Ea; simpl; [reflexivity|exact Ea].
  - exact IH.
Qed.

Lemma rstrip_startswith c s : startswith c s = false -> startswith c (rstrip c s) = false.
Proof.
  destruct s as [|a s]; simpl; [reflexivity|].
  intros Ha. destruct (rstrip c s); [rewrite Ha|]; simpl; auto.
Qed.

(** Every string splits that way, so [strip_middle] covers every input. *)
Lemma strip_split c s :
  exists l r, all_char c l = true /\ all_char c r = true /\
    s = l +:+ strip c s +:+ r /\
    startswith c (strip c s) = false /\ endswith c (strip c s) = false.
Proof.
  destruct (lstrip_suffix c s) as [l [Hl Hs]].
  destruct (rstrip_prefix c (lstrip c s)) as [r [Hr Hm]].
  exists l, r. unfold strip. repeat split; auto.
  - now rewrite <- Hm.
  - apply rstrip_startswith, lstrip_startswith.
  - apply rstrip_endswith.
Qed.

Lemma replace_length old new s : String.length (replace old new s) = String.length s.
Proof. induction s; simpl; congruence. Qed.

(** No [old] is left after [replace old new] when the two differ. *)
Lemma replace_get old new s i a :
  String.get i s = Some a ->
  String.get i (replace old new s) = Some (if Ascii.eqb a old then new else a).
Proof.
  revert i. induction s as [|b s IH]; intros i; simpl; [discriminate|].
  destruct i; [intros [= ->]; reflexivity | apply IH].
Qed.

End PyFacts.

(** ** One download *)

Section DownloadOne.

Variable W : world.

(** [download_one] on an entry that has its two required keys, branch by
    branch. *)
Lemma download_one_unfold e index total st cp nm :
  codepoint e = Some cp -> name e = Some nm ->
  download_one W e index total st =
  let tag := first_tag e nm in
  let path := filepath_of W cp tag in
  if bool_decide (is_Some (files st !! path))
  then (Return ("skipped", MName nm, 0%Q), st)
  else
    let st1 := requested (primary_url cp) st in
    match http_get W (trace st) (primary_url cp) with
    | Fault what => (Return ("error", MExn nm (RequestException what), 0%Q), st1)
    | Replied r =>
        if (status_code r =? 200)%Z then stored W nm tag path r st1
        else
          let st2 := requested (fallback_url cp) st1 in
          match http_get W (trace st1) (fallback_url cp) with
          | Fault what => (Return ("error", MExn nm (RequestException what), 0%Q), st2)
          | Replied r2 =>
              if (status_code r2 =? 200)%Z then stored W nm tag path r2 st2
              else (Return ("failed", MHttp nm (status_code r), 0%Q), st2)
          end
    end.
Proof.
  intros Hcp Hnm.
  unfold download_one, bind, lift, path_exists, try_except, requests_get,
    write_file, stored, requested, written, ret.
  rewrite Hcp, Hnm. cbn [getitem].
  destruct (bool_decide _); [reflexivity|].
  destruct (http_get W (trace st) (primary_url cp)) as [r|what]; [|reflexivity].
  destruct (status_code r =? 200)%Z.
  - destruct (fs_allows W _ _); reflexivity.
  - cbn [trace log].
    destruct (http_get W _ (fallback_url cp)) as [r2|what]; [|reflexivity].
    destruct (status_code r2 =? 200)%Z; [|reflexivity].
    destruct (fs_allows W _ _); reflexivity.
Qed.

(** A missing required key escapes as [KeyError], before any effect. *)
Lemma download_one_keyerror e index total st :
  codepoint e = None \/ name e = None ->
  exists k, download_one W e index total st = (Raise (KeyError k), st).
Proof.
  unfold download_one, bind, lift.
  destruct (codepoint e) as [cp|]; [|intros _; now exists "codepoint"].
  destruct (name e) as [nm|]; [intros [|]; discriminate|].
  intros _. now exists "name".
Qed.

Lemma lookup_None_not_present (fs : gmap string file_content) path :
  fs !! path = None -> bool_decide (is_Some (fs !! path)) = false.
Proof. intros ->. apply bool_decide_eq_false. now intros [? ?]. Qed.

Lemma lookup_Some_present (fs : gmap string file_content) path :
  is_Some (fs !! path) -> bool_decide (is_Some (fs !! path)) = true.
Proof. intros H. now apply bool_decide_eq_true. Qed.

(** An entry whose file is there: no effect at all. *)
Lemma download_one_skipped e index total st cp nm :
  codepoint e = Some cp -> name e = Some nm ->
  is_Some (files st !! filepath_of W cp (first_tag e nm)) ->
  download_one W e index total st = (Return ("skipped", MName nm, 0%Q), st).
Proof.
  intros Hcp Hnm Hex. rewrite (download_one_unfold _ _ _ _ cp nm Hcp Hnm).
  cbv zeta. now rewrite lookup_Some_present.
Qed.

Lemma trace_stored nm tag path r st :
  exists evs, trace (snd (stored W nm tag path r st)) = trace st ++ evs /\
              requests_of evs = [].
Proof.
  unfold stored. destruct (fs_allows W _ _); cbn.
  - now exists [EvWrite path (FBytes (content r))].
  - exists []. now rewrite app_nil_r.
Qed.

Lemma status_stored nm tag path r st :
  exists msg size,
    fst (stored W nm tag path r st) = Return ("ok", msg, size) \/
    fst (stored W nm tag path r st) = Return ("error", msg, size).
Proof.
  unfold stored. destruct (fs_allows W _ _); cbn; eauto.
Qed.

Lemma files_stored nm tag path r st p :
  is_Some (files st !! p) -> is_Some (files (snd (stored W nm tag path r st)) !! p).
Proof.
  unfold stored. destruct (fs_allows W _ _); cbn; [|auto].
  intros H. destruct (decide (path = p)) as [->|Hne].
  - rewrite lookup_insert_eq. eauto.
  - now rewrite lookup_insert_ne.
Qed.

End DownloadOne.

Section Outcomes.

Variable W : world.

Ltac traces := cbn [trace requested written log]; rewrite <- ?app_assoc; reflexivity.

(** Claim C5.  For an entry whose destination file is absent, a transport
    fault of the primary request gives the [error] outcome after that single
    request, and the requests issued are the primary one followed by the
    fallback one exactly when the primary answered with a status other than
    200; otherwise the primary request is the only one. *)
Theorem primary_fault_short_circuits e index total st cp nm :
  codepoint e = Some cp -> name e = Some nm ->
  files st !! filepath_of W cp (first_tag e nm) = None ->
  exists o st' evs,
    download_one W e index total st = (Return o, st') /\
    trace st' = trace st ++ evs /\
    (forall what, http_get W (trace st) (primary_url cp) = Fault what ->
       o = ("error", MExn nm (RequestException what), 0%Q) /\
       evs = [EvGet (primary_url cp) (Some 20%Z)]) /\
    (requests_of evs = [primary_url cp; fallback_url cp] <->
       exists r, http_get W (trace st) (primary_url cp) = Replied r /\
                 status_code r <> 200%Z) /\
    (requests_of evs = [primary_url cp; fallback_url cp] \/
     requests_of evs = [primary_url cp]).
Proof.
  intros Hcp Hnm Habs.
  rewrite (download_one_unfold W _ index total st cp nm Hcp Hnm). cbv zeta.
  rewrite (lookup_None_not_present _ _ Habs).
  destruct (http_get W (trace st) (primary_url cp)) as [r|what] eqn:Hp.
  - destruct (status_code r =? 200)%Z eqn:Hs.
    + apply Z.eqb_eq in Hs.
      unfold stored. destruct (fs_allows W _ _);
        eexists _, _, _; (split; [reflexivity|]); (split; [traces|]);
        (split; [discriminate|]); (split; [|right; reflexivity]);
        (split; [discriminate|]); intros [r' [[= <-] Hne]]; contradiction.
    + apply Z.eqb_neq in Hs.
      destruct (http_get W _ (fallback_url cp)) as [r2|what].
      * destruct (status_code r2 =? 200)%Z; [unfold stored; destruct (fs_allows W _ _)|];
          eexists _, _, _; (split; [reflexivity|]); (split; [traces|]);
          (split; [discriminate|]); (split; [|left; reflexivity]);
          (split; [eauto|reflexivity]).
      * eexists _, _, _; (split; [reflexivity|]); (split; [traces|]);
          (split; [discriminate|]); (split; [|left; reflexivity]);
          (split; [eauto|reflexivity]).
  - eexists _, _, [_]; (split; [reflexivity|]); (split; [traces|]).
    split; [intros what' [= <-]; split; reflexivity|].
    split; [|right; reflexivity].
    split; [discriminate|]. intros [r [Hr _]]. discriminate.
Qed.

(** Claim C10.  On an entry that has its identifier and its name,
    [download_one] returns (it never raises) a tuple whose status is one of
    the four tags; a transport fault of the fallback request and a refused
    file write, after the primary or after the fallback response, give the
    [error] tag. *)
Theorem download_one_total e index total st :
  has_required_keys e ->
  exists status msg size st',
    download_one W e index total st = (Return (status, msg, size), st') /\
    In status ["ok"; "skipped"; "failed"; "error"] /\
    (forall cp nm r,
       codepoint e = Some cp -> name e = Some nm ->
       files st !! filepath_of W cp (first_tag e nm) = None ->
       http_get W (trace st) (primary_url cp) = Replied r ->
       let st1 := requested (primary_url cp) st in
       let st2 := requested (fallback_url cp) st1 in
       (* fault of the fallback request *)
       (status_code r <> 200%Z ->
        (exists what, http_get W (trace st1) (fallback_url cp) = Fault what) ->
        status = "error") /\
       (* refused write after the primary response *)
       (status_code r = 200%Z ->
        fs_allows W (trace st1) (filepath_of W cp (first_tag e nm)) = false ->
        status = "error") /\
       (* refused write after the fallback response *)
       (status_code r <> 200%Z ->
        (exists r2, http_get W (trace st1) (fallback_url cp) = Replied r2 /\
                    status_code r2 = 200%Z) ->
        fs_allows W (trace st2) (filepath_of W cp (first_tag e nm)) = false ->
        status = "error")).
Proof.
  intros [[cp Hcp] [nm Hnm]].
  rewrite (download_one_unfold W _ index total st cp nm Hcp Hnm). cbv zeta.
  destruct (bool_decide _) eqn:Hpresent.
  { eexists _, _, _, _. split; [reflexivity|]. split; [cbn; tauto|].
    intros cp' nm' r Hcp' Hnm' Habs. exfalso.
    rewrite Hcp in Hcp'. rewrite Hnm in Hnm'. injection Hcp' as <-. injection Hnm' as <-.
    rewrite (lookup_None_not_present _ _ Habs) in Hpresent. discriminate. }
  assert (Hsame : forall cp' nm' (P : Prop),
             codepoint e = Some cp' -> name e = Some nm' ->
             (cp' = cp -> nm' = nm -> P) -> P).
  { intros cp' nm' P Hcp' Hnm' HP. rewrite Hcp in Hcp'. rewrite Hnm in Hnm'.
    injection Hcp' as <-. injection Hnm' as <-. now apply HP. }
  destruct (http_get W (trace st) (primary_url cp)) as [r|what] eqn:Hp.
  - destruct (status_code r =? 200)%Z eqn:Hs.
    + apply Z.eqb_eq in Hs. unfold stored.
      destruct (fs_allows W _ _) eqn:Hw;
        eexists _, _, _, _; (split; [reflexivity|]); (split; [cbn; tauto|]);
        intros cp' nm' r' Hcp' Hnm' _ Hr';
        apply (Hsame cp' nm' _ Hcp' Hnm'); intros -> ->;
        rewrite Hp in Hr'; injection Hr' as <-;
        (split; [intros Hne; contradiction|]);
        (split; [|intros Hne; contradiction]);
        intros _ Hw'; [rewrite Hw in Hw'; discriminate | reflexivity].
    + apply Z.eqb_neq in Hs.
      destruct (http_get W _ (fallback_url cp)) as [r2|what] eqn:Hf.
      * destruct (status_code r2 =? 200)%Z eqn:Hs2.
        -- apply Z.eqb_eq in Hs2. unfold stored.
           destruct (fs_allows W _ _) eqn:Hw;
             eexists _, _, _, _; (split; [reflexivity|]); (split; [cbn; tauto|]);
             intros cp' nm' r' Hcp' Hnm' _ Hr';
             apply (Hsame cp' nm' _ Hcp' Hnm'); intros -> ->;
             rewrite Hp in Hr'; injection Hr' as <-;
             (split; [intros _ [what Hwhat]; rewrite Hf in Hwhat; discriminate|]);
             (split; [intros He; contradiction|]);
             intros _ _ Hw'; [rewrite Hw in Hw'; discriminate | reflexivity].
        -- apply Z.eqb_neq in Hs2.
           eexists _, _, _, _; (split; [reflexivity|]); (split; [cbn; tauto|]).
           intros cp' nm' r' Hcp' Hnm' _ Hr'.
           apply (Hsame cp' nm' _ Hcp' Hnm'); intros -> ->.
           rewrite Hp in Hr'; injection Hr' as <-.
           split; [intros _ [what Hwhat]; rewrite Hf in Hwhat; discriminate|].
           split; [intros He; contradiction|].
           intros _ [r3 [Hr3 Hs3]]. rewrite Hf in Hr3. injection Hr3 as <-. contradiction.
      * eexists _, _, _, _; (split; [reflexivity|]); (split; [cbn; tauto|]).
        intros cp' nm' r' Hcp' Hnm' _ Hr'.
        apply (Hsame cp' nm' _ Hcp' Hnm'); intros -> ->.
        rewrite Hp in Hr'; injection Hr' as <-.
        split; [reflexivity|]. split; [intros He; contradiction|].
        intros _ [r3 [Hr3 _]]. rewrite Hf in Hr3. discriminate.
  - eexists _, _, _, _; (split; [reflexivity|]); (split; [cbn; tauto|]).
    intros cp' nm' r' Hcp' Hnm' _ Hr'.
    apply (Hsame cp' nm' _ Hcp' Hnm'); intros -> ->.
    rewrite Hp in Hr'. discriminate.
Qed.

Lemma size_kb_of_bytes c :
  (size_kb_of c * 1024 == inject_Z (Z.of_nat (length c)))%Q.
Proof. unfold size_kb_of. field. Qed.

(** Claim C2, as the code has it.  For an entry whose destination file is
    absent, when the primary request answers with a status other than 200,
    the fallback request answers 200 with a body of n bytes and the file can
    be written, [download_one] returns the [ok] outcome whose size is
    n / 1024 (kilobytes), and the destination file holds exactly the body. *)
Theorem fallback_stores_payload e index total st cp nm r1 r2 :
  codepoint e = Some cp -> name e = Some nm ->
  files st !! filepath_of W cp (first_tag e nm) = None ->
  http_get W (trace st) (primary_url cp) = Replied r1 ->
  status_code r1 <> 200%Z ->
  http_get W (trace (requested (primary_url cp) st)) (fallback_url cp) = Replied r2 ->
  status_code r2 = 200%Z ->
  fs_allows W (trace (requested (fallback_url cp) (requested (primary_url cp) st)))
    (filepath_of W cp (first_tag e nm)) = true ->
  exists size_kb st',
    download_one W e index total st
    = (Return ("ok", MSize (first_tag e nm) size_kb, size_kb), st') /\
    (size_kb * 1024 == inject_Z (Z.of_nat (length (content r2))))%Q /\
    files st' !! filepath_of W cp (first_tag e nm) = Some (FBytes (content r2)) /\
    requests_of (drop (length (trace st)) (trace st'))
    = [primary_url cp; fallback_url cp].
Proof.
  intros Hcp Hnm Habs Hp Hs1 Hf Hs2 Hw.
  rewrite (download_one_unfold W _ index total st cp nm Hcp Hnm). cbv zeta.
  rewrite (lookup_None_not_present _ _ Habs), Hp.
  apply Z.eqb_neq in Hs1. rewrite Hs1, Hf.
  apply Z.eqb_eq in Hs2. rewrite Hs2. unfold stored. rewrite Hw.
  eexists _, _. split; [reflexivity|]. split; [apply size_kb_of_bytes|].
  split.
  - cbn. apply lookup_insert_eq.
  - cbn [trace requested written log]. rewrite <- !app_assoc.
    rewrite drop_app_length. reflexivity.
Qed.

End Outcomes.

(** ** The pool and the counters *)

Section Pool.

Variable W : world.

(** Files are only ever added. *)
Lemma download_one_files_mono e index total st p :
  is_Some (files st !! p) ->
  is_Some (files (snd (download_one W e index total st)) !! p).
Proof.
  intros Hp.
  destruct (codepoint e) as [cp|] eqn:Hcp; [destruct (name e) as [nm|] eqn:Hnm|].
  - rewrite (download_one_unfold W _ index total st cp nm Hcp Hnm). cbv zeta.
    destruct (bool_decide _); [exact Hp|].
    destruct (http_get W _ _) as [r|what]; [|exact Hp].
    destruct (status_code r =? 200)%Z; [now apply files_stored|].
    destruct (http_get W _ _) as [r2|what]; [|exact Hp].
    destruct (status_code r2 =? 200)%Z; [now apply files_stored|exact Hp].
  - destruct (download_one_keyerror W e index total st (or_intror Hnm)) as [k ->].
    exact Hp.
  - destruct (download_one_keyerror W e index total st (or_introl Hcp)) as [k ->].
    exact Hp.
Qed.

Lemma run_pool_cons i schedule emojis total st e :
  emojis !! i = Some e ->
  run_pool W (i :: schedule) emojis total st =
  let (r, st1) := download_one W e i total st in
  let (rs, st2) := run_pool W schedule emojis total st1 in
  (match rs with Return l => Return (r :: l) | Raise x => Raise x end, st2).
Proof.
  intros He. cbn [run_pool]. rewrite He. unfold bind, capture, ret.
  destruct (download_one W e i total st) as [r st1].
  destruct (run_pool W schedule emojis total st1) as [[l|x] st2]; reflexivity.
Qed.

Lemma run_pool_skip i schedule emojis total st :
  emojis !! i = None ->
  run_pool W (i :: schedule) emojis total st = run_pool W schedule emojis total st.
Proof. intros He. cbn [run_pool]. now rewrite He. Qed.

(** The pool itself never raises: exceptions stay inside the results. *)
Lemma run_pool_returns schedule emojis total st :
  exists rs st', run_pool W schedule emojis total st = (Return rs, st') /\
                 length rs = length (scheduled schedule emojis).
Proof.
  revert st. induction schedule as [|i schedule IH]; intros st.
  - now exists [], st.
  - unfold scheduled. cbn [omap list_omap]. destruct (emojis !! i) as [e|] eqn:He.
    + rewrite (run_pool_cons _ _ _ _ _ e He).
      destruct (download_one W e i total st) as [r st1].
      destruct (IH st1) as [rs [st2 [-> Hlen]]].
      exists (r :: rs), st2. split; [reflexivity|]. cbn. now rewrite Hlen.
    + rewrite (run_pool_skip _ _ _ _ _ He). apply IH.
Qed.

Lemma run_pool_files_mono schedule emojis total st p :
  is_Some (files st !! p) ->
  is_Some (files (snd (run_pool W schedule emojis total st)) !! p).
Proof.
  revert st. induction schedule as [|i schedule IH]; intros st Hp; [exact Hp|].
  destruct (emojis !! i) as [e|] eqn:He.
  - rewrite (run_pool_cons _ _ _ _ _ e He).
    pose proof (download_one_files_mono e i total st p Hp) as H1.
    destruct (download_one W e i total st) as [r st1]. cbn [snd] in H1.
    specialize (IH st1 H1).
    destruct (run_pool W schedule emojis total st1) as [rs st2]. exact IH.
  - rewrite (run_pool_skip _ _ _ _ _ He). now apply IH.
Qed.

Lemma run_pool_skips schedule emojis total e cp nm :
  codepoint e = Some cp -> name e = Some nm ->
  forall st k rs st',
    scheduled schedule emojis !! k = Some e ->
    is_Some (files st !! filepath_of W cp (first_tag e nm)) ->
    run_pool W schedule emojis total st = (Return rs, st') ->
    rs !! k = Some (Return ("skipped", MName nm, 0%Q)).
Proof.
  intros Hcp Hnm. induction schedule as [|i schedule IH]; intros st k rs st' Hk Hp Hrun.
  - discriminate.
  - unfold scheduled in Hk. cbn [omap list_omap] in Hk.
    destruct (emojis !! i) as [e0|] eqn:He.
    + rewrite (run_pool_cons _ _ _ _ _ e0 He) in Hrun.
      pose proof (download_one_files_mono e0 i total st _ Hp) as Hp1.
      destruct k as [|k].
      * injection Hk as ->.
        rewrite (download_one_skipped W e i total st cp nm Hcp Hnm Hp) in Hrun.
        destruct (run_pool W schedule emojis total st) as [[l|x] st2];
          [|discriminate]. injection Hrun as <- _. reflexivity.
      * destruct (download_one W e0 i total st) as [r st1]. cbn [snd] in Hp1.
        destruct (run_pool W schedule emojis total st1) as [[l|x] st2] eqn:Hl;
          [|discriminate]. injection Hrun as <- <-.
        cbn. exact (IH st1 k l st2 Hk Hp1 Hl).
    + rewrite (run_pool_skip _ _ _ _ _ He) in Hrun. exact (IH st k rs st' Hk Hp Hrun).
Qed.

(** Claim C6.  An entry whose destination file exists makes [download_one]
    return [skipped] and leave the state as it was, so that no request is
    issued; and in a run of the pool over any catalog, from any state of the
    output directory (that left by an earlier run in particular), the
    outcome of every entry whose destination file exists at the start is
    [skipped]. *)
Theorem existing_file_is_skipped e cp nm :
  codepoint e = Some cp -> name e = Some nm ->
  (forall index total st,
     is_Some (files st !! filepath_of W cp (first_tag e nm)) ->
     download_one W e index total st = (Return ("skipped", MName nm, 0%Q), st)) /\
  (forall schedule emojis total st k,
     scheduled schedule emojis !! k = Some e ->
     is_Some (files st !! filepath_of W cp (first_tag e nm)) ->
     exists rs st',
       run_pool W schedule emojis total st = (Return rs, st') /\
       rs !! k = Some (Return ("skipped", MName nm, 0%Q))).
Proof.
  intros Hcp Hnm. split.
  - intros index total st Hp. now apply (download_one_skipped W e index total st cp nm).
  - intros schedule emojis total st k Hk Hp.
    destruct (run_pool_returns schedule emojis total st) as [rs [st' [Hrun _]]].
    exists rs, st'. split; [exact Hrun|].
    exact (run_pool_skips schedule emojis total e cp nm Hcp Hnm st k rs st' Hk Hp Hrun).
Qed.

Lemma download_one_returns e index total st :
  has_required_keys e ->
  exists o st', download_one W e index total st = (Return o, st').
Proof.
  intros [[cp Hcp] [nm Hnm]].
  rewrite (download_one_unfold W _ index total st cp nm Hcp Hnm). cbv zeta.
  unfold stored.
  repeat match goal with
         | |- context [if ?b then _ else _] => destruct b
         | |- context [match http_get ?w ?h ?u with _ => _ end] =>
             destruct (http_get w h u)
         end; eauto.
Qed.

(** With well-formed entries every future holds an outcome. *)
Lemma run_pool_outcomes schedule emojis total st :
  Forall has_required_keys emojis ->
  exists outs st',
    run_pool W schedule emojis total st = (Return (map Return outs), st') /\
    length outs = length (scheduled schedule emojis).
Proof.
  intros Hwf. revert st. induction schedule as [|i schedule IH]; intros st.
  - now exists [], st.
  - unfold scheduled. cbn [omap list_omap]. destruct (emojis !! i) as [e|] eqn:He.
    + rewrite (run_pool_cons _ _ _ _ _ e He).
      assert (Hkeys : has_required_keys e).
      { rewrite Forall_forall in Hwf. apply Hwf.
        eapply list_elem_of_lookup_2. exact He. }
      destruct (download_one_returns e i total st Hkeys) as [o [st1 ->]].
      destruct (IH st1) as [outs [st2 [-> Hlen]]].
      exists (o :: outs), st2. split; [reflexivity|]. cbn. now rewrite Hlen.
    + rewrite (run_pool_skip _ _ _ _ _ He). apply IH.
Qed.

Lemma scheduled_length schedule emojis :
  Permutation schedule (seq 0 (length emojis)) ->
  length (scheduled schedule emojis) = length emojis.
Proof.
  intros Hperm.
  assert (Hlt : Forall (fun i => i < length emojis) schedule).
  { rewrite Hperm. apply Forall_seq. intros i Hi. lia. }
  transitivity (length schedule).
  - clear Hperm. induction Hlt as [|i schedule Hi _ IH]; [reflexivity|].
    unfold scheduled. cbn [omap list_omap].
    destruct (lookup_lt_is_Some_2 emojis i Hi) as [e ->]. cbn. f_equal. exact IH.
  - rewrite (Permutation_length Hperm). apply length_seq.
Qed.


(** The loop of lines 96-109 over futures that all hold an outcome. *)
Lemma collect_spec total (outs : list outcome) :
  forall c st,
  exists c' st',
    collect total c (map Return outs) st = (Return c', st') /\
    downloaded c' = (downloaded c + count_ok outs)%Z /\
    skipped c' = (skipped c + count_skipped outs)%Z /\
    failed c' = (failed c + count_failed outs)%Z /\
    (total_size c' == total_size c + sum_ok_sizes outs)%Q /\
    files st' = files st /\
    exists lines, trace st' = trace st ++ map EvPrint lines.
Proof.
  induction outs as [|[[status msg] size] outs IH]; intros c st.
  - exists c, st. cbn. rewrite !Z.add_0_r, Qplus_0_r.
    repeat split; try reflexivity. exists []. cbn. now rewrite app_nil_r.
  - cbn [map collect count_ok count_skipped count_failed sum_ok_sizes].
    unfold bind at 1. unfold lift. unfold bind at 1. unfold account.
    destruct (String.eqb status "ok"); [|destruct (String.eqb status "skipped")].
    + unfold bind at 1.
      destruct ((_ mod 25 =? 0) || _)%Z; cbn [print ret].
      * edestruct IH as [c' [st' [-> (Hd & Hs & Hf & Ht & Hfs & lines & Htr)]]].
        exists c', st'. cbn in *. split; [reflexivity|].
        rewrite Hd, Hs, Hf, Ht, Hfs, Htr.
        repeat split; try lia; try ring.
        eexists (_ :: lines). rewrite <- app_assoc. reflexivity.
      * edestruct IH as [c' [st' [-> (Hd & Hs & Hf & Ht & Hfs & lines & Htr)]]].
        exists c', st'. cbn in *. split; [reflexivity|].
        rewrite Hd, Hs, Hf, Ht, Hfs, Htr.
        repeat split; try lia; try ring. now exists lines.
    + cbn [ret].
      edestruct IH as [c' [st' [-> (Hd & Hs & Hf & Ht & Hfs & lines & Htr)]]].
      exists c', st'. cbn in *. split; [reflexivity|].
      rewrite Hd, Hs, Hf, Ht, Hfs, Htr.
      repeat split; try lia; try reflexivity. now exists lines.
    + unfold bind at 1.
      destruct (_ <=? 10)%Z; cbn [print ret].
      * edestruct IH as [c' [st' [-> (Hd & Hs & Hf & Ht & Hfs & lines & Htr)]]].
        exists c', st'. cbn in *. split; [reflexivity|].
        rewrite Hd, Hs, Hf, Ht, Hfs, Htr.
        repeat split; try lia; try reflexivity.
        eexists (_ :: lines). rewrite <- app_assoc. reflexivity.
      * edestruct IH as [c' [st' [-> (Hd & Hs & Hf & Ht & Hfs & lines & Htr)]]].
        exists c', st'. cbn in *. split; [reflexivity|].
        rewrite Hd, Hs, Hf, Ht, Hfs, Htr.
        repeat split; try lia; try reflexivity. now exists lines.
Qed.

Lemma collect_tallies total (outs : list outcome) st c st' :
  collect total (Counters 0 0 0 0) (map Return outs) st = (Return c, st') ->
  tallies c outs.
Proof.
  intros Hcol.
  destruct (collect_spec total outs (Counters 0 0 0 0) st)
    as [c' [st'' [Hcol' (Hd & Hs & Hf & Ht & _)]]].
  rewrite Hcol in Hcol'. injection Hcol' as <- <-. cbn in Hd, Hs, Hf, Ht.
  repeat split; try assumption. rewrite Ht. ring.
Qed.

End Pool.

(** ** The category index *)

Section Index.

Lemma dict_get_append cat cat' s d :
  dict_get cat (dict_append cat' s d) =
  if String.eqb cat' cat then Some (entries cat d ++ [s]) else dict_get cat d.
Proof.
  unfold entries. induction d as [|[k v] d IH]; cbn [dict_append dict_get].
  - destruct (String.eqb cat' cat); reflexivity.
  - destruct (String.eqb k cat') eqn:Ek; cbn [dict_get].
    + apply String.eqb_eq in Ek. subst k.
      destruct (String.eqb cat' cat) eqn:E; reflexivity.
    + destruct (String.eqb k cat) eqn:Ec.
      * apply String.eqb_eq in Ec. subst k. rewrite String.eqb_sym in Ek.
        now rewrite Ek.
      * exact IH.
Qed.

Lemma extended_app o a b : extended (extended o a) b = extended o (a ++ b).
Proof.
  destruct a as [|x a]; [reflexivity|]. destruct b as [|y b].
  - cbn. now rewrite app_nil_r.
  - cbn. f_equal. destruct o; cbn; now rewrite <- ?app_assoc.
Qed.

Lemma summary_of_keys e : has_required_keys e -> exists s, summary_of e = Return s.
Proof.
  intros [[cp Hcp] [nm Hnm]]. unfold summary_of. rewrite Hcp, Hnm. cbn. eauto.
Qed.

Lemma add_to_categories_get e s cats cat :
  summary_of e = Return s ->
  forall d, exists d',
    add_to_categories e cats d = Return d' /\
    dict_get cat d' = extended (dict_get cat d) (placed cat s cats) /\
    keys d' = keys d ++ first_occurrences (keys d) cats.
Proof.
  intros Hs. induction cats as [|c cats IH]; intros d.
  - exists d. cbn. now rewrite app_nil_r.
  - cbn [add_to_categories placed first_occurrences]. rewrite Hs.
    destruct (IH (dict_append c s d)) as [d' [-> [Hget Hkeys]]].
    exists d'. split; [reflexivity|]. split.
    + rewrite Hget, dict_get_append. unfold entries.
      destruct (String.eqb c cat).
      * change (s :: placed cat s cats) with ([s] ++ placed cat s cats).
        rewrite <- extended_app. reflexivity.
      * reflexivity.
    + rewrite Hkeys. clear. unfold keys.
      assert (Hk : map fst (dict_append c s d) =
                   if bool_decide (c ∈ map fst d) then map fst d else map fst d ++ [c]).
      { induction d as [|[k v] d IH]; [reflexivity|]. cbn [dict_append map fst].
        destruct (String.eqb k c) eqn:Ek.
        - apply String.eqb_eq in Ek. subst k.
          rewrite bool_decide_eq_true_2 by apply list_elem_of_here. reflexivity.
        - apply String.eqb_neq in Ek. cbn [map fst]. rewrite IH.
          destruct (bool_decide (c ∈ map fst d)) eqn:Ec.
          + apply bool_decide_eq_true in Ec.
            rewrite bool_decide_eq_true_2 by now apply list_elem_of_further.
            reflexivity.
          + apply bool_decide_eq_false in Ec.
            rewrite bool_decide_eq_false_2; [reflexivity|].
            intros [?|?]%elem_of_cons; congruence. }
      rewrite Hk. destruct (bool_decide (c ∈ map fst d)); [reflexivity|].
      now rewrite <- app_assoc.
Qed.

Lemma first_occurrences_app seen a b :
  first_occurrences seen (a ++ b) =
  first_occurrences seen a ++ first_occurrences (seen ++ first_occurrences seen a) b.
Proof.
  revert seen. induction a as [|x a IH]; intros seen; cbn [app first_occurrences].
  - now rewrite app_nil_r.
  - destruct (bool_decide (x ∈ seen)); [apply IH|].
    rewrite IH. cbn. now rewrite <- app_assoc.
Qed.

(** The index builder on well-formed entries: it returns, and each key and
    each sequence is what the catalog determines. *)
Lemma build_categories_get emojis cat :
  Forall has_required_keys emojis ->
  forall d, exists d',
    build_categories emojis d = Return d' /\
    dict_get cat d' = extended (dict_get cat d) (index_entries cat emojis) /\
    keys d' = keys d ++ first_occurrences (keys d) (flat_map categories_of emojis).
Proof.
  induction 1 as [|e emojis He _ IH]; intros d.
  - exists d. cbn. now rewrite app_nil_r.
  - destruct (summary_of_keys e He) as [s Hs].
    destruct (add_to_categories_get e s (categories_of e) cat Hs d) as [d1 [H1 [Hg1 Hk1]]].
    destruct (IH d1) as [d' [H' [Hg' Hk']]].
    exists d'. cbn [build_categories]. rewrite H1. split; [exact H'|]. split.
    + rewrite Hg', Hg1, extended_app. unfold index_entries. cbn [flat_map].
      unfold entries_of_item at 2. now rewrite Hs.
    + rewrite Hk', Hk1. cbn [flat_map]. rewrite first_occurrences_app.
      now rewrite <- app_assoc.
Qed.

Lemma entries_of_uncategorised cat e s :
  categories e = None -> summary_of e = Return s ->
  entries_of_item cat e = if String.eqb "Other" cat then [s] else [].
Proof.
  intros Hc Hs. unfold entries_of_item, categories_of. rewrite Hs, Hc. reflexivity.
Qed.

Lemma index_entries_app cat a b :
  index_entries cat (a ++ b) = index_entries cat a ++ index_entries cat b.
Proof. unfold index_entries. apply flat_map_app. Qed.

Lemma build_categories_app a b d :
  build_categories (a ++ b) d =
  match build_categories a d with
  | Return d' => build_categories b d'
  | Raise x => Raise x
  end.
Proof.
  revert d. induction a as [|e a IH]; intros d; [reflexivity|].
  cbn [app build_categories].
  destruct (add_to_categories e (categories_of e) d); [apply IH|reflexivity].
Qed.

(** Claim C1, as the code has it.  For a catalog entry that has no
    [categories] key, the index holds the summary of the entry under
    ["Other"], once, at the place the catalog order gives it, and the entry
    adds nothing under any other category: there the index is the one built
    from the catalog without the entry.  For an entry whose [categories]
    list is present and empty, the whole index is the one built without the
    entry. *)
Theorem uncategorised_goes_to_other pre e post :
  Forall has_required_keys (pre ++ e :: post) ->
  (categories e = None ->
   exists d d0 s before after,
     build_categories (pre ++ e :: post) [] = Return d /\
     build_categories (pre ++ post) [] = Return d0 /\
     summary_of e = Return s /\
     dict_get "Other" d = Some (before ++ s :: after) /\
     entries "Other" d0 = before ++ after /\
     forall cat, cat <> "Other" -> dict_get cat d = dict_get cat d0) /\
  (categories e = Some [] ->
   build_categories (pre ++ e :: post) [] = build_categories (pre ++ post) []).
Proof.
  intros Hwf. split; intros Hc.
  2: { rewrite !build_categories_app. destruct (build_categories pre []) as [d|x];
       [|reflexivity]. cbn [build_categories]. unfold categories_of. now rewrite Hc. }
  assert (Hwf0 : Forall has_required_keys (pre ++ post)).
  { apply Forall_app in Hwf as [Hpre Hpost]. apply Forall_app. split; [exact Hpre|].
    now apply Forall_cons in Hpost as [_ Hpost]. }
  assert (He : has_required_keys e).
  { apply Forall_app in Hwf as [_ Hpost]. now apply Forall_cons in Hpost as [He _]. }
  destruct (summary_of_keys e He) as [s Hs].
  destruct (build_categories_get _ "Other" Hwf []) as [d [Hd [Hget _]]].
  destruct (build_categories_get _ "Other" Hwf0 []) as [d0 [Hd0 [Hget0 _]]].
  exists d, d0, s, (index_entries "Other" pre), (index_entries "Other" post).
  split; [exact Hd|]. split; [exact Hd0|]. split; [exact Hs|].
  rewrite index_entries_app in Hget, Hget0.
  change (e :: post) with ([e] ++ post) in Hget. rewrite index_entries_app in Hget.
  unfold index_entries at 2 in Hget. cbn [flat_map] in Hget.
  rewrite (entries_of_uncategorised "Other" e s Hc Hs) in Hget. cbn in Hget.
  split; [|split].
  - rewrite Hget. unfold extended.
    destruct (index_entries "Other" pre ++ s :: index_entries "Other" post) eqn:E;
      [|reflexivity].
    symmetry in E. now apply app_cons_not_nil in E.
  - unfold entries. rewrite Hget0. unfold extended. cbn.
    now destruct (index_entries "Other" pre ++ index_entries "Other" post).
  - intros cat Hne.
    destruct (build_categories_get _ cat Hwf []) as [d' [Hd' [Hg _]]].
    destruct (build_categories_get _ cat Hwf0 []) as [d0' [Hd0' [Hg0 _]]].
    rewrite Hd in Hd'. injection Hd' as <-. rewrite Hd0 in Hd0'. injection Hd0' as <-.
    rewrite Hg, Hg0. f_equal. rewrite !index_entries_app. f_equal.
    change (e :: post) with ([e] ++ post). rewrite index_entries_app.
    unfold index_entries at 1. cbn [flat_map].
    rewrite (entries_of_uncategorised cat e s Hc Hs).
    assert (String.eqb "Other" cat = false) as -> by (apply String.eqb_neq; congruence).
    reflexivity.
Qed.

(** The keys of the index are the categories in the order in which the
    catalog first names them. *)
Lemma build_categories_keys emojis :
  Forall has_required_keys emojis ->
  exists d, build_categories emojis [] = Return d /\
            keys d = first_occurrences [] (flat_map categories_of emojis).
Proof.
  intros Hwf. destruct (build_categories_get emojis "Other" Hwf []) as [d [Hd [_ Hk]]].
  exists d. split; [exact Hd|exact Hk].
Qed.

(** *** The order of the console listing *)

Lemma ascii_compare_lt_trans a b c :
  Ascii.compare a b = Lt -> Ascii.compare b c = Lt -> Ascii.compare a c = Lt.
Proof.
  unfold Ascii.compare. rewrite !N.compare_lt_iff. apply N.lt_trans.
Qed.

Lemma string_compare_lt_trans s1 :
  forall s2 s3, String.compare s1 s2 = Lt -> String.compare s2 s3 = Lt ->
                String.compare s1 s3 = Lt.
Proof.
  induction s1 as [|a s1 IH]; intros [|b s2] [|c s3]; cbn; try congruence.
  destruct (Ascii.compare a b) eqn:Hab; try discriminate;
    destruct (Ascii.compare b c) eqn:Hbc; try discriminate.
  - apply Ascii.compare_eq_iff in Hab, Hbc. subst.
    assert (Ascii.compare c c = Eq) as ->
      by (unfold Ascii.compare; apply N.compare_refl).
    apply IH.
  - apply Ascii.compare_eq_iff in Hab. subst. now rewrite Hbc.
  - apply Ascii.compare_eq_iff in Hbc. subst. now rewrite Hab.
  - now rewrite (ascii_compare_lt_trans a b c Hab Hbc).
Qed.

Lemma string_leb_trans s1 s2 s3 :
  String.leb s1 s2 = true -> String.leb s2 s3 = true -> String.leb s1 s3 = true.
Proof.
  unfold String.leb.
  destruct (String.compare s1 s2) eqn:H12; try discriminate;
    destruct (String.compare s2 s3) eqn:H23; try discriminate; intros _ _.
  - apply String.compare_eq_iff in H12. subst. now rewrite H23.
  - apply String.compare_eq_iff in H12. subst. now rewrite H23.
  - apply String.compare_eq_iff in H23. subst. now rewrite H12.
  - now rewrite (string_compare_lt_trans s1 s2 s3 H12 H23).
Qed.

Lemma string_ltb_not_leb a b : String.ltb a b = true -> String.leb b a = false.
Proof.
  unfold String.ltb, String.leb. rewrite (String.compare_antisym a b).
  now destruct (String.compare b a).
Qed.

Lemma insert_sorted_perm p l : Permutation (insert_sorted p l) (p :: l).
Proof.
  induction l as [|q l IH]; cbn; [reflexivity|].
  destruct (String.leb (fst p) (fst q)); [reflexivity|].
  rewrite IH. apply perm_swap.
Qed.

Lemma sorted_items_perm d : Permutation (sorted_items d) d.
Proof.
  induction d as [|p d IH]; cbn; [reflexivity|].
  rewrite insert_sorted_perm. now constructor.
Qed.

Lemma insert_sorted_sorted p l : Sorted key_le l -> Sorted key_le (insert_sorted p l).
Proof.
  induction 1 as [|q l Hl IH Hhd]; cbn.
  - repeat constructor.
  - destruct (String.leb (fst p) (fst q)) eqn:E.
    + constructor; [now constructor|]. now constructor.
    + constructor; [exact IH|].
      assert (Hqp : key_le q p).
      { unfold key_le. destruct (String.leb_total (fst p) (fst q)); congruence. }
      destruct Hhd as [|r l Hr]; cbn.
      * now constructor.
      * destruct (String.leb (fst p) (fst r)); now constructor.
Qed.

Lemma sorted_items_sorted d : StronglySorted key_le (sorted_items d).
Proof.
  apply Sorted_StronglySorted.
  - intros p q r. apply string_leb_trans.
  - induction d as [|p d IH]; cbn; [constructor|]. now apply insert_sorted_sorted.
Qed.

Lemma strongly_sorted_lookup (l : dict) i j p q :
  StronglySorted key_le l -> i < j -> l !! i = Some p -> l !! j = Some q -> key_le p q.
Proof.
  intros Hs. revert i j. induction Hs as [|r l Hs IH Hall]; intros i j Hij Hi Hj.
  - discriminate.
  - destruct j as [|j]; [lia|]. destruct i as [|i].
    + injection Hi as ->. cbn in Hj. rewrite Forall_forall in Hall.
      apply Hall. eapply list_elem_of_lookup_2. exact Hj.
    + cbn in Hi, Hj. apply (IH i j); [lia|assumption|assumption].
Qed.

(** [sorted(categories.items())] lists the categories sorted by name. *)
Lemma sorted_items_name_sorted d : name_sorted (keys (sorted_items d)).
Proof.
  intros i j a b Hi Hj Hlt. unfold keys in *.
  rewrite list_lookup_fmap in Hi, Hj.
  apply fmap_Some in Hi as [p [Hp ->]]. apply fmap_Some in Hj as [q [Hq ->]].
  destruct (decide (i < j)) as [|Hge]; [assumption|exfalso].
  apply string_ltb_not_leb in Hlt.
  destruct (decide (i = j)) as [->|Hne].
  - rewrite Hp in Hq. injection Hq as <-.
    destruct (String.leb_total (fst p) (fst p)); congruence.
  - assert (Hji : j < i) by lia.
    pose proof (strongly_sorted_lookup _ j i q p (sorted_items_sorted d) Hji Hq Hp) as H.
    unfold key_le in H. congruence.
Qed.

End Index.

(** ** The whole run *)

Section Run.

Variable W : world.

Lemma bind_return {A B} (m : M A) (k : A -> M B) st a st' :
  m st = (Return a, st') -> bind m k st = k a st'.
Proof. unfold bind. now intros ->. Qed.

Lemma bind_raise {A B} (m : M A) (k : A -> M B) st x st' :
  m st = (Raise x, st') -> bind m k st = (Raise x, st').
Proof. unfold bind. now intros ->. Qed.

(** *** The history is append-only *)

Lemma appends_ret {A} (a : A) : appends (ret a).
Proof. intros st. exists []. cbn. now rewrite app_nil_r. Qed.

Lemma appends_lift {A} (r : result A) : appends (lift r).
Proof. intros st. exists []. cbn. now rewrite app_nil_r. Qed.

Lemma appends_print l : appends (print l).
Proof. intros st. now exists [EvPrint l]. Qed.

Lemma appends_requests_get url timeout : appends (requests_get W url timeout).
Proof.
  intros st. exists [EvGet url timeout]. unfold requests_get.
  now destruct (http_get W _ _).
Qed.

Lemma appends_write_file path c : appends (write_file W path c).
Proof.
  intros st. unfold write_file. destruct (fs_allows W _ _).
  - now exists [EvWrite path c].
  - exists []. cbn. now rewrite app_nil_r.
Qed.

Lemma appends_path_exists path : appends (path_exists path).
Proof. intros st. exists []. cbn. now rewrite app_nil_r. Qed.

Lemma appends_bind {A B} (m : M A) (k : A -> M B) :
  appends m -> (forall a, appends (k a)) -> appends (bind m k).
Proof.
  intros Hm Hk st. unfold bind. destruct (Hm st) as [evs Hevs].
  destruct (m st) as [[a|x] st1]; cbn [snd] in *.
  - destruct (Hk a st1) as [evs' Hevs']. exists (evs ++ evs').
    now rewrite Hevs', Hevs, app_assoc.
  - now exists evs.
Qed.

Lemma appends_try_except {A} (m : M A) (h : exn -> M A) :
  appends m -> (forall x, appends (h x)) -> appends (try_except m h).
Proof.
  intros Hm Hh st. unfold try_except. destruct (Hm st) as [evs Hevs].
  destruct (m st) as [[a|x] st1]; cbn [snd] in *.
  - now exists evs.
  - destruct (Hh x st1) as [evs' Hevs']. exists (evs ++ evs').
    now rewrite Hevs', Hevs, app_assoc.
Qed.

Lemma appends_capture {A} (m : M A) : appends m -> appends (capture m).
Proof.
  intros Hm st. unfold capture. destruct (Hm st) as [evs Hevs].
  destruct (m st) as [r st1]. now exists evs.
Qed.

Lemma appends_if {A} (b : bool) (m1 m2 : M A) :
  appends m1 -> appends m2 -> appends (if b then m1 else m2).
Proof. now destruct b. Qed.

Ltac appends_step :=
  first [ apply appends_ret | apply appends_lift | apply appends_print
        | apply appends_requests_get | apply appends_write_file
        | apply appends_path_exists | apply appends_capture
        | apply appends_if
        | apply appends_bind; [|intro]
        | apply appends_try_except; [|intro] ].

Lemma appends_download_one e index total : appends (download_one W e index total).
Proof. unfold download_one. repeat appends_step. Qed.

Lemma appends_run_pool schedule emojis total : appends (run_pool W schedule emojis total).
Proof.
  induction schedule as [|i schedule IH]; cbn [run_pool]; [apply appends_ret|].
  destruct (emojis !! i); [|exact IH].
  apply appends_bind; [apply appends_capture, appends_download_one|intro].
  apply appends_bind; [exact IH|intro]. apply appends_ret.
Qed.

Lemma appends_account total c o : appends (account total c o).
Proof.
  destruct o as [[status msg] size]. unfold account.
  repeat appends_step.
Qed.

Lemma appends_collect total rs : forall c, appends (collect total c rs).
Proof.
  induction rs as [|r rs IH]; intros c; cbn [collect]; [apply appends_ret|].
  apply appends_bind; [apply appends_lift|intro].
  apply appends_bind; [apply appends_account|intro]. apply IH.
Qed.

Lemma appends_print_categories items : appends (print_categories items).
Proof.
  induction items as [|[cat its] items IH]; cbn [print_categories]; [apply appends_ret|].
  apply appends_bind; [apply appends_print|intro]. exact IH.
Qed.

Ltac appends_all :=
  repeat first [ apply appends_run_pool | apply appends_collect
               | apply appends_print_categories | appends_step ].

Lemma split_after_prefix (l1 l2 pre post : list event) ev :
  l1 ++ l2 = pre ++ ev :: post ->
  Forall (fun x => is_download_request x = false) l1 ->
  is_download_request ev = true ->
  exists mid, pre = l1 ++ mid.
Proof.
  revert pre. induction l1 as [|a l1 IH]; intros pre Heq Hall Hev.
  - now exists pre.
  - apply Forall_cons in Hall as [Ha Hall]. destruct pre as [|b pre].
    + cbn in Heq. injection Heq as -> _. congruence.
    + cbn in Heq. injection Heq as -> Heq.
      destruct (IH pre Heq Hall Hev) as [mid ->]. now exists mid.
Qed.

Lemma makedirs_run path st :
  fs_allows W (trace st) path = true ->
  makedirs W path st = (Return tt, log (EvMakedirs path) st).
Proof. unfold makedirs. now intros ->. Qed.

Lemma write_file_run path c st :
  fs_allows W (trace st) path = true ->
  write_file W path c st = (Return tt, written path c st).
Proof. unfold write_file. now intros ->. Qed.

Lemma requests_get_run url timeout st r :
  http_get W (trace st) url = Replied r ->
  requests_get W url timeout st = (Return r, log (EvGet url timeout) st).
Proof. unfold requests_get. now intros ->. Qed.

(** A run whose catalog fetch succeeds reaches the write of the snapshot. *)
Lemma download_all_to_snapshot schedule fs emojis :
  catalog_served W emojis ->
  fs_allows W [] (OUTPUT_DIR W) = true ->
  download_all W schedule (start fs) =
  bind (write_file W (meta_path W) (FMetadata emojis))
       (fun _ => after_snapshot W schedule emojis)
       (State fs (catalog_events W emojis)).
Proof.
  intros [r [Hr [Hs Hj]]] Hmk. unfold download_all.
  rewrite (bind_return _ _ _ _ _ (makedirs_run _ (start fs) Hmk)).
  rewrite (bind_return _ _ _ tt (log (EvPrint LFetching)
             (log (EvMakedirs (OUTPUT_DIR W)) (start fs)))) by reflexivity.
  rewrite (bind_return _ _ _ _ _
             (requests_get_run DATA_URL None
                (log (EvPrint LFetching) (log (EvMakedirs (OUTPUT_DIR W)) (start fs)))
                r Hr)).
  rewrite Hs. cbn [Z.eqb Pos.eqb negb].
  unfold bind at 1. unfold lift at 1. rewrite Hj.
  reflexivity.
Qed.

Lemma appends_after_snapshot schedule emojis : appends (after_snapshot W schedule emojis).
Proof. unfold after_snapshot. appends_all. Qed.

(** In the history of a run whose catalog fetch succeeds, every request of
    [download_one] comes after the write of the whole catalog to
    [_metadata.json]. *)
Lemma snapshot_write_precedes_requests schedule fs emojis :
  catalog_served W emojis ->
  forall pre ev post,
    trace (snd (download_all W schedule (start fs))) = pre ++ ev :: post ->
    is_download_request ev = true ->
    In (EvWrite (meta_path W) (FMetadata emojis)) pre.
Proof.
  intros Hserved pre ev post.
  destruct (fs_allows W [] (OUTPUT_DIR W)) eqn:Hmk.
  - rewrite (download_all_to_snapshot schedule fs emojis Hserved Hmk).
    unfold bind at 1. unfold write_file at 1. cbn [trace files].
    destruct (fs_allows W _ (meta_path W)) eqn:Hw.
    + destruct (appends_after_snapshot schedule emojis
                  (State (<[meta_path W := FMetadata emojis]> fs)
                         (catalog_events W emojis
                          ++ [EvWrite (meta_path W) (FMetadata emojis)])))
        as [evs Hevs].
      rewrite Hevs. cbn [trace]. intros Heq Hev.
      destruct (split_after_prefix _ _ _ _ _ Heq) as [mid ->];
        [repeat constructor|exact Hev|].
      apply in_or_app. left. apply in_or_app. right. now left.
    + cbn [snd trace]. intros Heq Hev. exfalso.
      assert (Hin : In ev (catalog_events W emojis)).
      { rewrite Heq. apply in_or_app. right. now left. }
      cbn in Hin. repeat (destruct Hin as [<-|Hin]; [discriminate|]). exact Hin.
  - unfold download_all, bind at 1, makedirs at 1. cbn [start trace]. rewrite Hmk.
    cbn. intros H. destruct pre; discriminate.
Qed.

Lemma print_categories_run items st :
  print_categories items st
  = (Return tt, State (files st) (trace st ++ category_events items)).
Proof.
  revert st. induction items as [|[cat its] items IH]; intros st.
  - cbn. rewrite app_nil_r. now destruct st.
  - cbn [print_categories]. rewrite (bind_return _ _ _ tt (log (EvPrint (LCategory cat (length its))) st))
      by reflexivity.
    rewrite IH. cbn. now rewrite <- app_assoc.
Qed.

(** With well-formed entries and a writable index file, the run goes from
    the snapshot to its end: pool, counters, summary, index, listing. *)
Lemma after_snapshot_completes schedule emojis st :
  Forall has_required_keys emojis ->
  (forall h, fs_allows W h (cat_path W) = true) ->
  exists outs st1 c st2 cats,
    run_pool W schedule emojis (length emojis) (log (EvPrint LSavedMetadata) st)
    = (Return (map Return outs), st1) /\
    length outs = length (scheduled schedule emojis) /\
    collect (length emojis) (Counters 0 0 0 0) (map Return outs) st1 = (Return c, st2) /\
    tallies c outs /\
    build_categories emojis [] = Return cats /\
    keys cats = first_occurrences [] (flat_map categories_of emojis) /\
    after_snapshot W schedule emojis st
    = (Return tt,
       State (<[cat_path W := FCategories cats]> (files st2))
             (trace st2 ++ summary_events W c
              ++ [EvWrite (cat_path W) (FCategories cats);
                  EvPrint (LSavedIndex (length cats))]
              ++ category_events (sorted_items cats))).
Proof.
  intros Hwf Hw.
  destruct (run_pool_outcomes W schedule emojis (length emojis)
              (log (EvPrint LSavedMetadata) st) Hwf) as [outs [st1 [Hrun Hlen]]].
  destruct (collect_spec (length emojis) outs (Counters 0 0 0 0) st1)
    as [c [st2 [Hcol _]]].
  destruct (build_categories_keys emojis Hwf) as [cats [Hcats Hkeys]].
  exists outs, st1, c, st2, cats.
  split; [exact Hrun|]. split; [exact Hlen|]. split; [exact Hcol|].
  split; [exact (collect_tallies _ _ _ _ _ Hcol)|]. split; [exact Hcats|].
  split; [exact Hkeys|].
  unfold after_snapshot. cbv zeta.
  rewrite (bind_return _ _ _ tt (log (EvPrint LSavedMetadata) st)) by reflexivity.
  rewrite (bind_return _ _ _ _ _ Hrun).
  rewrite (bind_return _ _ _ _ _ Hcol).
  do 6 (erewrite bind_return by reflexivity).
  unfold bind at 1. unfold lift at 1. rewrite Hcats.
  erewrite bind_return by (apply write_file_run, Hw).
  erewrite bind_return by reflexivity.
  rewrite print_categories_run. cbn [files trace written log summary_events].
  rewrite <- !app_assoc. reflexivity.
Qed.

(** The whole run, under the same conditions. *)
Lemma download_all_completes schedule fs emojis :
  catalog_served W emojis ->
  index_files_writable W ->
  Forall has_required_keys emojis ->
  exists outs st1 c st2 cats,
    run_pool W schedule emojis (length emojis)
      (log (EvPrint LSavedMetadata)
         (written (meta_path W) (FMetadata emojis) (State fs (catalog_events W emojis))))
    = (Return (map Return outs), st1) /\
    length outs = length (scheduled schedule emojis) /\
    collect (length emojis) (Counters 0 0 0 0) (map Return outs) st1 = (Return c, st2) /\
    tallies c outs /\
    build_categories emojis [] = Return cats /\
    keys cats = first_occurrences [] (flat_map categories_of emojis) /\
    download_all W schedule (start fs)
    = (Return tt,
       State (<[cat_path W := FCategories cats]> (files st2))
             (trace st2 ++ summary_events W c
              ++ [EvWrite (cat_path W) (FCategories cats);
                  EvPrint (LSavedIndex (length cats))]
              ++ category_events (sorted_items cats))).
Proof.
  intros Hserved [Hmk [Hmeta Hcat]] Hwf.
  rewrite (download_all_to_snapshot schedule fs emojis Hserved Hmk).
  erewrite bind_return by (apply write_file_run, Hmeta).
  destruct (after_snapshot_completes schedule emojis
              (written (meta_path W) (FMetadata emojis) (State fs (catalog_events W emojis)))
              Hwf Hcat)
    as (outs & st1 & c & st2 & cats & Hrun & Hlen & Hcol & Htal & Hcats & Hkeys & ->).
  now exists outs, st1, c, st2, cats.
Qed.

(** Claim C3, as the code has it.  A catalog request answered with a status
    other than 200 makes the run print the failure and return: nothing is
    downloaded or written, and the exit status is 0.  The exit status is not
    0 when the catalog request itself raises.  When the catalog fetch
    succeeds (entries with their required keys, index files writable), the
    run returns with exit status 0 after printing the summary, whatever the
    item requests answer. *)
Theorem exit_behaviour schedule fs :
  fs_allows W [] (OUTPUT_DIR W) = true ->
  (forall r,
     http_get W (catalog_history W) DATA_URL = Replied r ->
     status_code r <> 200%Z ->
     download_all W schedule (start fs)
     = (Return tt,
        State fs (catalog_history W
                  ++ [EvGet DATA_URL None; EvPrint (LCatalogFailed (status_code r))])) /\
     exit_status (fst (download_all W schedule (start fs))) = 0%Z) /\
  (forall what,
     http_get W (catalog_history W) DATA_URL = Fault what ->
     download_all W schedule (start fs)
     = (Raise (RequestException what),
        State fs (catalog_history W ++ [EvGet DATA_URL None])) /\
     exit_status (fst (download_all W schedule (start fs))) = 1%Z) /\
  (forall emojis,
     catalog_served W emojis ->
     index_files_writable W ->
     Forall has_required_keys emojis ->
     exists c st' pre post,
       download_all W schedule (start fs) = (Return tt, st') /\
       trace st' = pre ++ summary_events W c ++ post /\
       exit_status (fst (download_all W schedule (start fs))) = 0%Z).
Proof.
  intros Hmk. split; [|split].
  - intros r Hr Hs.
    assert (H : download_all W schedule (start fs)
                = (Return tt,
                   State fs (catalog_history W
                     ++ [EvGet DATA_URL None; EvPrint (LCatalogFailed (status_code r))]))).
    { unfold download_all.
      rewrite (bind_return _ _ _ _ _ (makedirs_run _ (start fs) Hmk)).
      rewrite (bind_return _ _ _ tt (log (EvPrint LFetching)
                 (log (EvMakedirs (OUTPUT_DIR W)) (start fs)))) by reflexivity.
      rewrite (bind_return _ _ _ _ _
                 (requests_get_run DATA_URL None
                    (log (EvPrint LFetching) (log (EvMakedirs (OUTPUT_DIR W)) (start fs)))
                    r Hr)).
      apply Z.eqb_neq in Hs. rewrite Hs. reflexivity. }
    rewrite H. split; reflexivity.
  - intros what Hf.
    assert (H : download_all W schedule (start fs)
                = (Raise (RequestException what),
                   State fs (catalog_history W ++ [EvGet DATA_URL None]))).
    { unfold download_all.
      rewrite (bind_return _ _ _ _ _ (makedirs_run _ (start fs) Hmk)).
      rewrite (bind_return _ _ _ tt (log (EvPrint LFetching)
                 (log (EvMakedirs (OUTPUT_DIR W)) (start fs)))) by reflexivity.
      apply bind_raise. unfold requests_get. cbn [trace log start app].
      change [EvMakedirs (OUTPUT_DIR W); EvPrint LFetching] with (catalog_history W).
      now rewrite Hf. }
    rewrite H. split; reflexivity.
  - intros emojis Hserved Hwr Hwf.
    destruct (download_all_completes schedule fs emojis Hserved Hwr Hwf)
      as (outs & st1 & c & st2 & cats & _ & _ & _ & _ & _ & _ & H).
    rewrite H. eexists c, _, (trace st2), _.
    split; [reflexivity|]. split; reflexivity.
Qed.

(** Claim C4, as the code has it.  The persisted [_categories.json] holds
    the categories in the order in which the catalog first names them (the
    insertion order of the dict); sorted by name is the listing printed at
    the end of the run, which has the same categories. *)
Theorem persisted_index_order schedule fs emojis :
  catalog_served W emojis ->
  index_files_writable W ->
  Forall has_required_keys emojis ->
  exists cats st' pre,
    download_all W schedule (start fs) = (Return tt, st') /\
    build_categories emojis [] = Return cats /\
    files st' !! cat_path W = Some (FCategories cats) /\
    keys cats = first_occurrences [] (flat_map categories_of emojis) /\
    trace st' = pre ++ category_events (sorted_items cats) /\
    name_sorted (keys (sorted_items cats)) /\
    Permutation (sorted_items cats) cats.
Proof.
  intros Hserved Hwr Hwf.
  destruct (download_all_completes schedule fs emojis Hserved Hwr Hwf)
    as (outs & st1 & c & st2 & cats & _ & _ & _ & _ & Hcats & Hkeys & H).
  rewrite H. eexists cats, _, _.
  split; [reflexivity|]. split; [exact Hcats|].
  split; [cbn; apply lookup_insert_eq|]. split; [exact Hkeys|].
  split; [cbn [trace]; rewrite !app_assoc; reflexivity|].
  split; [apply sorted_items_name_sorted|apply sorted_items_perm].
Qed.

End Run.

(** ** The destination key *)

Section Key.

Variable W : world.

(** Claim C8, as the code has it.  The destination key depends on the entry
    alone: it is the codepoint, an underscore, and the first tag (the name
    when there is no tag) without its leading and its trailing colons and
    with every hyphen replaced by an underscore; that middle part is
    unique.  The file that [download_one] looks for and writes is the key
    followed by [.json], in the output directory. *)
Theorem destination_key_normalised e cp nm :
  codepoint e = Some cp -> name e = Some nm ->
  exists l m r,
    first_tag e nm = l +:+ m +:+ r /\
    Py.all_char ":" l = true /\ Py.all_char ":" r = true /\
    Py.startswith ":" m = false /\ Py.endswith ":" m = false /\
    destination_key e = Return (cp +:+ "_" +:+ Py.replace "-" "_" m) /\
    filepath_of W cp (first_tag e nm)
    = Py.path_join (OUTPUT_DIR W) ((cp +:+ "_" +:+ Py.replace "-" "_" m) +:+ ".json") /\
    (tags e = None \/ tags e = Some [] -> first_tag e nm = nm) /\
    (forall t ts, tags e = Some (t :: ts) -> first_tag e nm = t) /\
    (forall l' m' r',
       first_tag e nm = l' +:+ m' +:+ r' ->
       Py.all_char ":" l' = true -> Py.all_char ":" r' = true ->
       Py.startswith ":" m' = false -> Py.endswith ":" m' = false ->
       m' = m).
Proof.
  intros Hcp Hnm.
  destruct (PyFacts.strip_split ":" (first_tag e nm)) as (l & r & Hl & Hr & Heq & Hs & He).
  exists l, (Py.strip ":" (first_tag e nm)), r.
  split; [exact Heq|]. split; [exact Hl|]. split; [exact Hr|].
  split; [exact Hs|]. split; [exact He|].
  split; [|split; [|split; [|split]]].
  - unfold destination_key. rewrite Hcp, Hnm. reflexivity.
  - reflexivity.
  - unfold first_tag. intros [-> | ->]; reflexivity.
  - unfold first_tag. intros t ts ->. reflexivity.
  - intros l' m' r' Heq' Hl' Hr' Hs' He'. rewrite Heq'.
    symmetry. now apply PyFacts.strip_middle.
Qed.

End Key.

(** ** The claims on the sample catalog *)

(** Claim C2 as stated fails on the sample: the size of the 7-byte body
    fetched through the fallback URL is 7/1024, not 7, since the third
    component of the [ok] outcome counts kilobytes. *)
Lemma fallback_payload_size_is_kilobytes :
  files (start ∅) !! filepath_of demo_world "1f9d1 200d 1f3a8" ":artist:" = None /\
  http_get demo_world [] (primary_url "1f9d1 200d 1f3a8") = Replied (Response 404 []) /\
  http_get demo_world [EvGet (primary_url "1f9d1 200d 1f3a8") (Some 20%Z)]
    (fallback_url "1f9d1 200d 1f3a8") = Replied (Response 200 PAYLOAD) /\
  length PAYLOAD = 7 /\
  fst (download_one demo_world demo_artist 0 4 (start ∅))
  = Return ("ok", MSize ":artist:" (7 # 1024), (7 # 1024)%Q) /\
  ~ (7 # 1024 == inject_Z 7)%Q.
Proof.
  repeat split; try reflexivity. intros H. vm_compute in H. discriminate H.
Qed.

(** C2 on the sample: the artist, fetched through the fallback URL. *)
Lemma fallback_stores_payload_witness :
  exists size_kb st',
    download_one demo_world demo_artist 0 4 (start ∅)
    = (Return ("ok", MSize ":artist:" size_kb, size_kb), st') /\
    (size_kb * 1024 == inject_Z (Z.of_nat (length PAYLOAD)))%Q /\
    files st' !! filepath_of demo_world "1f9d1 200d 1f3a8" ":artist:"
    = Some (FBytes PAYLOAD) /\
    requests_of (drop (length (trace (start ∅))) (trace st'))
    = [primary_url "1f9d1 200d 1f3a8"; fallback_url "1f9d1 200d 1f3a8"].
Proof.
  apply (fallback_stores_payload demo_world demo_artist 0 4 (start ∅)
           "1f9d1 200d 1f3a8" "artist" (Response 404 []) (Response 200 PAYLOAD));
    try reflexivity.
  cbn. lia.
Defined.

(** Claim C1 as stated fails on the sample: the entry whose [categories]
    list is empty is under no category, and so not under ["Other"]. *)
Lemma empty_categories_not_indexed :
  categories demo_blank = Some [] /\
  exists d s,
    build_categories demo_catalog [] = Return d /\
    summary_of demo_blank = Return s /\
    keys d = ["People"; "Faces"; "Other"] /\
    ~ In s (entries "People" d) /\ ~ In s (entries "Faces" d) /\
    ~ In s (entries "Other" d).
Proof.
  split; [reflexivity|]. eexists _, _.
  split; [reflexivity|]. split; [reflexivity|]. split; [reflexivity|].
  cbn. repeat split; intros H; repeat (destruct H as [H|H]; [discriminate H|]);
    exact H.
Qed.

Lemma demo_catalog_keys : Forall has_required_keys demo_catalog.
Proof. repeat constructor; eexists; reflexivity. Defined.

(** C1 on the sample: the clock has no [categories], the square an empty
    list. *)
Lemma uncategorised_goes_to_other_witness :
  (exists d d0 s before after,
     build_categories ([demo_artist; demo_smile] ++ demo_clock :: [demo_blank]) [] = Return d /\
     build_categories ([demo_artist; demo_smile] ++ [demo_blank]) [] = Return d0 /\
     summary_of demo_clock = Return s /\
     dict_get "Other" d = Some (before ++ s :: after) /\
     entries "Other" d0 = before ++ after /\
     forall cat, cat <> "Other" -> dict_get cat d = dict_get cat d0) /\
  build_categories ([demo_artist; demo_smile; demo_clock] ++ demo_blank :: []) []
  = build_categories ([demo_artist; demo_smile; demo_clock] ++ []) [].
Proof.
  split.
  - apply (proj1 (uncategorised_goes_to_other [demo_artist; demo_smile] demo_clock
                    [demo_blank] demo_catalog_keys)).
    reflexivity.
  - apply (proj2 (uncategorised_goes_to_other [demo_artist; demo_smile; demo_clock]
                    demo_blank [] demo_catalog_keys)).
    reflexivity.
Defined.

(** Claim C3 as stated fails here: the catalog request is answered 503,
    and the exit status is 0. *)
Lemma failed_catalog_exits_zero :
  http_get down_world (catalog_history down_world) DATA_URL = Replied (Response 503 []) /\
  download_all down_world [] (start ∅)
  = (Return tt,
     State ∅ [EvMakedirs "/repo/assets/reactions/noto"; EvPrint LFetching;
              EvGet DATA_URL None; EvPrint (LCatalogFailed 503)]) /\
  exit_status (fst (download_all down_world [] (start ∅))) = 0%Z.
Proof. repeat split; reflexivity. Qed.

Lemma demo_world_served : catalog_served demo_world demo_catalog.
Proof. exists (Response 200 []). repeat split; reflexivity. Defined.

Lemma demo_world_writable : index_files_writable demo_world.
Proof. repeat split; reflexivity. Defined.

(** C3 on the samples: a refused catalog, an unreachable one, a served one. *)
Lemma exit_behaviour_witness :
  exit_status (fst (download_all down_world [] (start ∅))) = 0%Z /\
  exit_status (fst (download_all offline_world [] (start ∅))) = 1%Z /\
  exists c st' pre post,
    download_all demo_world [1; 0; 2; 3] (start ∅) = (Return tt, st') /\
    trace st' = pre ++ summary_events demo_world c ++ post /\
    exit_status (fst (download_all demo_world [1; 0; 2; 3] (start ∅))) = 0%Z.
Proof.
  split; [|split].
  - apply (proj1 (exit_behaviour down_world [] ∅ ltac:(reflexivity)) (Response 503 [])).
    + reflexivity.
    + cbn. lia.
  - apply (proj1 (proj2 (exit_behaviour offline_world [] ∅ ltac:(reflexivity)))
             "connection refused").
    reflexivity.
  - apply (proj2 (proj2 (exit_behaviour demo_world [1; 0; 2; 3] ∅ ltac:(reflexivity)))
             demo_catalog).
    + exact demo_world_served.
    + exact demo_world_writable.
    + exact demo_catalog_keys.
Defined.

(** Claim C4 as stated fails on the sample: the persisted index starts
    with ["People"], before ["Faces"], so it is not sorted by name. *)
Lemma persisted_index_not_sorted :
  exists cats,
    demo_files_after_run !! cat_path demo_world = Some (FCategories cats) /\
    keys cats = ["People"; "Faces"; "Other"] /\
    ~ name_sorted (keys cats).
Proof.
  eexists. split; [vm_compute; reflexivity|]. split; [reflexivity|].
  intros H. specialize (H 1 0 "Faces" "People" eq_refl eq_refl eq_refl). lia.
Qed.

(** C4 on the sample run. *)
Lemma persisted_index_order_witness :
  exists cats st' pre,
    download_all demo_world [1; 0; 2; 3] (start ∅) = (Return tt, st') /\
    build_categories demo_catalog [] = Return cats /\
    files st' !! cat_path demo_world = Some (FCategories cats) /\
    keys cats = first_occurrences [] (flat_map categories_of demo_catalog) /\
    trace st' = pre ++ category_events (sorted_items cats) /\
    name_sorted (keys (sorted_items cats)) /\
    Permutation (sorted_items cats) cats.
Proof.
  apply (persisted_index_order demo_world [1; 0; 2; 3] ∅ demo_catalog).
  - exact demo_world_served.
  - exact demo_world_writable.
  - exact demo_catalog_keys.
Defined.

(** C5 on the sample: the request for the clock times out. *)
Lemma primary_fault_short_circuits_witness :
  exists o st' evs,
    download_one demo_world demo_clock 2 4 (start ∅) = (Return o, st') /\
    trace st' = trace (start ∅) ++ evs /\
    (forall what, http_get demo_world (trace (start ∅)) (primary_url "23f0") = Fault what ->
       o = ("error", MExn "alarm-clock" (RequestException what), 0%Q) /\
       evs = [EvGet (primary_url "23f0") (Some 20%Z)]) /\
    (requests_of evs = [primary_url "23f0"; fallback_url "23f0"] <->
       exists r, http_get demo_world (trace (start ∅)) (primary_url "23f0") = Replied r /\
                 status_code r <> 200%Z) /\
    (requests_of evs = [primary_url "23f0"; fallback_url "23f0"] \/
     requests_of evs = [primary_url "23f0"]).
Proof.
  apply (primary_fault_short_circuits demo_world demo_clock 2 4 (start ∅)
           "23f0" "alarm-clock"); reflexivity.
Defined.

Lemma demo_artist_stored :
  is_Some (files (start demo_files_after_run)
           !! filepath_of demo_world "1f9d1 200d 1f3a8" (first_tag demo_artist "artist")).
Proof. vm_compute. eexists. reflexivity. Defined.

(** C6 on the sample: the artist, in the directory a first run left. *)
Lemma existing_file_is_skipped_witness :
  download_one demo_world demo_artist 0 4 (start demo_files_after_run)
  = (Return ("skipped", MName "artist", 0%Q), start demo_files_after_run) /\
  exists rs st',
    run_pool demo_world [1; 0; 2; 3] demo_catalog 4 (start demo_files_after_run)
    = (Return rs, st') /\
    rs !! 1 = Some (Return ("skipped", MName "artist", 0%Q)).
Proof.
  destruct (existing_file_is_skipped demo_world demo_artist "1f9d1 200d 1f3a8" "artist"
              eq_refl eq_refl) as [Hone Hrun].
  split.
  - apply Hone. exact demo_artist_stored.
  - apply Hrun; [reflexivity|exact demo_artist_stored].
Defined.

(** A second run over the sample catalog, in the directory the first run
    left: the two entries that were stored are skipped. *)
Lemma second_run_skips :
  fst (run_pool demo_world [1; 0; 2; 3] demo_catalog 4 (start demo_files_after_run))
  = Return [Return ("skipped", MName "grinning face", 0%Q);
            Return ("skipped", MName "artist", 0%Q);
            Return ("error", MExn "alarm-clock" (RequestException "timed out"), 0%Q);
            Return ("failed", MHttp "white square" 500%Z, 0%Q)].
Proof. vm_compute. reflexivity. Qed.

(** C10 on the samples: a fallback request that times out, a write refused
    after the primary response, a write refused after the fallback
    response; each exception is caught and the call returns [error]. *)
Lemma download_one_total_witness :
  (exists msg size st',
     download_one flaky_world demo_smile 0 4 (start ∅)
     = (Return ("error", msg, size), st')) /\
  (exists msg size st',
     download_one full_disk_world demo_smile 0 4 (start ∅)
     = (Return ("error", msg, size), st')) /\
  (exists msg size st',
     download_one full_disk_world demo_artist 0 4 (start ∅)
     = (Return ("error", msg, size), st')).
Proof.
  split; [|split].
  - destruct (download_one_total flaky_world demo_smile 0 4 (start ∅))
      as (status & msg & size & st' & Hrun & _ & Hfault);
      [split; eexists; reflexivity|].
    destruct (Hfault "1f600" "grinning face" (Response 404 [])
                eq_refl eq_refl eq_refl eq_refl) as (Hfallback & _ & _).
    rewrite Hfallback in Hrun.
    + exists msg, size, st'. exact Hrun.
    + cbn. lia.
    + exists "timed out". reflexivity.
  - destruct (download_one_total full_disk_world demo_smile 0 4 (start ∅))
      as (status & msg & size & st' & Hrun & _ & Hfault);
      [split; eexists; reflexivity|].
    destruct (Hfault "1f600" "grinning face" (Response 200 PAYLOAD)
                eq_refl eq_refl eq_refl eq_refl) as (_ & Hwrite & _).
    rewrite Hwrite in Hrun.
    + exists msg, size, st'. exact Hrun.
    + reflexivity.
    + reflexivity.
  - destruct (download_one_total full_disk_world demo_artist 0 4 (start ∅))
      as (status & msg & size & st' & Hrun & _ & Hfault);
      [split; eexists; reflexivity|].
    destruct (Hfault "1f9d1 200d 1f3a8" "artist" (Response 404 [])
                eq_refl eq_refl eq_refl eq_refl) as (_ & _ & Hwrite).
    rewrite Hwrite in Hrun.
    + exists msg, size, st'. exact Hrun.
    + cbn. lia.
    + exists (Response 200 PAYLOAD). split; reflexivity.
    + reflexivity.
Defined.

(** Claim C8 as stated fails on the sample: the tag [:smile:] loses both
    colons, where stripping a prefix would leave the trailing one. *)
Lemma trailing_colon_is_stripped_too :
  destination_key demo_smile = Return "1f600_smile" /\
  spec_key_one "1f600" ":smile:" = "1f600_smile:" /\
  spec_key_all "1f600" ":smile:" = "1f600_smile:" /\
  destination_key demo_smile <> Return (spec_key_one "1f600" ":smile:") /\
  destination_key demo_smile <> Return (spec_key_all "1f600" ":smile:").
Proof. repeat split; try reflexivity; discriminate. Qed.

(** C8 on the sample: the key of the smile. *)
Lemma destination_key_normalised_witness :
  exists l m r,
    first_tag demo_smile "grinning face" = l +:+ m +:+ r /\
    Py.all_char ":" l = true /\ Py.all_char ":" r = true /\
    Py.startswith ":" m = false /\ Py.endswith ":" m = false /\
    destination_key demo_smile = Return ("1f600" +:+ "_" +:+ Py.replace "-" "_" m) /\
    filepath_of demo_world "1f600" (first_tag demo_smile "grinning face")
    = Py.path_join (OUTPUT_DIR demo_world)
        (("1f600" +:+ "_" +:+ Py.replace "-" "_" m) +:+ ".json") /\
    (tags demo_smile = None \/ tags demo_smile = Some [] ->
     first_tag demo_smile "grinning face" = "grinning face") /\
    (forall t ts, tags demo_smile = Some (t :: ts) ->
                  first_tag demo_smile "grinning face" = t) /\
    (forall l' m' r',
       first_tag demo_smile "grinning face" = l' +:+ m' +:+ r' ->
       Py.all_char ":" l' = true -> Py.all_char ":" r' = true ->
       Py.startswith ":" m' = false -> Py.endswith ":" m' = false ->
       m' = m).
Proof.
  apply (destination_key_normalised demo_world demo_smile "1f600" "grinning face");
    reflexivity.
Defined.

(** What the served catalog must provide for the run to complete: an entry
    without a name makes its call raise, and the exception escapes the loop
    of line 98; a refused snapshot stops the run before any download. *)
Lemma missing_name_aborts_run :
  catalog_served nameless_world [Emoji (Some "1f600") None None None None] /\
  fst (download_all nameless_world [0] (start ∅)) = Raise (KeyError "name") /\
  exit_status (fst (download_all nameless_world [0] (start ∅))) = 1%Z.
Proof.
  split; [exists (Response 200 []); repeat split; reflexivity|].
  split; reflexivity.
Qed.

Lemma refused_snapshot_aborts_run :
  catalog_served readonly_world demo_catalog /\
  download_all readonly_world [0; 1; 2; 3] (start ∅)
  = (Raise (OSError "/repo/assets/reactions/noto/_metadata.json"),
     State ∅ (catalog_events readonly_world demo_catalog)).
Proof.
  split; [exists (Response 200 []); repeat split; reflexivity|]. reflexivity.
Qed.

(** * Further properties of the script *)

(** ** File names and URLs *)

Section Names.

Import Py.

Lemma append_nil_r s : s +:+ "" = s.
Proof. induction s as [|a s IH]; [reflexivity|]. rewrite PyFacts.append_cons. now f_equal. Qed.


Lemma length_append s t : String.length (s +:+ t) = String.length s + String.length t.
Proof. induction s as [|a s IH]; [reflexivity|]. rewrite PyFacts.append_cons. cbn. now rewrite IH. Qed.

Lemma append_inj_l s t u : s +:+ t = s +:+ u -> t = u.
Proof.
  induction s as [|a s IH]; [trivial|]. rewrite !PyFacts.append_cons. intros [= H]. auto.
Qed.

Lemma append_inj_r s :
  forall t u v, String.length s = String.length t -> s +:+ u = t +:+ v -> s = t.
Proof.
  induction s as [|a s IH]; intros [|b t] u v Hlen; try discriminate; [reflexivity|].
  rewrite !PyFacts.append_cons. intros [= -> H]. f_equal.
  apply (IH t u v); [now injection Hlen|exact H].
Qed.

Lemma startswith_replace c old new s :
  Ascii.eqb old c = false -> Ascii.eqb new c = false ->
  startswith c (replace old new s) = startswith c s.
Proof.
  intros Ho Hn. destruct s as [|a s]; [reflexivity|]. cbn.
  destruct (Ascii.eqb a old) eqn:E; [|reflexivity].
  apply Ascii.eqb_eq in E. subst a. now rewrite Ho, Hn.
Qed.

Lemma endswith_replace c old new s :
  Ascii.eqb old c = false -> Ascii.eqb new c = false ->
  endswith c (replace old new s) = endswith c s.
Proof.
  intros Ho Hn. induction s as [|a s IH]; [reflexivity|].
  destruct s as [|b s].
  - cbn. destruct (Ascii.eqb a old) eqn:E; [|reflexivity].
    apply Ascii.eqb_eq in E. subst a. now rewrite Ho, Hn.
  - exact IH.
Qed.

Lemma contains_replace old new s :
  Ascii.eqb new old = false -> contains old (replace old new s) = false.
Proof.
  intros Hn. induction s as [|a s IH]; [reflexivity|]. cbn. rewrite IH.
  destruct (Ascii.eqb a old) eqn:E; [now rewrite Hn|now rewrite E].
Qed.

Lemma replace_absent old new s : contains old s = false -> replace old new s = s.
Proof.
  induction s as [|a s IH]; [reflexivity|]. cbn.
  intros [Ha Hs]%orb_false_iff. rewrite Ha. f_equal. auto.
Qed.

Lemma replace_fixed_absent old new s :
  Ascii.eqb new old = false -> replace old new s = s -> contains old s = false.
Proof. intros Hn <-. now apply contains_replace. Qed.

Lemma strip_clean c s :
  startswith c s = false -> endswith c s = false -> strip c s = s.
Proof.
  intros Hs He.
  rewrite <- (append_nil_r s) at 1.
  change (s +:+ "") with ("" +:+ s +:+ ""). now apply PyFacts.strip_middle.
Qed.

Lemma strip_length c s : String.length (strip c s) <= String.length s.
Proof.
  destruct (PyFacts.strip_split c s) as (l & r & _ & _ & Heq & _).
  rewrite Heq at 2. rewrite !length_append. lia.
Qed.

(** X1.  The tag part of a file name is clean and stable: after
    [strip(':').replace('-', '_')] no hyphen is left, no colon leads or
    trails, the text is not longer than the tag, and normalising it again
    changes nothing. *)
Theorem normalized_tag_clean tag :
  contains "-" (normalized_tag tag) = false /\
  startswith ":" (normalized_tag tag) = false /\
  endswith ":" (normalized_tag tag) = false /\
  String.length (normalized_tag tag) <= String.length tag /\
  normalized_tag (normalized_tag tag) = normalized_tag tag.
Proof.
  destruct (PyFacts.strip_split ":" tag) as (l & r & _ & _ & _ & Hs & He).
  unfold normalized_tag.
  assert (Hs' : startswith ":" (replace "-" "_" (strip ":" tag)) = false)
    by now rewrite startswith_replace.
  assert (He' : endswith ":" (replace "-" "_" (strip ":" tag)) = false)
    by now rewrite endswith_replace.
  assert (Hc : contains "-" (replace "-" "_" (strip ":" tag)) = false)
    by now apply contains_replace.
  repeat split; try assumption.
  - rewrite PyFacts.replace_length. apply strip_length.
  - rewrite (strip_clean ":" _ Hs' He'). now apply replace_absent.
Qed.

(** X2.  The fallback URL differs from the primary URL exactly when the
    codepoint contains a space: for a codepoint without spaces the second
    attempt asks for the same URL again. *)
Theorem fallback_url_same_iff_no_space cp :
  fallback_url cp = primary_url cp <-> contains " " cp = false.
Proof.
  unfold fallback_url, primary_url. split.
  - intros H. apply append_inj_l, append_inj_l in H.
    apply append_inj_r in H; [|apply PyFacts.replace_length].
    now apply (replace_fixed_absent " " "_").
  - intros H. now rewrite replace_absent.
Qed.






End Names.

(** ** One download, further *)

Section OneDownload.

Variable W : world.

Lemma trace_request_all urls st :
  trace (request_all urls st) = trace st ++ map (fun u => EvGet u (Some 20%Z)) urls.
Proof.
  revert st. induction urls as [|u urls IH]; intros st; cbn.
  - now rewrite app_nil_r.
  - rewrite IH. cbn. now rewrite <- app_assoc.
Qed.

Lemma files_request_all urls st : files (request_all urls st) = files st.
Proof. revert st. induction urls as [|u urls IH]; intros st; cbn; [reflexivity|now rewrite IH]. Qed.

(** Every call on an entry with its keys is a sequence of at most two
    requests followed by at most one write. *)
Lemma download_one_effect e index total st cp nm :
  codepoint e = Some cp -> name e = Some nm ->
  exists urls body o,
    download_one W e index total st
    = (Return o, finish (filepath_of W cp (first_tag e nm)) body (request_all urls st)) /\
    (urls = [] \/ urls = [primary_url cp] \/ urls = [primary_url cp; fallback_url cp]) /\
    (urls = [] <-> is_Some (files st !! filepath_of W cp (first_tag e nm))) /\
    (status_of o = "skipped" <-> urls = []) /\
    match body with
    | Some b => o = ("ok", MSize (first_tag e nm) (size_kb_of b), size_kb_of b) /\ urls <> []
    | None => status_of o <> "ok" /\ size_of o = 0%Q
    end.
Proof.
  intros Hcp Hnm.
  rewrite (download_one_unfold W _ index total st cp nm Hcp Hnm). cbv zeta.
  destruct (bool_decide _) eqn:Hpresent.
  { apply bool_decide_eq_true in Hpresent.
    exists [], None, ("skipped", MName nm, 0%Q). cbn.
    repeat split; auto; discriminate. }
  apply bool_decide_eq_false in Hpresent.
  assert (Hne1 : forall u : string, [u] = [] <-> is_Some (files st !! filepath_of W cp (first_tag e nm)))
    by (intros u; split; [discriminate|intros H; contradiction]).
  assert (Hne2 : forall u v : string, [u; v] = [] <-> is_Some (files st !! filepath_of W cp (first_tag e nm)))
    by (intros u v; split; [discriminate|intros H; contradiction]).
  destruct (http_get W (trace st) (primary_url cp)) as [r|what].
  - destruct (status_code r =? 200)%Z.
    + unfold stored. destruct (fs_allows W _ _).
      * exists [primary_url cp], (Some (content r)). eexists. cbn.
        split; [reflexivity|]. split; [auto|]. split; [apply Hne1|].
        split; [split; discriminate|]. split; [reflexivity|discriminate].
      * exists [primary_url cp], None. eexists. cbn.
        split; [reflexivity|]. split; [auto|]. split; [apply Hne1|].
        split; [split; discriminate|]. split; [discriminate|reflexivity].
    + destruct (http_get W _ (fallback_url cp)) as [r2|what].
      * destruct (status_code r2 =? 200)%Z; [unfold stored; destruct (fs_allows W _ _)|].
        -- exists [primary_url cp; fallback_url cp], (Some (content r2)). eexists. cbn.
           split; [reflexivity|]. split; [auto|]. split; [apply Hne2|].
           split; [split; discriminate|]. split; [reflexivity|discriminate].
        -- exists [primary_url cp; fallback_url cp], None. eexists. cbn.
           split; [reflexivity|]. split; [auto|]. split; [apply Hne2|].
           split; [split; discriminate|]. split; [discriminate|reflexivity].
        -- exists [primary_url cp; fallback_url cp], None. eexists. cbn.
           split; [reflexivity|]. split; [auto|]. split; [apply Hne2|].
           split; [split; discriminate|]. split; [discriminate|reflexivity].
      * exists [primary_url cp; fallback_url cp], None. eexists. cbn.
        split; [reflexivity|]. split; [auto|]. split; [apply Hne2|].
        split; [split; discriminate|]. split; [discriminate|reflexivity].
  - exists [primary_url cp], None. eexists. cbn.
    split; [reflexivity|]. split; [auto|]. split; [apply Hne1|].
    split; [split; discriminate|]. split; [discriminate|reflexivity].
Qed.

Lemma files_finish path body st :
  files (finish path body st) =
  match body with
  | Some b => <[path := FBytes b]> (files st)
  | None => files st
  end.
Proof. now destruct body. Qed.

(** What a call does to the files: nothing, or one new file, the
    destination, holding the body of an [ok] outcome. *)
Lemma download_one_files e index total st :
  exists r st',
    download_one W e index total st = (r, st') /\
    (files st' = files st \/
     exists cp nm b,
       codepoint e = Some cp /\ name e = Some nm /\
       files st !! filepath_of W cp (first_tag e nm) = None /\
       files st' = <[filepath_of W cp (first_tag e nm) := FBytes b]> (files st) /\
       r = Return ("ok", MSize (first_tag e nm) (size_kb_of b), size_kb_of b)).
Proof.
  destruct (codepoint e) as [cp|] eqn:Hcp; [destruct (name e) as [nm|] eqn:Hnm|].
  - destruct (download_one_effect e index total st cp nm Hcp Hnm)
      as (urls & body & o & Hrun & _ & Hurls & _ & Hbody).
    eexists _, _. split; [exact Hrun|].
    rewrite files_finish, files_request_all. destruct body as [b|]; [|now left].
    right. destruct Hbody as [-> Hne]. exists cp, nm, b.
    repeat split; try reflexivity.
    destruct (files st !! filepath_of W cp (first_tag e nm)) eqn:E; [|reflexivity].
    exfalso. apply Hne, Hurls. eauto.
  - destruct (download_one_keyerror W e index total st (or_intror Hnm)) as [k ->].
    eexists _, _. split; [reflexivity|now left].
  - destruct (download_one_keyerror W e index total st (or_introl Hcp)) as [k ->].
    eexists _, _. split; [reflexivity|now left].
Qed.

(** Existing files are kept by a call. *)
Lemma existing_files_kept e index total st :
  forall p c,
    files st !! p = Some c ->
    files (snd (download_one W e index total st)) !! p = Some c.
Proof.
  destruct (download_one_files e index total st) as (r & st' & -> & Hfiles).
  cbn [snd]. destruct Hfiles as [->|(cp & nm & b & Hcp & Hnm & Habs & -> & ->)]; [auto|].
  intros p c Hp. rewrite lookup_insert_ne; [exact Hp|]. intros <-. congruence.
Qed.

(** X4.  [download_one] never changes or removes a file that exists; the
    only path at which it can leave a new file is the destination of its
    entry; and when it reports [ok], the destination was absent, one of its
    two requests (the fallback one only after a primary answer other than
    200) was answered with status 200, the destination holds the body of
    that very response, and the size reported is the length of that body in
    kilobytes. *)
Theorem download_one_keeps_files e index total st :
  (forall p c,
     files st !! p = Some c ->
     files (snd (download_one W e index total st)) !! p = Some c) /\
  (forall p,
     files st !! p = None ->
     is_Some (files (snd (download_one W e index total st)) !! p) ->
     exists cp nm,
       codepoint e = Some cp /\ name e = Some nm /\
       p = filepath_of W cp (first_tag e nm)) /\
  (forall msg size,
     fst (download_one W e index total st) = Return ("ok", msg, size) ->
     exists cp nm r,
       codepoint e = Some cp /\ name e = Some nm /\
       files st !! filepath_of W cp (first_tag e nm) = None /\
       (http_get W (trace st) (primary_url cp) = Replied r \/
        exists r1,
          http_get W (trace st) (primary_url cp) = Replied r1 /\
          status_code r1 <> 200%Z /\
          http_get W (trace (requested (primary_url cp) st)) (fallback_url cp)
          = Replied r) /\
       status_code r = 200%Z /\
       files (snd (download_one W e index total st))
         !! filepath_of W cp (first_tag e nm)
       = Some (FBytes (content r)) /\
       msg = MSize (first_tag e nm) (size_kb_of (content r)) /\
       size = size_kb_of (content r)).
Proof.
  split; [|split].
  - intros p c. apply existing_files_kept.
  - destruct (download_one_files e index total st) as (r & st' & -> & Hfiles).
    cbn [snd]. destruct Hfiles as [->|(cp & nm & b & Hcp & Hnm & Habs & -> & ->)].
    + intros p -> [c Hc]. discriminate.
    + intros p Hp Hsome. exists cp, nm. split; [exact Hcp|]. split; [exact Hnm|].
      destruct (decide (filepath_of W cp (first_tag e nm) = p)) as [<-|Hne];
        [reflexivity|].
      rewrite lookup_insert_ne in Hsome by exact Hne. rewrite Hp in Hsome.
      destruct Hsome as [c Hc]. discriminate.
  - intros msg size.
    destruct (codepoint e) as [cp|] eqn:Hcp.
    2:{ destruct (download_one_keyerror W e index total st) as [k ->];
          [now left|discriminate]. }
    destruct (name e) as [nm|] eqn:Hnm.
    2:{ destruct (download_one_keyerror W e index total st) as [k ->];
          [now right|discriminate]. }
    rewrite (download_one_unfold W _ index total st cp nm Hcp Hnm). cbv zeta.
    destruct (bool_decide _) eqn:Hpresent; [discriminate|].
    assert (Habs : files st !! filepath_of W cp (first_tag e nm) = None).
    { apply bool_decide_eq_false in Hpresent.
      destruct (files st !! _) eqn:E; [|reflexivity]. exfalso. apply Hpresent. eauto. }
    destruct (http_get W (trace st) (primary_url cp)) as [r|what] eqn:Hp; [|discriminate].
    destruct (status_code r =? 200)%Z eqn:Hs.
    + apply Z.eqb_eq in Hs. unfold stored.
      destruct (fs_allows W _ _); [|discriminate].
      cbn [fst snd written files]. intros [= <- <-].
      exists cp, nm, r. repeat split; auto. apply lookup_insert_eq.
    + apply Z.eqb_neq in Hs.
      destruct (http_get W _ (fallback_url cp)) as [r2|what] eqn:Hf; [|discriminate].
      destruct (status_code r2 =? 200)%Z eqn:Hs2; [|discriminate].
      apply Z.eqb_eq in Hs2. unfold stored.
      destruct (fs_allows W _ _); [|discriminate].
      cbn [fst snd written files]. intros [= <- <-].
      exists cp, nm, r2. split; [reflexivity|]. split; [reflexivity|]. split; [exact Habs|].
      split; [right; exists r; auto|]. split; [exact Hs2|].
      split; [apply lookup_insert_eq|]. split; reflexivity.
Qed.

(** X5.  The outcome is [failed] exactly when both the primary and the
    fallback request are answered with a status other than 200; the message
    then carries the status of the primary response, whatever the fallback
    answered, two requests were made and no file was touched. *)
Theorem failed_iff_both_refuse e index total st cp nm :
  codepoint e = Some cp -> name e = Some nm ->
  files st !! filepath_of W cp (first_tag e nm) = None ->
  exists o st',
    download_one W e index total st = (Return o, st') /\
    (status_of o = "failed" <->
     exists r1 r2,
       http_get W (trace st) (primary_url cp) = Replied r1 /\
       status_code r1 <> 200%Z /\
       http_get W (trace (requested (primary_url cp) st)) (fallback_url cp) = Replied r2 /\
       status_code r2 <> 200%Z) /\
    (status_of o = "failed" ->
     exists r1,
       http_get W (trace st) (primary_url cp) = Replied r1 /\
       o = ("failed", MHttp nm (status_code r1), 0%Q) /\
       st' = requested (fallback_url cp) (requested (primary_url cp) st)).
Proof.
  intros Hcp Hnm Habs.
  rewrite (download_one_unfold W _ index total st cp nm Hcp Hnm). cbv zeta.
  rewrite (lookup_None_not_present _ _ Habs).
  destruct (http_get W (trace st) (primary_url cp)) as [r|what].
  - destruct (status_code r =? 200)%Z eqn:Hs.
    + apply Z.eqb_eq in Hs. unfold stored.
      destruct (fs_allows W _ _); eexists _, _; (split; [reflexivity|]);
        (split; [|discriminate]);
        (split; [discriminate|]); intros (r1 & r2 & [= <-] & Hne & _); contradiction.
    + apply Z.eqb_neq in Hs.
      destruct (http_get W _ (fallback_url cp)) as [r2|what].
      * destruct (status_code r2 =? 200)%Z eqn:Hs2.
        -- apply Z.eqb_eq in Hs2. unfold stored.
           destruct (fs_allows W _ _); eexists _, _; (split; [reflexivity|]);
             (split; [|discriminate]);
             (split; [discriminate|]);
             intros (r1 & r3 & _ & _ & [= <-] & Hne); contradiction.
        -- apply Z.eqb_neq in Hs2. eexists _, _. split; [reflexivity|]. split.
           ++ split; [intros _; now exists r, r2|reflexivity].
           ++ intros _. now exists r.
      * eexists _, _. split; [reflexivity|]. split; [|discriminate].
        split; [discriminate|]. intros (r1 & r3 & _ & _ & H & _). discriminate.
  - eexists _, _. split; [reflexivity|]. split; [|discriminate].
    split; [discriminate|]. intros (r1 & r3 & H & _). discriminate.
Qed.

(** X6.  A call returns [skipped] exactly when the destination file exists
    before it, and then it changes nothing and makes no request.  After an
    [ok] or a [skipped] outcome the destination file exists, and every
    further call on the entry is [skipped] and changes nothing. *)
Theorem stored_or_skipped_is_final e index total st cp nm :
  codepoint e = Some cp -> name e = Some nm ->
  exists o st',
    download_one W e index total st = (Return o, st') /\
    (status_of o = "skipped" <->
     is_Some (files st !! filepath_of W cp (first_tag e nm))) /\
    (status_of o = "skipped" -> o = ("skipped", MName nm, 0%Q) /\ st' = st) /\
    (status_of o = "ok" \/ status_of o = "skipped" ->
     is_Some (files st' !! filepath_of W cp (first_tag e nm)) /\
     forall index' total',
       download_one W e index' total' st' = (Return ("skipped", MName nm, 0%Q), st')).
Proof.
  intros Hcp Hnm.
  destruct (download_one_effect e index total st cp nm Hcp Hnm)
    as (urls & body & o & Hrun & _ & Hurls & Hskip & Hbody).
  eexists _, _. split; [exact Hrun|].
  split; [now rewrite Hskip, Hurls|].
  assert (Hsame : status_of o = "skipped" ->
                  o = ("skipped", MName nm, 0%Q) /\
                  finish (filepath_of W cp (first_tag e nm)) body (request_all urls st) = st).
  { intros Hst. pose proof (proj1 Hskip Hst) as ->.
    pose proof (download_one_skipped W e index total st cp nm Hcp Hnm
                  (proj1 Hurls eq_refl)) as Hsk.
    rewrite Hrun in Hsk. injection Hsk as -> Hfin. split; [reflexivity|exact Hfin]. }
  split; [exact Hsame|].
  intros Hst.
  assert (Hthere : is_Some (files (finish (filepath_of W cp (first_tag e nm)) body
                                     (request_all urls st))
                            !! filepath_of W cp (first_tag e nm))).
  { destruct Hst as [Hok|Hsk].
    - rewrite files_finish, files_request_all. destruct body as [b|].
      + rewrite lookup_insert_eq. eauto.
      + destruct Hbody as [Hno _]. contradiction.
    - destruct (Hsame Hsk) as [_ ->]. apply Hurls. now apply Hskip. }
  split; [exact Hthere|].
  intros index' total'.
  now apply (download_one_skipped W e index' total' _ cp nm Hcp Hnm).
Qed.

End OneDownload.

(** ** The pool, further *)

Section PoolEffects.

Variable W : world.

Lemma requests_of_app a b : requests_of (a ++ b) = requests_of a ++ requests_of b.
Proof. unfold requests_of. apply omap_app. Qed.

Lemma requests_of_gets urls :
  requests_of (map (fun u => EvGet u (Some 20%Z)) urls) = urls.
Proof.
  induction urls as [|u urls IH]; [reflexivity|].
  change (requests_of (map (fun u => EvGet u (Some 20%Z)) (u :: urls)))
    with (u :: requests_of (map (fun u => EvGet u (Some 20%Z)) urls)).
  now rewrite IH.
Qed.

Lemma bytes_written_app a b : bytes_written (a ++ b) = (bytes_written a + bytes_written b)%Z.
Proof.
  induction a as [|ev a IH]; [reflexivity|]. cbn [app bytes_written].
  destruct ev as [| | p [bs| |] |]; rewrite ?IH; lia.
Qed.

Lemma bytes_written_gets urls :
  bytes_written (map (fun u => EvGet u (Some 20%Z)) urls) = 0%Z.
Proof. induction urls as [|u urls IH]; [reflexivity|exact IH]. Qed.

Lemma pool_events_gets urls :
  Forall (fun ev => is_pool_event ev = true) (map (fun u => EvGet u (Some 20%Z)) urls).
Proof. induction urls; constructor; auto. Qed.

Lemma sum_ok_sizes_cons o outs :
  sum_ok_sizes (o :: outs) = (ok_size o + sum_ok_sizes outs)%Q \/
  (ok_size o = 0%Q /\ sum_ok_sizes (o :: outs) = sum_ok_sizes outs).
Proof.
  destruct o as [[status msg] size]. unfold ok_size, status_of, size_of. cbn.
  destruct (String.eqb status "ok"); [now left|now right].
Qed.

Lemma sum_ok_sizes_step o outs :
  (sum_ok_sizes (o :: outs) == ok_size o + sum_ok_sizes outs)%Q.
Proof.
  destruct (sum_ok_sizes_cons o outs) as [->|[-> ->]]; [reflexivity|ring].
Qed.

(** The events of one call, of any entry. *)
Lemma download_one_events e index total st :
  exists r evs st',
    download_one W e index total st = (r, st') /\
    trace st' = trace st ++ evs /\
    Forall (fun ev => is_pool_event ev = true) evs /\
    length (requests_of evs) <= 2 /\
    match r with
    | Return o => (ok_size o * 1024 == inject_Z (bytes_written evs))%Q
    | Raise _ => evs = []
    end.
Proof.
  destruct (codepoint e) as [cp|] eqn:Hcp; [destruct (name e) as [nm|] eqn:Hnm|].
  - destruct (download_one_effect W e index total st cp nm Hcp Hnm)
      as (urls & body & o & Hrun & Hurls & _ & _ & Hbody).
    exists (Return o),
      (map (fun u => EvGet u (Some 20%Z)) urls
       ++ match body with
          | Some b => [EvWrite (filepath_of W cp (first_tag e nm)) (FBytes b)]
          | None => []
          end).
    eexists. split; [exact Hrun|]. split; [|split; [|split]].
    + destruct body; cbn [finish written trace]; rewrite trace_request_all;
        [now rewrite app_assoc|now rewrite app_nil_r].
    + apply Forall_app. split; [apply pool_events_gets|]. destruct body; repeat constructor.
    + rewrite requests_of_app, requests_of_gets, length_app.
      assert (length urls <= 2) by (destruct Hurls as [->|[->| ->]]; cbn; lia).
      destruct body; cbn; lia.
    + rewrite bytes_written_app, bytes_written_gets. destruct body as [b|].
      * destruct Hbody as [-> _]. unfold ok_size, status_of, size_of. cbn.
        rewrite Z.add_0_r. apply size_kb_of_bytes.
      * destruct Hbody as [Hok Hsize]. unfold ok_size.
        destruct (String.eqb (status_of o) "ok") eqn:E;
          [apply String.eqb_eq in E; contradiction|]. reflexivity.
  - destruct (download_one_keyerror W e index total st (or_intror Hnm)) as [k ->].
    exists (Raise (KeyError k)), [], st. rewrite app_nil_r. repeat split; auto; cbn; lia.
  - destruct (download_one_keyerror W e index total st (or_introl Hcp)) as [k ->].
    exists (Raise (KeyError k)), [], st. rewrite app_nil_r. repeat split; auto; cbn; lia.
Qed.

Lemma returned_cons_return (o : outcome) rs : returned (Return o :: rs) = o :: returned rs.
Proof. reflexivity. Qed.

(** The events and the files of a run of the pool. *)
Lemma run_pool_effect schedule emojis total st :
  exists rs evs st',
    run_pool W schedule emojis total st = (Return rs, st') /\
    length rs = length (scheduled schedule emojis) /\
    trace st' = trace st ++ evs /\
    Forall (fun ev => is_pool_event ev = true) evs /\
    length (requests_of evs) <= 2 * length (scheduled schedule emojis) /\
    (sum_ok_sizes (returned rs) * 1024 == inject_Z (bytes_written evs))%Q /\
    forall p c, files st !! p = Some c -> files st' !! p = Some c.
Proof.
  revert st. induction schedule as [|i schedule IH]; intros st.
  - exists [], [], st. cbn. rewrite app_nil_r. repeat split; auto.
  - unfold scheduled. cbn [omap list_omap]. destruct (emojis !! i) as [e|] eqn:He.
    + rewrite (run_pool_cons W _ _ _ _ _ e He).
      destruct (download_one_events e i total st) as (r & evs1 & st1 & Hrun & Htr & Hev & Hreq & Hsz).
      pose proof (existing_files_kept W e i total st) as Hkeep.
      rewrite Hrun in *. cbn [snd] in Hkeep.
      destruct (IH st1) as (rs & evs2 & st2 & -> & Hlen & Htr2 & Hev2 & Hreq2 & Hsz2 & Hkeep2).
      exists (r :: rs), (evs1 ++ evs2), st2. split; [reflexivity|].
      split; [cbn; now rewrite Hlen|].
      split; [now rewrite Htr2, Htr, app_assoc|].
      split; [now apply Forall_app|].
      split; [rewrite requests_of_app, length_app; fold (scheduled schedule emojis); cbn [length]; lia|].
      split; [|auto].
      rewrite bytes_written_app, inject_Z_plus. destruct r as [o|x].
      * rewrite returned_cons_return, sum_ok_sizes_step, <- Hsz, <- Hsz2. ring.
      * subst evs1. cbn [bytes_written]. change (returned (Raise x :: rs)) with (returned rs).
        rewrite Hsz2. unfold inject_Z. ring.
    + rewrite (run_pool_skip W _ _ _ _ _ He). apply IH.
Qed.

(** The call on a scheduled entry starts in the state that the calls
    scheduled before it leave. *)
Lemma run_pool_split pre i post emojis total e :
  emojis !! i = Some e ->
  forall st,
  exists rs1 st1 r st2 rs2 st3,
    run_pool W pre emojis total st = (Return rs1, st1) /\
    download_one W e i total st1 = (r, st2) /\
    run_pool W post emojis total st2 = (Return rs2, st3) /\
    run_pool W (pre ++ i :: post) emojis total st = (Return (rs1 ++ r :: rs2), st3).
Proof.
  intros He. induction pre as [|j pre IH]; intros st.
  - destruct (download_one W e i total st) as [r st2] eqn:Hone.
    destruct (run_pool_returns W post emojis total st2) as (rs2 & st3 & Hpost & _).
    exists [], st, r, st2, rs2, st3. split; [reflexivity|]. split; [exact Hone|].
    split; [exact Hpost|]. cbn [app].
    rewrite (run_pool_cons W _ _ _ _ _ e He), Hone, Hpost. reflexivity.
  - cbn [app]. destruct (emojis !! j) as [e'|] eqn:Hj.
    + destruct (download_one W e' j total st) as [r' st'] eqn:Hone'.
      destruct (IH st') as (rs1 & st1 & r & st2 & rs2 & st3 & Hpre & Hone & Hpost & Hall).
      exists (r' :: rs1), st1, r, st2, rs2, st3.
      split; [rewrite (run_pool_cons W _ _ _ _ _ e' Hj), Hone', Hpre; reflexivity|].
      split; [exact Hone|]. split; [exact Hpost|].
      rewrite (run_pool_cons W _ _ _ _ _ e' Hj), Hone', Hall. reflexivity.
    + destruct (IH st) as (rs1 & st1 & r & st2 & rs2 & st3 & Hpre & Hone & Hpost & Hall).
      exists rs1, st1, r, st2, rs2, st3.
      split; [rewrite (run_pool_skip W _ _ _ _ _ Hj); exact Hpre|].
      split; [exact Hone|]. split; [exact Hpost|].
      rewrite (run_pool_skip W _ _ _ _ _ Hj). exact Hall.
Qed.

End PoolEffects.

(** ** The counting loop, further *)

Section Counting.

Variable W : world.

Lemma count_fail_lines_app a b :
  count_fail_lines (a ++ b) = (count_fail_lines a + count_fail_lines b)%Z.
Proof.
  induction a as [|ev a IH]; [reflexivity|]. cbn [app count_fail_lines].
  destruct ev as [| | |[]]; rewrite ?IH; lia.
Qed.

Lemma count_progress_lines_app a b :
  count_progress_lines (a ++ b) = (count_progress_lines a + count_progress_lines b)%Z.
Proof.
  induction a as [|ev a IH]; [reflexivity|]. cbn [app count_progress_lines].
  destruct ev as [| | |[]]; rewrite ?IH; lia.
Qed.

Lemma progress_lines_step d :
  (0 <= d)%Z ->
  (progress_lines_after (d + 1) - progress_lines_after d)%Z
  = if (((d + 1) mod 25 =? 0) || (d + 1 <=? 5))%Z then 1%Z else 0%Z.
Proof.
  intros Hd. unfold progress_lines_after.
  destruct ((d + 1) mod 25 =? 0)%Z eqn:Hm; [apply Z.eqb_eq in Hm|apply Z.eqb_neq in Hm];
    destruct (d + 1 <=? 5)%Z eqn:Hl; [apply Z.leb_le in Hl|apply Z.leb_gt in Hl
                                     |apply Z.leb_le in Hl|apply Z.leb_gt in Hl];
    cbn [orb]; Z.div_mod_to_equations; lia.
Qed.

(** One step of the loop, on an outcome. *)
Lemma account_effect total c o st :
  (0 <= downloaded c)%Z -> (0 <= failed c)%Z ->
  exists c' evs,
    account total c o st = (Return c', State (files st) (trace st ++ evs)) /\
    Forall (fun ev => is_report_line ev = true) evs /\
    (0 <= downloaded c')%Z /\ (0 <= failed c')%Z /\
    count_fail_lines evs = (Z.min 10 (failed c') - Z.min 10 (failed c))%Z /\
    count_progress_lines evs
    = (progress_lines_after (downloaded c') - progress_lines_after (downloaded c))%Z.
Proof.
  intros Hd Hf. destruct o as [[status msg] size]. unfold account.
  destruct (String.eqb status "ok"); [|destruct (String.eqb status "skipped")].
  - unfold bind at 1.
    pose proof (progress_lines_step (downloaded c) Hd) as Hstep.
    destruct (((downloaded c + 1) mod 25 =? 0) || (downloaded c + 1 <=? 5))%Z;
      cbn [print ret log files trace downloaded failed].
    + eexists _, [_]. split; [reflexivity|]. cbn.
      repeat split; try lia. repeat constructor.
    + eexists _, []. rewrite app_nil_r. split; [now destruct st|]. cbn.
      repeat split; try lia. constructor.
  - cbn [ret]. eexists _, []. rewrite app_nil_r. split; [now destruct st|]. cbn.
    repeat split; try lia. constructor.
  - unfold bind at 1.
    destruct (failed c + 1 <=? 10)%Z eqn:Hl; [apply Z.leb_le in Hl|apply Z.leb_gt in Hl];
      cbn [print ret log files trace downloaded failed].
    + eexists _, [_]. split; [reflexivity|]. cbn.
      repeat split; try lia. repeat constructor.
    + eexists _, []. rewrite app_nil_r. split; [now destruct st|]. cbn.
      repeat split; try lia. constructor.
Qed.

Lemma collect_cons_return total c o rs st :
  collect total c (Return o :: rs) st =
  match account total c o st with
  | (Return c', st') => collect total c' rs st'
  | (Raise x, st') => (Raise x, st')
  end.
Proof. reflexivity. Qed.

(** The loop up to the first future that holds an exception. *)
Lemma collect_effect total rs :
  forall c st,
    (0 <= downloaded c)%Z -> (0 <= failed c)%Z ->
    exists evs,
      Forall (fun ev => is_report_line ev = true) evs /\
      match first_raised rs with
      | Some x => collect total c rs st = (Raise x, State (files st) (trace st ++ evs))
      | None =>
          exists c',
            collect total c rs st = (Return c', State (files st) (trace st ++ evs)) /\
            count_fail_lines evs = (Z.min 10 (failed c') - Z.min 10 (failed c))%Z /\
            count_progress_lines evs
            = (progress_lines_after (downloaded c') - progress_lines_after (downloaded c))%Z
      end.
Proof.
  induction rs as [|r rs IH]; intros c st Hd Hf.
  - exists []. split; [constructor|]. cbn. exists c. rewrite app_nil_r.
    split; [now destruct st|]. split; lia.
  - destruct r as [o|x]; cbn [first_raised].
    + rewrite collect_cons_return.
      destruct (account_effect total c o st Hd Hf)
        as (c1 & evs1 & Hacc & Hev1 & Hd1 & Hf1 & Hfail1 & Hprog1).
      rewrite Hacc.
      destruct (IH c1 (State (files st) (trace st ++ evs1)) Hd1 Hf1) as (evs2 & Hev2 & Hrest).
      exists (evs1 ++ evs2). split; [now apply Forall_app|].
      cbn [files trace] in Hrest. rewrite <- app_assoc in Hrest.
      destruct (first_raised rs) as [x|]; [exact Hrest|].
      destruct Hrest as (c' & Hcol & Hfail2 & Hprog2). exists c'.
      split; [exact Hcol|].
      rewrite count_fail_lines_app, count_progress_lines_app. lia.
    + exists []. split; [constructor|]. rewrite app_nil_r. cbn [collect].
      unfold bind, lift. now destruct st.
Qed.

(** X7.  The reporting of the loop is throttled as lines 102 and 108 say:
    over any list of outcomes it prints a progress line for the first five
    [ok] outcomes and for every 25th, and a [FAIL] line for the first ten
    failures only; it prints nothing else and touches no file. *)
Theorem collect_throttles total (outs : list outcome) st :
  exists c evs,
    collect total (Counters 0 0 0 0) (map Return outs) st
    = (Return c, State (files st) (trace st ++ evs)) /\
    Forall (fun ev => is_report_line ev = true) evs /\
    count_fail_lines evs = Z.min 10 (count_failed outs) /\
    count_progress_lines evs = (Z.min 5 (count_ok outs) + count_ok outs / 25)%Z.
Proof.
  destruct (collect_effect total (map Return outs) (Counters 0 0 0 0) st)
    as (evs & Hev & Hrest); [cbn; lia|cbn; lia|].
  assert (Hnone : first_raised (map Return outs) = None)
    by (clear; induction outs; cbn; auto).
  rewrite Hnone in Hrest. destruct Hrest as (c & Hcol & Hfail & Hprog).
  destruct (collect_tallies _ _ _ _ _ Hcol) as (Hd & _ & Hf & _).
  exists c, evs. split; [exact Hcol|]. split; [exact Hev|].
  cbn [downloaded failed] in Hfail, Hprog.
  change (progress_lines_after 0) with 0%Z in Hprog.
  change (Z.min 10 0) with 0%Z in Hfail.
  rewrite Z.sub_0_r in Hfail, Hprog. unfold progress_lines_after in Hprog.
  rewrite <- Hd, <- Hf. split; assumption.
Qed.

(** X8.  The size that the loop accumulates accounts for the bytes that the
    pool wrote: in kilobytes, the total is the number of bytes of all the
    bodies written during the run of the pool, divided by 1024. *)
Theorem total_size_counts_written_bytes schedule emojis st :
  Forall has_required_keys emojis ->
  exists outs evs st1 c st2,
    run_pool W schedule emojis (length emojis) st = (Return (map Return outs), st1) /\
    trace st1 = trace st ++ evs /\
    collect (length emojis) (Counters 0 0 0 0) (map Return outs) st1 = (Return c, st2) /\
    (total_size c * 1024 == inject_Z (bytes_written evs))%Q.
Proof.
  intros Hwf.
  destruct (run_pool_outcomes W schedule emojis (length emojis) st Hwf)
    as (outs & st1 & Hrun & _).
  destruct (run_pool_effect W schedule emojis (length emojis) st)
    as (rs & evs & st1' & Hrun' & _ & Htr & _ & _ & Hbytes & _).
  rewrite Hrun in Hrun'. injection Hrun' as <- <-.
  destruct (collect_spec (length emojis) outs (Counters 0 0 0 0) st1)
    as (c & st2 & Hcol & _ & _ & _ & Ht & _).
  exists outs, evs, st1, c, st2. split; [exact Hrun|]. split; [exact Htr|].
  split; [exact Hcol|].
  assert (Hret : returned (map Return outs) = outs).
  { clear. induction outs as [|o outs IH]; [reflexivity|]. cbn [map].
    rewrite returned_cons_return. now f_equal. }
  rewrite Hret in Hbytes. rewrite <- Hbytes, Ht. cbn. ring.
Qed.

End Counting.

(** ** The figures of the summary *)

Section Aggregates.

Variable W : world.

Lemma reported_app (a b : list event) : reported (a ++ b) = reported a ++ reported b.
Proof. apply List.filter_app. Qed.

Lemma reported_none (evs : list event) :
  Forall (fun ev => is_summary_line ev = false) evs -> reported evs = [].
Proof.
  induction 1 as [|ev evs Hev _ IH]; [reflexivity|].
  unfold reported in *. cbn [List.filter]. now rewrite Hev.
Qed.

Lemma reported_pool_events (evs : list event) :
  Forall (fun ev => is_pool_event ev = true) evs -> reported evs = [].
Proof.
  intros H. apply reported_none. eapply Forall_impl; [exact H|].
  intros [p|u [t|]|p [b|m|d]|l]; cbn; congruence.
Qed.

Lemma reported_report_lines (evs : list event) :
  Forall (fun ev => is_report_line ev = true) evs -> reported evs = [].
Proof.
  intros H. apply reported_none. eapply Forall_impl; [exact H|].
  intros [p|u t|p c|l]; cbn; try congruence. destruct l; congruence.
Qed.



End Aggregates.



(** ** The footprint of a run *)

Section Footprint.

Variable W : world.

Lemma behaves_silent {A} (m : M A) n S :
  (forall st, snd (m st) = st) -> behaves W n S m.
Proof.
  intros H st. exists []. rewrite H, app_nil_r. repeat split; auto. cbn. lia.
Qed.

Lemma behaves_ret {A} (a : A) n S : behaves W n S (ret a).
Proof. now apply behaves_silent. Qed.

Lemma behaves_lift {A} (r : result A) n S : behaves W n S (lift r).
Proof. now apply behaves_silent. Qed.

Lemma behaves_print l n S : behaves W n S (print l).
Proof.
  intros st. exists [EvPrint l]. repeat split; auto. cbn. lia.
Qed.

Lemma behaves_mono {A} (m : M A) n n' S : n <= n' -> behaves W n S m -> behaves W n' S m.
Proof.
  intros Hn Hm st. destruct (Hm st) as (evs & Htr & Hev & Hreq & Hkeep).
  exists evs. repeat split; auto. lia.
Qed.

Lemma behaves_bind {A B} (m : M A) (k : A -> M B) n1 n2 S :
  behaves W n1 S m -> (forall a, behaves W n2 S (k a)) -> behaves W (n1 + n2) S (bind m k).
Proof.
  intros Hm Hk st. unfold bind.
  destruct (Hm st) as (evs & Htr & Hev & Hreq & Hkeep).
  destruct (m st) as [[a|x] st1]; cbn [snd] in *.
  - destruct (Hk a st1) as (evs' & Htr' & Hev' & Hreq' & Hkeep').
    exists (evs ++ evs'). split; [now rewrite Htr', Htr, app_assoc|].
    split; [now apply Forall_app|].
    split; [unfold requests_of in *; rewrite omap_app, length_app; lia|].
    intros p c Hp Hc. apply Hkeep'; [exact Hp|]. now apply Hkeep.
  - exists evs. repeat split; auto. lia.
Qed.

(** A step that makes no request, followed by the rest. *)
Lemma behaves_then {A B} (m : M A) (k : A -> M B) n S :
  behaves W 0 S m -> (forall a, behaves W n S (k a)) -> behaves W n S (bind m k).
Proof. intros Hm Hk. exact (behaves_bind m k 0 n S Hm Hk). Qed.

Lemma behaves_makedirs n S : behaves W n S (makedirs W (OUTPUT_DIR W)).
Proof.
  intros st. unfold makedirs. destruct (fs_allows W _ _).
  - exists [EvMakedirs (OUTPUT_DIR W)]. split; [reflexivity|].
    split; [repeat constructor; cbn [is_run_event]; apply String.eqb_refl|].
    split; [cbn; lia|auto].
  - exists []. rewrite app_nil_r. repeat split; auto. cbn. lia.
Qed.

Lemma behaves_get_catalog S : behaves W 1 S (requests_get W DATA_URL None).
Proof.
  intros st. exists [EvGet DATA_URL None]. unfold requests_get.
  destruct (http_get W _ _); cbn; repeat split; auto.
Qed.

Lemma behaves_write_index path c n S :
  is_run_event W (EvWrite path c) = true -> path ∈ S ->
  behaves W n S (write_file W path c).
Proof.
  intros Hev Hin st. unfold write_file. destruct (fs_allows W _ _).
  - exists [EvWrite path c]. cbn [snd trace files]. split; [reflexivity|].
    split; [now repeat constructor|]. split; [cbn; lia|].
    intros p c' Hp Hc. rewrite lookup_insert_ne; [exact Hc|]. intros <-. contradiction.
  - exists []. rewrite app_nil_r. repeat split; auto. cbn. lia.
Qed.

Lemma pool_event_run_event ev : is_pool_event ev = true -> is_run_event W ev = true.
Proof. destruct ev as [|u [t|]|p [b| |]|]; cbn; auto; discriminate. Qed.

Lemma report_line_run_event ev : is_report_line ev = true -> is_run_event W ev = true.
Proof. destruct ev as [|u [t|]|p [b| |]|l]; cbn; auto; discriminate. Qed.

Lemma report_lines_no_request evs :
  Forall (fun ev => is_report_line ev = true) evs -> requests_of evs = [].
Proof.
  induction 1 as [|ev evs Hev _ IH]; [reflexivity|].
  destruct ev as [|u [t|]|p [b| |]|l]; try discriminate. exact IH.
Qed.

Lemma scheduled_length_le schedule emojis :
  length (scheduled schedule emojis) <= length schedule.
Proof.
  induction schedule as [|i schedule IH]; [reflexivity|].
  unfold scheduled. cbn [omap list_omap]. fold (scheduled schedule emojis).
  destruct (emojis !! i); cbn; lia.
Qed.

Lemma behaves_run_pool schedule emojis total S :
  behaves W (2 * length schedule) S (run_pool W schedule emojis total).
Proof.
  intros st.
  destruct (run_pool_effect W schedule emojis total st)
    as (rs & evs & st' & -> & _ & Htr & Hev & Hreq & _ & Hkeep).
  exists evs. cbn [snd]. split; [exact Htr|]. split.
  - eapply Forall_impl; [exact Hev|]. apply pool_event_run_event.
  - pose proof (scheduled_length_le schedule emojis). split; [lia|]. auto.
Qed.

Lemma behaves_collect total rs n S :
  behaves W n S (collect total (Counters 0 0 0 0) rs).
Proof.
  intros st.
  destruct (collect_effect total rs (Counters 0 0 0 0) st) as (evs & Hev & Hrest);
    [cbn; lia|cbn; lia|].
  exists evs.
  assert (Hst : snd (collect total (Counters 0 0 0 0) rs st)
                = State (files st) (trace st ++ evs)).
  { destruct (first_raised rs); [now rewrite Hrest|].
    destruct Hrest as (c & -> & _). reflexivity. }
  rewrite Hst. cbn [trace files]. split; [reflexivity|]. split.
  - eapply Forall_impl; [exact Hev|]. apply report_line_run_event.
  - rewrite (report_lines_no_request evs Hev). split; [cbn; lia|auto].
Qed.

Lemma behaves_print_categories items n S : behaves W n S (print_categories items).
Proof.
  intros st. rewrite print_categories_run. exists (category_events items).
  cbn [snd trace files]. split; [reflexivity|]. split; [|split; [|auto]].
  - unfold category_events. apply Forall_forall. intros ev Hin.
    apply list_elem_of_fmap in Hin as (p & -> & _). reflexivity.
  - unfold category_events. induction items; cbn; [lia|exact IHitems].
Qed.

(** The whole run: one catalog request and at most two requests for each
    scheduled call; no existing file is touched but the two index files. *)
Lemma download_all_behaves schedule :
  behaves W (1 + 2 * length schedule) [meta_path W; cat_path W] (download_all W schedule).
Proof.
  unfold download_all.
  apply behaves_then; [apply behaves_makedirs|intros _].
  apply behaves_then; [apply behaves_print|intros _].
  apply behaves_bind; [apply behaves_get_catalog|intros response].
  destruct (negb _); [apply behaves_print|].
  apply behaves_then; [apply behaves_lift|intros emojis].
  apply behaves_then; [apply behaves_print|intros _].
  apply behaves_then; [apply behaves_print|intros _].
  apply behaves_then;
    [apply behaves_write_index; [cbn; apply String.eqb_refl|set_solver]|intros _].
  apply behaves_then; [apply behaves_print|intros _].
  rewrite <- (Nat.add_0_r (2 * length schedule)).
  apply behaves_bind; [apply behaves_run_pool|intros results].
  apply behaves_then; [apply behaves_collect|intros c].
  do 6 (apply behaves_then; [apply behaves_print|intros _]).
  apply behaves_then; [apply behaves_lift|intros cats].
  apply behaves_then;
    [apply behaves_write_index; [cbn; apply String.eqb_refl|set_solver]|intros _].
  apply behaves_then; [apply behaves_print|intros _].
  apply behaves_print_categories.
Qed.

(** X9.  A run never changes or removes an existing file other than the
    two index files [_metadata.json] and [_categories.json]: whatever the
    catalog, the answers of the transport and the order of completion, and
    also when the run ends with an exception. *)
Theorem download_all_keeps_files schedule fs p c :
  fs !! p = Some c ->
  p <> meta_path W -> p <> cat_path W ->
  files (snd (download_all W schedule (start fs))) !! p = Some c.
Proof.
  intros Hp Hmeta Hcat.
  destruct (download_all_behaves schedule (start fs)) as (evs & _ & _ & _ & Hkeep).
  apply Hkeep; [|exact Hp]. rewrite !not_elem_of_cons.
  repeat split; auto. apply not_elem_of_nil.
Qed.

(** X10.  The requests of a run: at most one for the catalog and two for
    each scheduled call; a request without a timeout is the catalog request,
    every other request has the timeout of 20; the two JSON documents are
    written to their own paths only. *)
Theorem download_all_requests schedule fs :
  length (requests_of (trace (snd (download_all W schedule (start fs)))))
  <= 1 + 2 * length schedule /\
  (forall url timeout,
     In (EvGet url timeout) (trace (snd (download_all W schedule (start fs)))) ->
     (timeout = None /\ url = DATA_URL) \/ timeout = Some 20%Z) /\
  (forall path c,
     In (EvWrite path c) (trace (snd (download_all W schedule (start fs)))) ->
     match c with
     | FBytes _ => True
     | FMetadata _ => path = meta_path W
     | FCategories _ => path = cat_path W
     end).
Proof.
  destruct (download_all_behaves schedule (start fs)) as (evs & Htr & Hev & Hreq & _).
  rewrite Htr. cbn [start trace app]. split; [exact Hreq|].
  rewrite Forall_forall in Hev. split.
  - intros url timeout Hin. apply list_elem_of_In, Hev in Hin. cbn in Hin.
    destruct timeout as [t|].
    + right. apply Z.eqb_eq in Hin. now subst.
    + left. apply String.eqb_eq in Hin. auto.
  - intros path c Hin. apply list_elem_of_In, Hev in Hin. cbn in Hin.
    destruct c; [exact I|now apply String.eqb_eq in Hin|now apply String.eqb_eq in Hin].
Qed.

End Footprint.

(** ** Runs that stop early, and runs that find everything in place *)

Section Runs.

Variable W : world.

(** X11.  Unless the catalog fetch succeeds, nothing is downloaded and
    nothing is written: when the output directory cannot be made (whatever
    the catalog request would answer), the catalog request raises or is
    answered with a status other than 200, or the body does not decode, the
    files are as they were and the history holds no write and no download
    request. *)
Theorem unserved_catalog_persists_nothing schedule fs :
  fs_allows W [] (OUTPUT_DIR W) = false \/ (forall emojis, ~ catalog_served W emojis) ->
  files (snd (download_all W schedule (start fs))) = fs /\
  Forall (fun ev => is_write ev = false /\ is_download_request ev = false)
         (trace (snd (download_all W schedule (start fs)))).
Proof.
  intros Hno. unfold download_all.
  destruct (fs_allows W [] (OUTPUT_DIR W)) eqn:Hmk.
  - destruct Hno as [Hno|Hno]; [discriminate Hno|].
    rewrite (bind_return _ _ _ _ _ (makedirs_run W _ (start fs) Hmk)).
    rewrite (bind_return _ _ _ tt (log (EvPrint LFetching)
               (log (EvMakedirs (OUTPUT_DIR W)) (start fs)))) by reflexivity.
    destruct (http_get W (catalog_history W) DATA_URL) as [r|what] eqn:Hr.
    + rewrite (bind_return _ _ _ _ _
                 (requests_get_run W DATA_URL None
                    (log (EvPrint LFetching) (log (EvMakedirs (OUTPUT_DIR W)) (start fs)))
                    r Hr)).
      destruct (status_code r =? 200)%Z eqn:Hs; cbn [negb].
      * destruct (json_icons W (content r)) as [emojis|x] eqn:Hj.
        -- exfalso. apply (Hno emojis). exists r. apply Z.eqb_eq in Hs. auto.
        -- unfold bind at 1. unfold lift at 1. cbn.
           split; [reflexivity|]. repeat constructor.
      * cbn. split; [reflexivity|]. repeat constructor.
    + erewrite bind_raise.
      2:{ unfold requests_get. cbn [trace log start app].
          change [EvMakedirs (OUTPUT_DIR W); EvPrint LFetching] with (catalog_history W).
          rewrite Hr. reflexivity. }
      cbn. split; [reflexivity|]. repeat constructor.
  - erewrite bind_raise by (unfold makedirs; cbn [start trace]; rewrite Hmk; reflexivity).
    cbn. split; [reflexivity|]. constructor.
Qed.

Lemma download_one_keyerror_which e index total st :
  ~ has_required_keys e ->
  download_one W e index total st = (Raise (KeyError (missing_key e)), st).
Proof.
  intros Hno. unfold download_one, bind, lift, missing_key.
  destruct (codepoint e) as [cp|] eqn:Hcp; [|reflexivity].
  destruct (name e) as [nm|] eqn:Hnm; [|reflexivity].
  exfalso. apply Hno. split; [rewrite Hcp|rewrite Hnm]; eauto.
Qed.

Lemma has_required_keys_dec e : {has_required_keys e} + {~ has_required_keys e}.
Proof.
  unfold has_required_keys.
  destruct (codepoint e); [destruct (name e)|]; [left; eauto|right|right];
    intros [[? ?] [? ?]]; discriminate.
Qed.

(** A scheduled entry without its keys leaves an exception among the
    futures. *)
Lemma run_pool_first_raised schedule emojis total :
  forall pre e post st rs st',
    run_pool W schedule emojis total st = (Return rs, st') ->
    scheduled schedule emojis = pre ++ e :: post ->
    Forall has_required_keys pre ->
    ~ has_required_keys e ->
    first_raised rs = Some (KeyError (missing_key e)).
Proof.
  induction schedule as [|i schedule IH]; intros pre e post st rs st' Hrun Hsched Hpre Hno.
  - destruct pre; discriminate Hsched.
  - unfold scheduled in Hsched. cbn [omap list_omap] in Hsched.
    fold (scheduled schedule emojis) in Hsched.
    destruct (emojis !! i) as [e0|] eqn:He.
    + rewrite (run_pool_cons W _ _ _ _ _ e0 He) in Hrun.
      destruct pre as [|e1 pre]; cbn [app] in Hsched; injection Hsched as -> Hrest.
      * rewrite (download_one_keyerror_which e i total st Hno) in Hrun.
        destruct (run_pool W schedule emojis total st) as [[l|x] st2]; [|discriminate].
        injection Hrun as <- <-. reflexivity.
      * apply Forall_cons in Hpre as [Hkeys Hpre].
        destruct (download_one_returns W e1 i total st Hkeys) as (o & st1 & Hone).
        rewrite Hone in Hrun.
        destruct (run_pool W schedule emojis total st1) as [[l|x] st2] eqn:Hl;
          [|discriminate]. injection Hrun as <- <-. cbn [first_raised].
        exact (IH pre e post st1 l st2 Hl Hrest Hpre Hno).
    + rewrite (run_pool_skip W _ _ _ _ _ He) in Hrun.
      exact (IH pre e post st rs st' Hrun Hsched Hpre Hno).
Qed.

(** X12.  When the first scheduled entry that lacks a key has no
    [codepoint], or else no [name], the run ends with the [KeyError] of
    that key, but only after the pool has run every scheduled call: each
    call is made, also those scheduled after the broken one, and the files
    it leaves are there when the run ends; after the snapshot the history
    holds only requests and writes of the pool and progress or [FAIL] lines
    of the loop, so neither the summary nor the category index is
    produced. *)
Theorem missing_key_aborts_after_pool schedule fs emojis pre e post :
  catalog_served W emojis ->
  index_files_writable W ->
  scheduled schedule emojis = pre ++ e :: post ->
  Forall has_required_keys pre ->
  ~ has_required_keys e ->
  exists rs st1 st' evs,
    run_pool W schedule emojis (length emojis) (pool_start W fs emojis)
    = (Return rs, st1) /\
    length rs = length (scheduled schedule emojis) /\
    download_all W schedule (start fs) = (Raise (KeyError (missing_key e)), st') /\
    files st' = files st1 /\
    trace st' = trace (pool_start W fs emojis) ++ evs /\
    Forall (fun ev => is_pool_event ev = true \/ is_report_line ev = true) evs /\
    reported (trace st') = [] /\
    (forall p cats, ~ In (EvWrite p (FCategories cats)) (trace st')) /\
    (forall before i after e',
       schedule = before ++ i :: after -> emojis !! i = Some e' ->
       exists rs1 st_i r st_i',
         run_pool W before emojis (length emojis) (pool_start W fs emojis)
         = (Return rs1, st_i) /\
         download_one W e' i (length emojis) st_i = (r, st_i') /\
         forall p c, files st_i' !! p = Some c -> files st' !! p = Some c).
Proof.
  intros Hserved [Hmk [Hmeta Hcat]] Hsched Hpre Hno.
  rewrite (download_all_to_snapshot W schedule fs emojis Hserved Hmk).
  erewrite bind_return by (apply write_file_run, Hmeta).
  unfold after_snapshot. cbv zeta.
  rewrite (bind_return _ _ _ tt (pool_start W fs emojis)) by reflexivity.
  destruct (run_pool_effect W schedule emojis (length emojis) (pool_start W fs emojis))
    as (rs & pool_evs & st1 & Hrun & Hlen & Htr & Hpool & _ & _ & Hkeep).
  pose proof (run_pool_first_raised schedule emojis (length emojis) pre e post
                _ rs st1 Hrun Hsched Hpre Hno) as Hfirst.
  destruct (collect_effect (length emojis) rs (Counters 0 0 0 0) st1)
    as (evs & Hev & Hcol); [cbn; lia|cbn; lia|].
  rewrite Hfirst in Hcol.
  rewrite (bind_return _ _ _ _ _ Hrun). rewrite (bind_raise _ _ _ _ _ Hcol).
  assert (Hall : Forall (fun ev => is_pool_event ev = true \/ is_report_line ev = true)
                        (pool_evs ++ evs)).
  { apply Forall_app. split; (eapply Forall_impl; [eassumption|]); cbn; auto. }
  exists rs, st1, (State (files st1) (trace st1 ++ evs)), (pool_evs ++ evs).
  split; [exact Hrun|]. split; [exact Hlen|]. split; [reflexivity|].
  split; [reflexivity|]. split; [cbn [trace]; now rewrite Htr, <- app_assoc|].
  split; [exact Hall|]. split; [|split].
  - cbn [trace]. rewrite Htr, !reported_app, (reported_pool_events _ Hpool),
      (reported_report_lines _ Hev). reflexivity.
  - intros p cats Hin. cbn [trace] in Hin. rewrite Htr, <- app_assoc in Hin.
    apply in_app_or in Hin as [Hin|Hin].
    + cbn in Hin. repeat (destruct Hin as [Hin|Hin]; [discriminate Hin|]). exact Hin.
    + apply list_elem_of_In in Hin. rewrite Forall_forall in Hall.
      destruct (Hall _ Hin) as [H|H]; discriminate H.
  - intros before i after e' -> He'.
    destruct (run_pool_split W before i after emojis (length emojis) e' He'
                (pool_start W fs emojis))
      as (rs1 & st_i & r & st_i' & rs2 & st3 & Hbefore & Hone & Hafter & Hwhole).
    rewrite Hrun in Hwhole. injection Hwhole as -> ->.
    exists rs1, st_i, r, st_i'. split; [exact Hbefore|]. split; [exact Hone|].
    cbn [files].
    destruct (run_pool_effect W after emojis (length emojis) st_i')
      as (rs' & evs' & st' & Hafter' & _ & _ & _ & _ & _ & Hkeep').
    rewrite Hafter in Hafter'. injection Hafter' as <- <-. exact Hkeep'.
Qed.

Lemma stored_in_insert fs path c e :
  stored_in W fs e -> stored_in W (<[path := c]> fs) e.
Proof.
  intros (cp & nm & Hcp & Hnm & Hsome). exists cp, nm. repeat split; auto.
  destruct (decide (path = filepath_of W cp (first_tag e nm))) as [->|Hne].
  - rewrite lookup_insert_eq. eauto.
  - now rewrite lookup_insert_ne.
Qed.

Lemma stored_in_keys fs e : stored_in W fs e -> has_required_keys e.
Proof. intros (cp & nm & Hcp & Hnm & _). split; [rewrite Hcp|rewrite Hnm]; eauto. Qed.

Lemma scheduled_elements schedule emojis (P : emoji -> Prop) :
  Forall P emojis -> Forall P (scheduled schedule emojis).
Proof.
  intros HP. induction schedule as [|i schedule IH]; [constructor|].
  unfold scheduled. cbn [omap list_omap]. destruct (emojis !! i) as [e|] eqn:He; [|exact IH].
  constructor; [|exact IH]. rewrite Forall_forall in HP. apply HP.
  eapply list_elem_of_lookup_2. exact He.
Qed.

(** Entries whose files are all there: the pool does nothing. *)
Lemma run_pool_all_stored schedule emojis total st :
  Forall (stored_in W (files st)) (scheduled schedule emojis) ->
  run_pool W schedule emojis total st
  = (Return (map (fun e => Return (skipped_outcome e)) (scheduled schedule emojis)), st).
Proof.
  induction schedule as [|i schedule IH]; [reflexivity|].
  unfold scheduled. cbn [omap list_omap]. destruct (emojis !! i) as [e|] eqn:He.
  - intros [Hhd Htl]%Forall_cons. rewrite (run_pool_cons W _ _ _ _ _ e He).
    destruct Hhd as (cp & nm & Hcp & Hnm & Hsome).
    rewrite (download_one_skipped W e i total st cp nm Hcp Hnm Hsome).
    rewrite (IH Htl). cbn [map]. unfold skipped_outcome. now rewrite Hnm.
  - intros Hall. rewrite (run_pool_skip W _ _ _ _ _ He). exact (IH Hall).
Qed.

Lemma collect_all_skipped total es :
  forall c st,
    collect total c (map (fun e => Return (skipped_outcome e)) es) st
    = (Return (Counters (downloaded c) (skipped c + Z.of_nat (length es)) (failed c)
                        (total_size c)), st).
Proof.
  induction es as [|e es IH]; intros c st.
  - cbn. rewrite Z.add_0_r. now destruct c.
  - cbn [map]. rewrite collect_cons_return. cbn [account skipped_outcome String.eqb
      Ascii.eqb Bool.eqb ret]. rewrite IH. cbn [downloaded skipped failed total_size length].
    do 2 f_equal. f_equal. lia.
Qed.

Lemma requests_of_category_events items : requests_of (category_events items) = [].
Proof. induction items as [|p items IH]; [reflexivity|exact IH]. Qed.

(** X13.  A run over a catalog whose destination files all exist already
    downloads nothing: its only request is the catalog request, it reports
    0 downloaded, every entry skipped and 0 failed, and the only files it
    writes are the two index files. *)
Theorem rerun_skips_everything schedule fs emojis :
  catalog_served W emojis ->
  index_files_writable W ->
  Permutation schedule (seq 0 (length emojis)) ->
  Forall (stored_in W fs) emojis ->
  exists cats,
    build_categories emojis [] = Return cats /\
    download_all W schedule (start fs)
    = (Return tt,
       State (<[cat_path W := FCategories cats]> (<[meta_path W := FMetadata emojis]> fs))
             (catalog_events W emojis
              ++ [EvWrite (meta_path W) (FMetadata emojis); EvPrint LSavedMetadata]
              ++ summary_events W (Counters 0 (Z.of_nat (length emojis)) 0 0)
              ++ [EvWrite (cat_path W) (FCategories cats);
                  EvPrint (LSavedIndex (length cats))]
              ++ category_events (sorted_items cats))) /\
    requests_of (trace (snd (download_all W schedule (start fs)))) = [DATA_URL].
Proof.
  intros Hserved [Hmk [Hmeta Hcat]] Hperm Hstored.
  assert (Hwf : Forall has_required_keys emojis)
    by (eapply Forall_impl; [exact Hstored|apply stored_in_keys]).
  destruct (build_categories_keys emojis Hwf) as (cats & Hcats & _).
  exists cats. split; [exact Hcats|].
  assert (Hrun : download_all W schedule (start fs)
    = (Return tt,
       State (<[cat_path W := FCategories cats]> (<[meta_path W := FMetadata emojis]> fs))
             (catalog_events W emojis
              ++ [EvWrite (meta_path W) (FMetadata emojis); EvPrint LSavedMetadata]
              ++ summary_events W (Counters 0 (Z.of_nat (length emojis)) 0 0)
              ++ [EvWrite (cat_path W) (FCategories cats);
                  EvPrint (LSavedIndex (length cats))]
              ++ category_events (sorted_items cats)))).
  { rewrite (download_all_to_snapshot W schedule fs emojis Hserved Hmk).
    erewrite bind_return by (apply write_file_run, Hmeta).
    unfold after_snapshot. cbv zeta.
    set (st0 := log (EvPrint LSavedMetadata)
                  (written (meta_path W) (FMetadata emojis)
                     (State fs (catalog_events W emojis)))).
    rewrite (bind_return _ _ _ tt st0) by reflexivity.
    assert (Hall : Forall (stored_in W (files st0)) (scheduled schedule emojis)).
    { apply scheduled_elements. eapply Forall_impl; [exact Hstored|].
      intros e. apply stored_in_insert. }
    rewrite (bind_return _ _ _ _ _ (run_pool_all_stored schedule emojis _ st0 Hall)).
    rewrite (bind_return _ _ _ _ _ (collect_all_skipped _ _ (Counters 0 0 0 0) st0)).
    rewrite (scheduled_length _ _ Hperm). cbn [downloaded skipped failed total_size Z.add].
    do 6 (erewrite bind_return by reflexivity).
    unfold bind at 1. unfold lift at 1. rewrite Hcats.
    erewrite bind_return by (apply write_file_run, Hcat).
    erewrite bind_return by reflexivity.
    rewrite print_categories_run. subst st0.
    cbn [files trace written log summary_events downloaded skipped failed total_size].
    rewrite <- !app_assoc. reflexivity. }
  split; [exact Hrun|]. rewrite Hrun. cbn [snd trace].
  rewrite !requests_of_app, requests_of_category_events. reflexivity.
Qed.

End Runs.

(** ** The category index, further *)

Section IndexFurther.

Lemma entries_built emojis d cat :
  Forall has_required_keys emojis ->
  build_categories emojis [] = Return d ->
  entries cat d = index_entries cat emojis /\
  (forall v, dict_get cat d = Some v -> v <> []).
Proof.
  intros Hwf Hd.
  destruct (build_categories_get emojis cat Hwf []) as (d' & Hd' & Hget & _).
  rewrite Hd in Hd'. injection Hd' as <-. unfold entries. rewrite Hget.
  unfold extended. cbn [dict_get]. destruct (index_entries cat emojis) as [|s l].
  - split; [reflexivity|discriminate].
  - split; [reflexivity|]. intros v [= <-]. discriminate.
Qed.

Lemma in_placed cat s s' cats : In s (placed cat s' cats) <-> s = s' /\ In cat cats.
Proof.
  induction cats as [|c cats IH]; cbn; [tauto|].
  destruct (String.eqb c cat) eqn:E.
  - apply String.eqb_eq in E. subst c. cbn. rewrite IH. intuition congruence.
  - apply String.eqb_neq in E. rewrite IH. intuition congruence.
Qed.

Lemma in_index_entries cat s emojis :
  In s (index_entries cat emojis) <->
  exists e, In e emojis /\ In cat (categories_of e) /\ summary_of e = Return s.
Proof.
  unfold index_entries. rewrite in_flat_map. split.
  - intros (e & He & Hin). exists e. split; [exact He|].
    unfold entries_of_item in Hin. destruct (summary_of e) as [s'|x]; [|contradiction].
    apply in_placed in Hin as [-> Hcat]. auto.
  - intros (e & He & Hcat & Hs). exists e. split; [exact He|].
    unfold entries_of_item. rewrite Hs. now apply in_placed.
Qed.

(** X14.  The index is sound and complete: a summary is listed under a
    category exactly when it is the summary of a catalog entry that names
    this category (["Other"] for an entry without [categories]); an entry
    of several categories is listed under each of them, with the same
    summary. *)
Theorem index_membership emojis d :
  Forall has_required_keys emojis ->
  build_categories emojis [] = Return d ->
  forall cat s,
    In s (entries cat d) <->
    exists e, In e emojis /\ In cat (categories_of e) /\ summary_of e = Return s.
Proof.
  intros Hwf Hd cat s.
  destruct (entries_built emojis d cat Hwf Hd) as [-> _]. apply in_index_entries.
Qed.

Lemma first_occurrences_spec l :
  forall seen,
    NoDup (first_occurrences seen l) /\
    forall x, In x (first_occurrences seen l) <-> In x l /\ x ∉ seen.
Proof.
  induction l as [|y l IH]; intros seen; cbn [first_occurrences].
  - split; [constructor|]. intros x. cbn. tauto.
  - destruct (bool_decide (y ∈ seen)) eqn:E.
    + apply bool_decide_eq_true in E. destruct (IH seen) as [Hnd Hin].
      split; [exact Hnd|]. intros x. rewrite Hin. cbn. split; [tauto|].
      intros [[->|Hx] Hns]; [contradiction|auto].
    + apply bool_decide_eq_false in E. destruct (IH (seen ++ [y])) as [Hnd Hin].
      split.
      * apply NoDup_cons. split; [|exact Hnd].
        rewrite list_elem_of_In, Hin. intros [_ Hny]. apply Hny.
        apply elem_of_app. right. apply list_elem_of_here.
      * intros x. cbn. rewrite Hin, elem_of_app, list_elem_of_singleton.
        destruct (decide (x = y)) as [->|Hne]; [tauto|].
        split; [intros [->|[Hx Hns]]; [contradiction|tauto]|].
        intros [[->|Hx] Hns]; [contradiction|]. right. split; [exact Hx|].
        intros [?|?]; contradiction.
Qed.

Lemma total_entries_append cat s d :
  total_entries (dict_append cat s d) = S (total_entries d).
Proof.
  induction d as [|[k v] d IH]; [reflexivity|]. cbn [dict_append].
  destruct (String.eqb k cat); cbn [total_entries].
  - rewrite length_app. cbn. lia.
  - rewrite IH. lia.
Qed.

Lemma total_entries_add e s cats :
  summary_of e = Return s ->
  forall d d', add_to_categories e cats d = Return d' ->
               total_entries d' = total_entries d + length cats.
Proof.
  intros Hs. induction cats as [|c cats IH]; intros d d'; cbn [add_to_categories].
  - intros [= <-]. cbn. lia.
  - rewrite Hs. intros H. rewrite (IH _ _ H), total_entries_append. cbn. lia.
Qed.

Lemma total_entries_build emojis :
  Forall has_required_keys emojis ->
  forall d d', build_categories emojis d = Return d' ->
               total_entries d' = total_entries d + length (flat_map categories_of emojis).
Proof.
  induction 1 as [|e emojis He _ IH]; intros d d'; cbn [build_categories flat_map].
  - intros [= <-]. cbn. lia.
  - destruct (summary_of_keys e He) as [s Hs].
    destruct (add_to_categories e (categories_of e) d) as [d1|x] eqn:H1; [|discriminate].
    intros H. rewrite (IH _ _ H), (total_entries_add e s _ Hs _ _ H1), length_app. lia.
Qed.

(** X15.  The shape of the index: its category names are distinct and are
    exactly the names that some entry lists, in the order of their first
    appearance; no category is empty; and the index holds one summary for
    each category listed by each entry, so that nothing is dropped and
    nothing is counted twice. *)
Theorem index_shape emojis d :
  Forall has_required_keys emojis ->
  build_categories emojis [] = Return d ->
  NoDup (keys d) /\
  (forall cat, In cat (keys d) <-> exists e, In e emojis /\ In cat (categories_of e)) /\
  (forall cat v, dict_get cat d = Some v -> v <> []) /\
  total_entries d = length (flat_map categories_of emojis).
Proof.
  intros Hwf Hd.
  destruct (build_categories_keys emojis Hwf) as (d' & Hd' & Hkeys).
  rewrite Hd in Hd'. injection Hd' as <-.
  destruct (first_occurrences_spec (flat_map categories_of emojis) []) as [Hnd Hin].
  rewrite Hkeys. split; [exact Hnd|]. split; [|split].
  - intros cat. rewrite Hin, in_flat_map. split.
    + intros [Hex _]. exact Hex.
    + intros Hex. split; [exact Hex|]. apply not_elem_of_nil.
  - intros cat v. apply (entries_built emojis d cat Hwf Hd).
  - apply (total_entries_build emojis Hwf [] d Hd).
Qed.

(** X16.  Within a category the summaries follow the order of the catalog:
    the index of a catalog followed by another lists, under every category,
    the summaries of the first catalog and then those of the second. *)
Theorem index_of_concatenation a b :
  Forall has_required_keys (a ++ b) ->
  exists da db d,
    build_categories a [] = Return da /\
    build_categories b [] = Return db /\
    build_categories (a ++ b) [] = Return d /\
    forall cat, entries cat d = entries cat da ++ entries cat db.
Proof.
  intros Hwf. pose proof Hwf as Hwf'. apply Forall_app in Hwf' as [Ha Hb].
  destruct (build_categories_keys a Ha) as (da & Hda & _).
  destruct (build_categories_keys b Hb) as (db & Hdb & _).
  destruct (build_categories_keys (a ++ b) Hwf) as (d & Hd & _).
  exists da, db, d. repeat split; try assumption. intros cat.
  destruct (entries_built _ _ cat Ha Hda) as [-> _].
  destruct (entries_built _ _ cat Hb Hdb) as [-> _].
  destruct (entries_built _ _ cat Hwf Hd) as [-> _].
  apply index_entries_app.
Qed.

End IndexFurther.

(** ** The further properties on the samples *)

(** X5 on the sample: the square, refused twice with 500. *)
Lemma failed_iff_both_refuse_witness :
  exists o st',
    download_one demo_world demo_blank 3 4 (start ∅) = (Return o, st') /\
    (status_of o = "failed" <->
     exists r1 r2,
       http_get demo_world (trace (start ∅)) (primary_url "2b1c") = Replied r1 /\
       status_code r1 <> 200%Z /\
       http_get demo_world (trace (requested (primary_url "2b1c") (start ∅)))
         (fallback_url "2b1c") = Replied r2 /\
       status_code r2 <> 200%Z) /\
    (status_of o = "failed" ->
     exists r1,
       http_get demo_world (trace (start ∅)) (primary_url "2b1c") = Replied r1 /\
       o = ("failed", MHttp "white square" (status_code r1), 0%Q) /\
       st' = requested (fallback_url "2b1c") (requested (primary_url "2b1c") (start ∅))).
Proof.
  apply (failed_iff_both_refuse demo_world demo_blank 3 4 (start ∅) "2b1c" "white square");
    reflexivity.
Defined.

(** X6 on the sample: the artist, stored by the first call. *)
Lemma stored_or_skipped_is_final_witness :
  exists o st',
    download_one demo_world demo_artist 0 4 (start ∅) = (Return o, st') /\
    (status_of o = "skipped" <->
     is_Some ((∅ : gmap string file_content)
              !! filepath_of demo_world "1f9d1 200d 1f3a8"
                   (first_tag demo_artist "artist"))) /\
    (status_of o = "skipped" -> o = ("skipped", MName "artist", 0%Q) /\ st' = start ∅) /\
    (status_of o = "ok" \/ status_of o = "skipped" ->
     is_Some (files st' !! filepath_of demo_world "1f9d1 200d 1f3a8"
                              (first_tag demo_artist "artist")) /\
     forall index' total',
       download_one demo_world demo_artist index' total' st'
       = (Return ("skipped", MName "artist", 0%Q), st')).
Proof.
  apply (stored_or_skipped_is_final demo_world demo_artist 0 4 (start ∅)
           "1f9d1 200d 1f3a8" "artist"); reflexivity.
Defined.

(** X8 on the sample run of the pool. *)
Lemma total_size_counts_written_bytes_witness :
  exists outs evs st1 c st2,
    run_pool demo_world [1; 0; 2; 3] demo_catalog (length demo_catalog) (start ∅)
    = (Return (map Return outs), st1) /\
    trace st1 = trace (start ∅) ++ evs /\
    collect (length demo_catalog) (Counters 0 0 0 0) (map Return outs) st1
    = (Return c, st2) /\
    (total_size c * 1024 == inject_Z (bytes_written evs))%Q.
Proof.
  apply (total_size_counts_written_bytes demo_world [1; 0; 2; 3] demo_catalog (start ∅)).
  exact demo_catalog_keys.
Defined.

(** X9 on the sample: the notes of the user survive the run. *)
Lemma download_all_keeps_files_witness :
  files (snd (download_all demo_world [0; 1; 2; 3] (start demo_notes)))
  !! "/repo/assets/reactions/noto/notes.txt" = Some (FBytes []).
Proof.
  apply (download_all_keeps_files demo_world [0; 1; 2; 3] demo_notes
           "/repo/assets/reactions/noto/notes.txt" (FBytes [])).
  - reflexivity.
  - intros H. vm_compute in H. discriminate H.
  - intros H. vm_compute in H. discriminate H.
Defined.

Lemma down_world_unserved : forall emojis, ~ catalog_served down_world emojis.
Proof. intros emojis (r & Hr & Hs & _). cbn in Hr. injection Hr as <-. discriminate Hs. Defined.

Lemma offline_world_unserved : forall emojis, ~ catalog_served offline_world emojis.
Proof. intros emojis (r & Hr & _). cbn in Hr. discriminate Hr. Defined.

Lemma garbled_world_unserved : forall emojis, ~ catalog_served garbled_world emojis.
Proof. intros emojis (r & _ & _ & Hj). cbn in Hj. discriminate Hj. Defined.

(** X11 on the samples: an output directory that cannot be made although
    the catalog would be served, a catalog answered with 503, a catalog
    request that raises, a body that does not decode. *)
Lemma unserved_catalog_persists_nothing_witness :
  (catalog_served locked_world demo_catalog /\
   files (snd (download_all locked_world [0; 1] (start demo_notes))) = demo_notes /\
   Forall (fun ev => is_write ev = false /\ is_download_request ev = false)
          (trace (snd (download_all locked_world [0; 1] (start demo_notes))))) /\
  (files (snd (download_all down_world [0; 1] (start demo_notes))) = demo_notes /\
   Forall (fun ev => is_write ev = false /\ is_download_request ev = false)
          (trace (snd (download_all down_world [0; 1] (start demo_notes))))) /\
  (files (snd (download_all offline_world [0; 1] (start demo_notes))) = demo_notes /\
   Forall (fun ev => is_write ev = false /\ is_download_request ev = false)
          (trace (snd (download_all offline_world [0; 1] (start demo_notes))))) /\
  (files (snd (download_all garbled_world [0; 1] (start demo_notes))) = demo_notes /\
   Forall (fun ev => is_write ev = false /\ is_download_request ev = false)
          (trace (snd (download_all garbled_world [0; 1] (start demo_notes))))).
Proof.
  split; [split|split; [|split]].
  - exists (Response 200 PAYLOAD). repeat split; reflexivity.
  - apply (unserved_catalog_persists_nothing locked_world [0; 1] demo_notes).
    left. reflexivity.
  - apply (unserved_catalog_persists_nothing down_world [0; 1] demo_notes).
    right. exact down_world_unserved.
  - apply (unserved_catalog_persists_nothing offline_world [0; 1] demo_notes).
    right. exact offline_world_unserved.
  - apply (unserved_catalog_persists_nothing garbled_world [0; 1] demo_notes).
    right. exact garbled_world_unserved.
Defined.

Lemma nameless_world_served :
  catalog_served nameless_world [Emoji (Some "1f600") None None None None].
Proof. exists (Response 200 []). repeat split; reflexivity. Defined.

Lemma nameless_world_writable : index_files_writable nameless_world.
Proof. repeat split; reflexivity. Defined.

Lemma broken_world_served : catalog_served broken_world demo_broken.
Proof. exists (Response 200 []). repeat split; reflexivity. Defined.

Lemma broken_world_writable : index_files_writable broken_world.
Proof. repeat split; reflexivity. Defined.

(** X12 on the sample: the entry without a name completes second of
    three.  The run ends with [KeyError] on ["name"]; the files of the
    entry before it and of the entry after it are both stored. *)
Lemma missing_key_aborts_after_pool_witness :
  (exists rs st1 st' evs,
     run_pool broken_world [0; 1; 2] demo_broken (length demo_broken)
       (pool_start broken_world ∅ demo_broken)
     = (Return rs, st1) /\
     length rs = length (scheduled [0; 1; 2] demo_broken) /\
     download_all broken_world [0; 1; 2] (start ∅)
     = (Raise (KeyError (missing_key demo_nameless)), st') /\
     files st' = files st1 /\
     trace st' = trace (pool_start broken_world ∅ demo_broken) ++ evs /\
     Forall (fun ev => is_pool_event ev = true \/ is_report_line ev = true) evs /\
     reported (trace st') = [] /\
     (forall p cats, ~ In (EvWrite p (FCategories cats)) (trace st')) /\
     (forall before i after e',
        [0; 1; 2] = before ++ i :: after -> demo_broken !! i = Some e' ->
        exists rs1 st_i r st_i',
          run_pool broken_world before demo_broken (length demo_broken)
            (pool_start broken_world ∅ demo_broken)
          = (Return rs1, st_i) /\
          download_one broken_world e' i (length demo_broken) st_i = (r, st_i') /\
          forall p c, files st_i' !! p = Some c -> files st' !! p = Some c)) /\
  fst (download_all broken_world [0; 1; 2] (start ∅)) = Raise (KeyError "name") /\
  files (snd (download_all broken_world [0; 1; 2] (start ∅)))
    !! filepath_of broken_world "1f600" ":smile:"
  = Some (FBytes PAYLOAD) /\
  files (snd (download_all broken_world [0; 1; 2] (start ∅)))
    !! filepath_of broken_world "1f9d1 200d 1f3a8" ":artist:"
  = Some (FBytes PAYLOAD).
Proof.
  split.
  - apply (missing_key_aborts_after_pool broken_world [0; 1; 2] ∅ demo_broken
             [demo_smile] demo_nameless [demo_artist]
             broken_world_served broken_world_writable eq_refl).
    + repeat constructor; eexists; reflexivity.
    + intros [_ [nm Hnm]]. discriminate Hnm.
  - split; [reflexivity|]. split; vm_compute; reflexivity.
Defined.

Lemma rerun_world_served : catalog_served rerun_world demo_pair.
Proof. exists (Response 200 []). repeat split; reflexivity. Defined.

Lemma rerun_world_writable : index_files_writable rerun_world.
Proof. repeat split; reflexivity. Defined.

Lemma demo_pair_stored : Forall (stored_in rerun_world demo_files_after_run) demo_pair.
Proof.
  repeat constructor.
  - exists "1f9d1 200d 1f3a8", "artist". repeat split. vm_compute. eexists. reflexivity.
  - exists "1f600", "grinning face". repeat split. vm_compute. eexists. reflexivity.
Defined.

(** X13 on the sample: a second run, offline but for the catalog, over the
    two entries that the first run stored. *)
Lemma rerun_skips_everything_witness :
  exists cats,
    build_categories demo_pair [] = Return cats /\
    download_all rerun_world [1; 0] (start demo_files_after_run)
    = (Return tt,
       State (<[cat_path rerun_world := FCategories cats]>
                (<[meta_path rerun_world := FMetadata demo_pair]> demo_files_after_run))
             (catalog_events rerun_world demo_pair
              ++ [EvWrite (meta_path rerun_world) (FMetadata demo_pair);
                  EvPrint LSavedMetadata]
              ++ summary_events rerun_world (Counters 0 (Z.of_nat (length demo_pair)) 0 0)
              ++ [EvWrite (cat_path rerun_world) (FCategories cats);
                  EvPrint (LSavedIndex (length cats))]
              ++ category_events (sorted_items cats))) /\
    requests_of (trace (snd (download_all rerun_world [1; 0] (start demo_files_after_run))))
    = [DATA_URL].
Proof.
  apply (rerun_skips_everything rerun_world [1; 0] demo_files_after_run demo_pair
           rerun_world_served rerun_world_writable).
  - apply perm_swap.
  - exact demo_pair_stored.
Defined.

Lemma demo_index_built : build_categories demo_catalog [] = Return demo_index.
Proof. reflexivity. Defined.

(** X14 on the sample: the smile is listed under ["People"]. *)
Lemma index_membership_witness :
  In (Summary "1f600" "grinning face" [":smile:"; ":grinning-face:"] 0)
     (entries "People" demo_index) <->
  exists e, In e demo_catalog /\ In "People" (categories_of e) /\
            summary_of e
            = Return (Summary "1f600" "grinning face" [":smile:"; ":grinning-face:"] 0).
Proof.
  apply (index_membership demo_catalog demo_index demo_catalog_keys demo_index_built).
Defined.

(** X15 on the sample index. *)
Lemma index_shape_witness :
  NoDup (keys demo_index) /\
  (forall cat, In cat (keys demo_index) <->
               exists e, In e demo_catalog /\ In cat (categories_of e)) /\
  (forall cat v, dict_get cat demo_index = Some v -> v <> []) /\
  total_entries demo_index = length (flat_map categories_of demo_catalog).
Proof.
  apply (index_shape demo_catalog demo_index demo_catalog_keys demo_index_built).
Defined.

(** X16 on the sample: the catalog as two halves. *)
Lemma index_of_concatenation_witness :
  exists da db d,
    build_categories [demo_artist; demo_smile] [] = Return da /\
    build_categories [demo_clock; demo_blank] [] = Return db /\
    build_categories ([demo_artist; demo_smile] ++ [demo_clock; demo_blank]) [] = Return d /\
    forall cat, entries cat d = entries cat da ++ entries cat db.
Proof.
  apply (index_of_concatenation [demo_artist; demo_smile] [demo_clock; demo_blank]).
  exact demo_catalog_keys.
Defined.

(** ** The two index files *)

Section IndexFiles.

Variable W : world.

Lemma index_paths_differ : meta_path W <> cat_path W.
Proof.
  unfold meta_path, cat_path, Py.path_join. cbn [Py.startswith Ascii.eqb Bool.eqb].
  destruct (_ || _)%bool; intros H.
  - apply append_inj_l in H. discriminate H.
  - apply append_inj_l, append_inj_l in H. discriminate H.
Qed.

Lemma after_snapshot_behaves schedule emojis :
  behaves W (2 * length schedule) [cat_path W] (after_snapshot W schedule emojis).
Proof.
  unfold after_snapshot. cbv zeta.
  apply behaves_then; [apply behaves_print|intros _].
  rewrite <- (Nat.add_0_r (2 * length schedule)).
  apply behaves_bind; [apply behaves_run_pool|intros results].
  apply behaves_then; [apply behaves_collect|intros c].
  do 6 (apply behaves_then; [apply behaves_print|intros _]).
  apply behaves_then; [apply behaves_lift|intros cats].
  apply behaves_then;
    [apply behaves_write_index; [cbn; apply String.eqb_refl|apply list_elem_of_here]
    |intros _].
  apply behaves_then; [apply behaves_print|intros _].
  apply behaves_print_categories.
Qed.

(** X17.  Once the catalog is fetched and its snapshot written,
    [_metadata.json] holds the whole catalog at the end of the run, however
    the run ends: no download replaces it, and it is still there when a
    broken entry or a refused index write ends the run with an exception. *)
Theorem snapshot_survives schedule fs emojis :
  catalog_served W emojis ->
  fs_allows W [] (OUTPUT_DIR W) = true ->
  fs_allows W (catalog_events W emojis) (meta_path W) = true ->
  files (snd (download_all W schedule (start fs))) !! meta_path W
  = Some (FMetadata emojis).
Proof.
  intros Hserved Hmk Hmeta.
  rewrite (download_all_to_snapshot W schedule fs emojis Hserved Hmk).
  erewrite bind_return by (apply write_file_run; exact Hmeta).
  destruct (after_snapshot_behaves schedule emojis
              (written (meta_path W) (FMetadata emojis) (State fs (catalog_events W emojis))))
    as (evs & _ & _ & _ & Hkeep).
  apply Hkeep.
  - rewrite not_elem_of_cons. split; [apply index_paths_differ|apply not_elem_of_nil].
  - cbn. apply lookup_insert_eq.
Qed.

End IndexFiles.

(** ** The snapshot and the downloads *)

Section Snapshot.

Variable W : world.

(** Claim C9.  In a run whose catalog fetch succeeds, no download request
    is made before the write of the snapshot.  When that write is refused
    the run ends there with the exception, without any download request.
    When it succeeds, [_metadata.json] holds the whole catalog in the state
    in which the pool starts; the rest of the run is the pool and what
    follows it, run from that state; every call of [download_one] starts in
    a state where [_metadata.json] holds the whole catalog; in the history
    every download request comes after the write of the snapshot; and the
    snapshot is still there when the run ends, however it ends. *)
Theorem metadata_before_downloads schedule fs emojis :
  catalog_served W emojis ->
  fs_allows W [] (OUTPUT_DIR W) = true ->
  Forall (fun ev => is_download_request ev = false) (catalog_events W emojis) /\
  (fs_allows W (catalog_events W emojis) (meta_path W) = false ->
   fst (download_all W schedule (start fs)) = Raise (OSError (meta_path W)) /\
   trace (snd (download_all W schedule (start fs))) = catalog_events W emojis) /\
  (fs_allows W (catalog_events W emojis) (meta_path W) = true ->
   files (pool_start W fs emojis) !! meta_path W = Some (FMetadata emojis) /\
   trace (pool_start W fs emojis)
   = catalog_events W emojis
     ++ [EvWrite (meta_path W) (FMetadata emojis); EvPrint LSavedMetadata] /\
   download_all W schedule (start fs)
   = bind (run_pool W schedule emojis (length emojis)) (after_pool W emojis)
       (pool_start W fs emojis) /\
   (forall pre i post e,
      schedule = pre ++ i :: post -> emojis !! i = Some e ->
      exists rs1 st1 r st2 rs2 st3,
        run_pool W pre emojis (length emojis) (pool_start W fs emojis)
        = (Return rs1, st1) /\
        download_one W e i (length emojis) st1 = (r, st2) /\
        run_pool W post emojis (length emojis) st2 = (Return rs2, st3) /\
        run_pool W schedule emojis (length emojis) (pool_start W fs emojis)
        = (Return (rs1 ++ r :: rs2), st3) /\
        files st1 !! meta_path W = Some (FMetadata emojis)) /\
   (forall pre ev post,
      trace (snd (download_all W schedule (start fs))) = pre ++ ev :: post ->
      is_download_request ev = true ->
      In (EvWrite (meta_path W) (FMetadata emojis)) pre) /\
   files (snd (download_all W schedule (start fs))) !! meta_path W
   = Some (FMetadata emojis)).
Proof.
  intros Hserved Hmk. split; [repeat constructor|]. split.
  - intros Hmeta.
    assert (Hrun : download_all W schedule (start fs)
                   = (Raise (OSError (meta_path W)), State fs (catalog_events W emojis))).
    { rewrite (download_all_to_snapshot W schedule fs emojis Hserved Hmk).
      apply bind_raise. unfold write_file. cbn [trace]. now rewrite Hmeta. }
    rewrite Hrun. split; reflexivity.
  - intros Hmeta.
    assert (Hsnap : files (pool_start W fs emojis) !! meta_path W = Some (FMetadata emojis))
      by (cbn; apply lookup_insert_eq).
    assert (Hall : download_all W schedule (start fs)
                   = after_snapshot W schedule emojis
                       (written (meta_path W) (FMetadata emojis)
                          (State fs (catalog_events W emojis)))).
    { rewrite (download_all_to_snapshot W schedule fs emojis Hserved Hmk).
      erewrite bind_return by (apply write_file_run; exact Hmeta). reflexivity. }
    split; [exact Hsnap|]. split; [reflexivity|].
    split; [rewrite Hall; reflexivity|]. split; [|split].
    + intros pre i post e -> He.
      destruct (run_pool_split W pre i post emojis (length emojis) e He
                  (pool_start W fs emojis))
        as (rs1 & st1 & r & st2 & rs2 & st3 & Hpre & Hone & Hpost & Hrun).
      exists rs1, st1, r, st2, rs2, st3. repeat (split; [assumption|]).
      destruct (run_pool_effect W pre emojis (length emojis) (pool_start W fs emojis))
        as (rs & evs & st' & Hpre' & _ & _ & _ & _ & _ & Hkeep).
      rewrite Hpre in Hpre'. injection Hpre' as <- <-. now apply Hkeep.
    + exact (snapshot_write_precedes_requests W schedule fs emojis Hserved).
    + rewrite Hall.
      destruct (after_snapshot_behaves W schedule emojis
                  (written (meta_path W) (FMetadata emojis)
                     (State fs (catalog_events W emojis))))
        as (evs & _ & _ & _ & Hkeep).
      apply Hkeep.
      * rewrite not_elem_of_cons. split; [apply index_paths_differ|apply not_elem_of_nil].
      * cbn. apply lookup_insert_eq.
Qed.

End Snapshot.

(** C9 on the samples.  On the read-only disk the snapshot is refused and
    the run ends before any download request.  On the sample run the call
    on the third entry starts, after the first two calls, in a state where
    [_metadata.json] holds the catalog, and the snapshot is there at the
    end; so it is after a second run, which makes no download request. *)
Lemma metadata_before_downloads_witness :
  (fst (download_all readonly_world [0; 1; 2; 3] (start ∅))
   = Raise (OSError (meta_path readonly_world)) /\
   trace (snd (download_all readonly_world [0; 1; 2; 3] (start ∅)))
   = catalog_events readonly_world demo_catalog) /\
  (exists rs1 st1 r st2 rs2 st3,
     run_pool demo_world [0; 1] demo_catalog (length demo_catalog)
       (pool_start demo_world ∅ demo_catalog)
     = (Return rs1, st1) /\
     download_one demo_world demo_clock 2 (length demo_catalog) st1 = (r, st2) /\
     run_pool demo_world [3] demo_catalog (length demo_catalog) st2 = (Return rs2, st3) /\
     run_pool demo_world [0; 1; 2; 3] demo_catalog (length demo_catalog)
       (pool_start demo_world ∅ demo_catalog)
     = (Return (rs1 ++ r :: rs2), st3) /\
     files st1 !! meta_path demo_world = Some (FMetadata demo_catalog)) /\
  files (snd (download_all demo_world [0; 1; 2; 3] (start ∅))) !! meta_path demo_world
  = Some (FMetadata demo_catalog) /\
  files (snd (download_all rerun_world [1; 0] (start demo_files_after_run)))
    !! meta_path rerun_world
  = Some (FMetadata demo_pair).
Proof.
  split; [|split; [|split]].
  - apply (metadata_before_downloads readonly_world [0; 1; 2; 3] ∅ demo_catalog).
    + exists (Response 200 []). repeat split; reflexivity.
    + reflexivity.
    + reflexivity.
  - destruct (metadata_before_downloads demo_world [0; 1; 2; 3] ∅ demo_catalog
                demo_world_served eq_refl) as (_ & _ & Hok).
    destruct (Hok eq_refl) as (_ & _ & _ & Hcalls & _).
    exact (Hcalls [0; 1] 2 [3] demo_clock eq_refl eq_refl).
  - destruct (metadata_before_downloads demo_world [0; 1; 2; 3] ∅ demo_catalog
                demo_world_served eq_refl) as (_ & _ & Hok).
    destruct (Hok eq_refl) as (_ & _ & _ & _ & _ & Hend). exact Hend.
  - destruct (metadata_before_downloads rerun_world [1; 0] demo_files_after_run demo_pair
                rerun_world_served eq_refl) as (_ & _ & Hok).
    destruct (Hok eq_refl) as (_ & _ & _ & _ & _ & Hend). exact Hend.
Defined.

(** X18.  The category index depends on the catalog alone: two runs that
    fetch the same catalog persist the same index, whatever the answers to
    their download requests, the files already present and the order in
    which their downloads complete. *)
Theorem index_independent_of_downloads W1 W2 schedule1 schedule2 fs1 fs2 emojis :
  catalog_served W1 emojis -> index_files_writable W1 ->
  catalog_served W2 emojis -> index_files_writable W2 ->
  Forall has_required_keys emojis ->
  exists cats st1 st2,
    build_categories emojis [] = Return cats /\
    download_all W1 schedule1 (start fs1) = (Return tt, st1) /\
    download_all W2 schedule2 (start fs2) = (Return tt, st2) /\
    files st1 !! cat_path W1 = Some (FCategories cats) /\
    files st2 !! cat_path W2 = Some (FCategories cats).
Proof.
  intros Hs1 Hw1 Hs2 Hw2 Hwf.
  destruct (download_all_completes W1 schedule1 fs1 emojis Hs1 Hw1 Hwf)
    as (outs1 & sa1 & c1 & sb1 & cats & _ & _ & _ & _ & Hcats & _ & H1).
  destruct (download_all_completes W2 schedule2 fs2 emojis Hs2 Hw2 Hwf)
    as (outs2 & sa2 & c2 & sb2 & cats' & _ & _ & _ & _ & Hcats' & _ & H2).
  rewrite Hcats in Hcats'. injection Hcats' as <-.
  eexists cats, _, _. split; [exact Hcats|]. split; [exact H1|]. split; [exact H2|].
  split; cbn; apply lookup_insert_eq.
Qed.

(** X17 on the sample: the catalog with the broken entry. *)
Lemma snapshot_survives_witness :
  files (snd (download_all nameless_world [0] (start ∅))) !! meta_path nameless_world
  = Some (FMetadata [Emoji (Some "1f600") None None None None]).
Proof.
  apply (snapshot_survives nameless_world [0] ∅ [Emoji (Some "1f600") None None None None]
           nameless_world_served); reflexivity.
Defined.

(** X18 on the samples: the sample catalog behind two transports. *)
Lemma index_independent_of_downloads_witness :
  exists cats st1 st2,
    build_categories demo_catalog [] = Return cats /\
    download_all demo_world [0; 1; 2; 3] (start ∅) = (Return tt, st1) /\
    download_all refusing_world [3; 2; 1; 0] (start demo_notes) = (Return tt, st2) /\
    files st1 !! cat_path demo_world = Some (FCategories cats) /\
    files st2 !! cat_path refusing_world = Some (FCategories cats).
Proof.
  apply (index_independent_of_downloads demo_world refusing_world
           [0; 1; 2; 3] [3; 2; 1; 0] ∅ demo_notes demo_catalog).
  - exact demo_world_served.
  - exact demo_world_writable.
  - exists (Response 200 []). repeat split; reflexivity.
  - repeat split; reflexivity.
  - exact demo_catalog_keys.
Defined.
